(** * Studio OM V2: the weather-adjusted performance analysis (src/analysis.py)

    A shallow embedding of the analysis module of the dashboard: the
    left join of actual and PVsyst baseline months, the per-month yield
    model, the insights dictionary, the loss breakdown, the long-term
    forecast table, the anomaly flagging and the narrative generator.

    Numbers.  The source computes on IEEE binary64 values held in pandas
    columns.  They are modelled by [float]: NaN, the two infinities, and
    the finite values as exact rationals.  The special values follow
    IEEE/numpy (x/0, 0/0, inf-inf, 0*inf, comparisons with NaN); on finite
    values the arithmetic is exact, so rounding and overflow are outside the
    model, and so is the sign of zero (a zero divisor counts as +0).

    Frames.  A DataFrame is the list of its rows in index order, a row is a
    record of its columns; vectorised column arithmetic is written row by
    row.  The two fitted models (Prophet, IsolationForest) are libraries, not
    code of this repository: they are variables of the sections that use
    them. *)

From Stdlib Require Import ZArith QArith Qabs Qround Lqa String Ascii List.
From Stdlib Require OrderedTypeEx.
From stdpp Require Import gmap strings list sorting pretty.

Local Open Scope Z_scope.

(** ** Floating-point values *)

Inductive float : Type :=
| NaN
| Inf (neg : bool)
| Fin (q : Q).

Module F.

Definition Qneg (q : Q) : bool := negb (Qle_bool 0 q).
Definition Qzero (q : Q) : bool := Qeq_bool q 0.

Definition neg (x : float) : float :=
  match x with
  | NaN => NaN
  | Inf s => Inf (negb s)
  | Fin q => Fin (- q)
  end.

Definition add (x y : float) : float :=
  match x, y with
  | NaN, _ | _, NaN => NaN
  | Inf a, Inf b => if eqb a b then Inf a else NaN
  | Inf a, Fin _ => Inf a
  | Fin _, Inf b => Inf b
  | Fin p, Fin q => Fin (p + q)
  end.

Definition sub (x y : float) : float := add x (neg y).

Definition mul (x y : float) : float :=
  match x, y with
  | NaN, _ | _, NaN => NaN
  | Inf a, Inf b => Inf (xorb a b)
  | Inf a, Fin q => if Qzero q then NaN else Inf (xorb a (Qneg q))
  | Fin p, Inf b => if Qzero p then NaN else Inf (xorb (Qneg p) b)
  | Fin p, Fin q => Fin (p * q)
  end.

(** numpy division: no exception, x/0 is an infinity and 0/0 is NaN. *)
Definition div (x y : float) : float :=
  match x, y with
  | NaN, _ | _, NaN => NaN
  | Inf _, Inf _ => NaN
  | Inf a, Fin q => Inf (xorb a (Qneg q))
  | Fin _, Inf _ => Fin 0
  | Fin p, Fin q =>
      if Qzero q then (if Qzero p then NaN else Inf (Qneg p))
      else Fin (p / q)
  end.

(** The IEEE order: [None] when one side is NaN. *)
Definition compare (x y : float) : option comparison :=
  match x, y with
  | NaN, _ | _, NaN => None
  | Inf a, Inf b =>
      Some (if eqb a b then Eq else if a then Lt else Gt)
  | Inf a, Fin _ => Some (if a then Lt else Gt)
  | Fin _, Inf b => Some (if b then Gt else Lt)
  | Fin p, Fin q => Some (p ?= q)%Q
  end.

Definition gtb (x y : float) : bool :=
  match compare x y with Some Gt => true | _ => false end.
Definition ltb (x y : float) : bool :=
  match compare x y with Some Lt => true | _ => false end.
Definition eqb (x y : float) : bool :=
  match compare x y with Some Eq => true | _ => false end.
Definition leb (x y : float) : bool :=
  match compare x y with Some Lt | Some Eq => true | _ => false end.
Definition geb (x y : float) : bool := leb y x.

Definition isnan (x : float) : bool :=
  match x with NaN => true | _ => false end.
Definition isfinite (x : float) : bool :=
  match x with Fin _ => true | _ => false end.

(** Same value: NaN is NaN, an infinity is itself, finite values are the
    same rational.  (Python's [==] is [eqb], where NaN differs from
    itself.) *)
Definition same (x y : float) : Prop :=
  match x, y with
  | NaN, NaN => True
  | Inf a, Inf b => a = b
  | Fin p, Fin q => (p == q)%Q
  | _, _ => False
  end.

(** [x ** n] for an integer column [n], as C's pow on integral exponents. *)
Definition pow (x : float) (n : Z) : float :=
  let p := Nat.iter (Z.abs_nat n) (mul x) (Fin 1) in
  if n <? 0 then div (Fin 1) p else p.

Definition of_Z (z : Z) : float := Fin (inject_Z z).

End F.

Declare Scope float_scope.
Delimit Scope float_scope with F.
Bind Scope float_scope with float.
Infix "+" := F.add : float_scope.
Infix "-" := F.sub : float_scope.
Infix "*" := F.mul : float_scope.
Infix "/" := F.div : float_scope.
Notation "- x" := (F.neg x) : float_scope.
Infix ">?" := F.gtb : float_scope.
Infix "<?" := F.ltb : float_scope.
Infix "=?" := F.eqb : float_scope.
Infix ">=?" := F.geb : float_scope.
Infix "<=?" := F.leb : float_scope.
Infix "~=" := F.same (at level 70, no associativity) : float_scope.

(** ** pandas and Python primitives used by the module *)

(** [Series.replace([np.inf, -np.inf], np.nan)] *)
Definition replace_inf (x : float) : float :=
  match x with Inf _ => NaN | _ => x end.

(** [Series.fillna(d)] *)
Definition fillna (d x : float) : float :=
  match x with NaN => d | _ => x end.

(** Python's [max(x, y)]: the first argument unless the second is strictly
    greater; with a NaN first argument no comparison succeeds. *)
Definition pymax (x y : float) : float :=
  if (y >? x)%F then y else x.

(** [Series.sum()] with the default [skipna=True]; 0 on an empty column. *)
Definition series_sum (l : list float) : float :=
  foldr F.add (Fin 0) (filter (λ x, F.isnan x = false) l).

(** [Series.mean()] with the default [skipna=True]; NaN on an empty column. *)
Definition series_mean (l : list float) : float :=
  let xs := filter (λ x, F.isnan x = false) l in
  (foldr F.add (Fin 0) xs / F.of_Z (Z.of_nat (length xs)))%F.

(** [Series.clip(lower, upper)]: NaN stays NaN. *)
Definition clip (lo hi x : float) : float :=
  if (x <? lo)%F then lo else if (x >? hi)%F then hi else x.

(** ** Frames of the analysis *)

(** A timestamp of the [Date] column.  The loader parses it with the format
    [%Y-%m], so it is the first day of a month: a year and a month. *)
Definition date : Type := Z * Z.

Definition date_le (d1 d2 : date) : Prop :=
  d1.1 < d2.1 ∨ (d1.1 = d2.1 ∧ d1.2 ≤ d2.2).

Global Instance date_le_dec : RelDecision date_le.
Proof. intros d1 d2. unfold date_le. apply _. Defined.

(** The actual-production frame (data_loader.load_actual_data). *)
Module Actual.
Record row : Type := mk {
  Date : date;
  Year : Z;
  Month : Z;
  actual_yield_kwh : float;
  actual_pr_percent : float;
  actual_ghi_kwh_m2 : float;
  ambient_temp_c : float;
}.
End Actual.

(** The PVsyst baseline frame (data_loader.load_pvsyst_baseline). *)
Module Pvsyst.
Record row : Type := mk {
  Month : Z;
  pvsyst_yield_kwh : float;
  pvsyst_pr_percent : float;
  pvsyst_ghi_kwh_m2 : float;
}.
End Pvsyst.

(** The frame right after [pd.merge]: the columns of both sides. *)
Module Merged.
Record row : Type := mk {
  actual : Actual.row;
  pvsyst_yield_kwh : float;
  pvsyst_pr_percent : float;
  pvsyst_ghi_kwh_m2 : float;
}.
End Merged.

(** The analysis table: the columns [final_cols] of perform_phase2_analysis. *)
Record analysis_row : Type := mk_analysis_row {
  Date : date;
  Year : Z;
  Month : Z;
  op_year : Z;
  actual_yield_kwh : float;
  expected_yield_kwh : float;
  ideal_yield_kwh : float;
  temp_loss_kwh : float;
  other_losses_kwh : float;
  yield_variance_kwh : float;
  yield_variance_pct : float;
  actual_ghi_kwh_m2 : float;
  pvsyst_ghi_kwh_m2 : float;
  irr_index_pct : float;
  irr_alert : string;
  pi_pct : float;
  actual_pr_percent : float;
  pvsyst_pr_percent : float;
  ambient_temp_c : float;
}.

(** The [system_info] dictionary: a key may be absent. *)
Record system_info : Type := mk_system_info {
  degradation_rate : option float;
  commissioning_year : option Z;
  temp_coeff : option float;
  irr_alert_threshold : option float;
  forecast_period : option nat;
  energy_guarantee : option float;
}.

(** The [insights] dictionary. *)
Abbreviation insights_dict := (gmap string float).

(** [d.get(k, 0)] *)
Definition get0 (d : insights_dict) (k : string) : float :=
  default (Fin 0) (d !! k).

(** ** perform_phase2_analysis *)

(** [pd.merge(left, right, on=key, how='left')]: the rows of the left frame
    in their order, each once per right row with its key (in the order of
    the right frame), and once with missing right columns when no right row
    has its key. *)
Definition left_join {A B C : Type} (key_l : A → Z) (key_r : B → Z)
    (matched : A → B → C) (unmatched : A → C)
    (left : list A) (right : list B) : list C :=
  a ← left;
  match filter (λ b, key_r b = key_l a) right with
  | [] => [unmatched a]
  | bs => matched a <$> bs
  end.

(** Line 23: [pd.merge(_actual_df, _pvsyst_df, on='Month', how='left')]; the
    missing baseline columns of an unmatched month are NaN. *)
Definition merge_left (actual_df : list Actual.row)
    (pvsyst_df : list Pvsyst.row) : list Merged.row :=
  left_join Actual.Month Pvsyst.Month
    (λ a p, Merged.mk a (Pvsyst.pvsyst_yield_kwh p)
              (Pvsyst.pvsyst_pr_percent p) (Pvsyst.pvsyst_ghi_kwh_m2 p))
    (λ a, Merged.mk a NaN NaN NaN)
    actual_df pvsyst_df.

Definition alert_check : string := "⚠️ Check Sensor".
Definition alert_ok : string := "✅ OK".

Definition c100 : float := Fin 100.
Definition c1000 : float := Fin 1000.
Definition expected_floor : float := Fin (1 # 100).

Section YieldModel.

Variable si : system_info.

Definition cfg_temp_coeff : float :=
  (default (Fin (-38 # 100)) (temp_coeff si) / c100)%F.
Definition cfg_commissioning_year : Z :=
  default 2020 (commissioning_year si).
Definition cfg_threshold : float :=
  default (Fin 20) (irr_alert_threshold si).

(** The sanitised irradiance ratio of lines 32 and 41, before [fillna]. *)
Definition ghi_ratio (m : Merged.row) : float :=
  replace_inf (Actual.actual_ghi_kwh_m2 (Merged.actual m)
               / Merged.pvsyst_ghi_kwh_m2 m)%F.

(** Lines 29-49: the derived columns of one row, in the order of the
    source. *)
Definition enrich_row (m : Merged.row) : analysis_row :=
  let a := Merged.actual m in
  let op := Z.max (Actual.Year a - cfg_commissioning_year) 0 in
  let irr := fillna (Fin 0) (ghi_ratio m * c100)%F in
  let alert :=
    if (irr >? c100 + cfg_threshold)%F || (irr <? c100 - cfg_threshold)%F
    then alert_check else alert_ok in
  let ideal := (Merged.pvsyst_yield_kwh m * fillna (Fin 0) (ghi_ratio m))%F in
  let temp_loss :=
    (ideal * cfg_temp_coeff * (Actual.ambient_temp_c a - Fin 25))%F in
  let expected := pymax (ideal + temp_loss)%F expected_floor in
  let actual_y := Actual.actual_yield_kwh a in
  let pi := (actual_y / expected * c100)%F in
  let other := (expected - actual_y)%F in
  let variance := (actual_y - expected)%F in
  let variance_pct :=
    fillna (Fin 0) (replace_inf (variance / expected) * c100)%F in
  {| Date := Actual.Date a; Year := Actual.Year a; Month := Actual.Month a;
     op_year := op;
     actual_yield_kwh := actual_y;
     expected_yield_kwh := expected;
     ideal_yield_kwh := ideal;
     temp_loss_kwh := temp_loss;
     other_losses_kwh := other;
     yield_variance_kwh := variance;
     yield_variance_pct := variance_pct;
     actual_ghi_kwh_m2 := Actual.actual_ghi_kwh_m2 a;
     pvsyst_ghi_kwh_m2 := Merged.pvsyst_ghi_kwh_m2 m;
     irr_index_pct := irr;
     irr_alert := alert;
     pi_pct := pi;
     actual_pr_percent := Actual.actual_pr_percent a;
     pvsyst_pr_percent := Merged.pvsyst_pr_percent m;
     ambient_temp_c := Actual.ambient_temp_c a |}.

(** Lines 51-64: the insights dictionary, computed on the unsorted frame. *)
Definition summarize (df : list analysis_row) : insights_dict :=
  let sum_actual := series_sum (actual_yield_kwh <$> df) in
  let sum_expected := series_sum (expected_yield_kwh <$> df) in
  let total_actual_yield_mwh := (sum_actual / c1000)%F in
  let total_expected_yield_mwh := (sum_expected / c1000)%F in
  let alerts := filter (λ r, irr_alert r ≠ alert_ok) df in
  <["Sensor Alerts Count" := F.of_Z (Z.of_nat (length alerts))]>
  (<["Average PR (%)" := series_mean (actual_pr_percent <$> df)]>
  (<["Average PI (%)" :=
      if (sum_expected >? Fin 0)%F
      then (sum_actual / sum_expected * c100)%F else Fin 0]>
  (<["Overall Yield Variance (%)" :=
      if (total_expected_yield_mwh >? Fin 0)%F
      then ((total_actual_yield_mwh - total_expected_yield_mwh)
            / total_expected_yield_mwh * c100)%F
      else Fin 0]>
  (<["Overall Yield Variance (MWh)" :=
      (total_actual_yield_mwh - total_expected_yield_mwh)%F]>
  (<["Total Other Losses (MWh)" :=
      (series_sum (other_losses_kwh <$> df) / c1000)%F]>
  (<["Total Temperature Loss (MWh)" :=
      (series_sum (temp_loss_kwh <$> df) / c1000)%F]>
  (<["Total Ideal Yield (MWh)" :=
      (series_sum (ideal_yield_kwh <$> df) / c1000)%F]>
  (<["Total Expected Yield (MWh)" := total_expected_yield_mwh]>
  (<["Total Actual Yield (MWh)" := total_actual_yield_mwh]> ∅))))))))).

(** [sort_values(by='Date')]: some ordering of the rows by date.  pandas'
    default sort is not stable; the order among equal dates is a choice of
    this model that no statement below depends on. *)
Definition sort_by_date (df : list analysis_row) : list analysis_row :=
  merge_sort (λ r1 r2, date_le (Date r1) (Date r2)) df.

Definition perform_phase2_analysis (actual_df : list Actual.row)
    (pvsyst_df : list Pvsyst.row) : list analysis_row * insights_dict :=
  let analysis_df := enrich_row <$> merge_left actual_df pvsyst_df in
  (sort_by_date analysis_df, summarize analysis_df).

End YieldModel.

(** ** Exceptions and effects

    A computation of the module may raise, may fit one of the two library
    models and may show a warning banner.  [M A] is the list of the effects
    performed, in order, and the outcome: the exception raised or the value
    returned. *)

Inductive exn : Type :=
| KeyError (key : string)
| ValueError (msg : string)
| LibraryError.

(** The feature vector of the outlier detector. *)
Definition feature : Type := float * float * float.

Inductive event : Type :=
| IForestFit (X : list feature)
| ProphetFit (history : list (date * float))
| StWarning (msg : string).

Definition M (A : Type) : Type := list event * (exn + A).

Global Instance M_ret : MRet M := λ A a, ([], inr a).

Global Instance M_bind : MBind M := λ A B k m,
  match m.2 with
  | inl e => (m.1, inl e)
  | inr a => (m.1 ++ (k a).1, (k a).2)
  end.

Definition raise {A : Type} (e : exn) : M A := ([], inl e).
Definition emit (ev : event) : M unit := ([ev], inr tt).

(** ** get_loss_breakdown_data *)

Record breakdown : Type := mk_breakdown {
  ideal : float;
  temp_loss : float;
  other_loss : float;
  actual : float;
  period_str : string;
}.

Definition month_name (m : Z) : string :=
  match m with
  | 1 => "January" | 2 => "February" | 3 => "March" | 4 => "April"
  | 5 => "May" | 6 => "June" | 7 => "July" | 8 => "August"
  | 9 => "September" | 10 => "October" | 11 => "November"
  | 12 => "December" | _ => ""
  end.

(** [Timestamp.strftime('%B %Y')] *)
Definition strftime_B_Y (d : date) : string :=
  month_name d.2 +:+ " " +:+ pretty d.1.

(** [insights=None] is [None]; [period] is any string.  The frame is empty
    exactly when it has no last row. *)
Definition get_loss_breakdown_data (analysis_df : list analysis_row)
    (insights : option insights_dict) (period : string) : exn + breakdown :=
  match last analysis_df with
  | None =>
      inr (mk_breakdown (Fin 0) (Fin 0) (Fin 0) (Fin 0) "no data")
  | Some latest_row =>
      if decide (period = "overall") then
        match insights with
        | None =>
            inl (ValueError
              "Insights dictionary must be provided for 'overall' period.")
        | Some ins =>
            inr (mk_breakdown
                   (get0 ins "Total Ideal Yield (MWh)")
                   (get0 ins "Total Temperature Loss (MWh)")
                   (get0 ins "Total Other Losses (MWh)")
                   (get0 ins "Total Actual Yield (MWh)")
                   "the entire analysis period")
        end
      else if decide (period = "latest_month") then
        inr (mk_breakdown
               (ideal_yield_kwh latest_row / c1000)%F
               (temp_loss_kwh latest_row / c1000)%F
               (other_losses_kwh latest_row / c1000)%F
               (actual_yield_kwh latest_row / c1000)%F
               (strftime_B_Y (Date latest_row)))
      else
        inl (ValueError "Invalid period. Must be 'overall' or 'latest_month'.")
  end.

(** ** _get_full_years_df *)

(** [df.groupby('Year')['Month'].nunique()] at one year. *)
Definition month_count (df : list analysis_row) (y : Z) : nat :=
  length (remove_dups (Month <$> filter (λ r, Year r = y) df)).

(** [None] is the column-less [pd.DataFrame()] returned for an empty
    frame. *)
Definition _get_full_years_df (df : list analysis_row)
  : option (list analysis_row) :=
  match df with
  | [] => None
  | _ => Some (filter (λ r, month_count df (Year r) = 12%nat) df)
  end.

(** [df.groupby(key)[col].sum()]: one row per key, keys ascending, NaN
    skipped. *)
Definition groupby_sum (rows : list (Z * float)) : list (Z * float) :=
  (λ k, (k, series_sum (snd <$> filter (λ kv, kv.1 = k) rows)))
    <$> merge_sort Z.le (remove_dups (fst <$> rows)).

(** ** The Prophet library *)

Definition next_month (d : date) : date :=
  if d.2 =? 12 then (d.1 + 1, 1) else (d.1, d.2 + 1).

(** [Series.max()] of a date column. *)
Definition max_date (ds : list date) : option date :=
  foldr (λ d acc,
    match acc with
    | None => Some d
    | Some m => Some (if decide (date_le d m) then m else d)
    end) None ds.

(** [model.make_future_dataframe(periods, freq='MS')]: the distinct dates of
    the fitted frame in ascending order, then the [periods] month starts
    after the last of them. *)
Definition make_future_dataframe (history : list date) (periods : nat)
  : list date :=
  let hist := merge_sort date_le (remove_dups history) in
  match max_date history with
  | None => hist
  | Some d => hist ++ tail (Nat.iter periods
                (λ ds, ds ++ [next_month (default d (last ds))]) [d])
  end.

(** One row of [model.predict]. *)
Record prediction : Type := mk_prediction {
  yhat : float;
  yhat_lower : float;
  yhat_upper : float;
}.

(** The frame with the [is_anomaly] column that detect_anomalies_with_ml
    writes into the frame it is given (and returns). *)
Record flagged_row : Type := mk_flagged {
  row : analysis_row;
  is_anomaly : Z;
}.

(** The dictionary returned by calculate_short_term_forecast. *)
Record short_forecast : Type := mk_short_forecast {
  fc_date : string;
  fc_pi : float;
  fc_pi_lower : float;
  fc_pi_upper : float;
}.

(** The frame returned by calculate_long_term_forecast. *)
Module LongTerm.
Record row : Type := mk {
  Year : Z;
  Forecasted_Yield_MWh : float;
  Degraded_Guarantee_MWh : float;
  Type_ : string;
}.
End LongTerm.

(** A report line: the pair of a tag (h3, h4, body, bullet) and a text. *)
Definition report_line : Type := string * string.

(** [sorted(list(set(items)))] on strings. *)
Definition string_le (s t : string) : Prop := String.leb s t = true.

Global Instance string_le_dec : RelDecision string_le.
Proof. intros s t. unfold string_le. apply _. Defined.

Definition sorted_set (items : list string) : list string :=
  merge_sort string_le (remove_dups items).

Definition sensor_recommendation : string :=
  "Inspect Irradiance Sensor: Check the pyranometer for cleanliness and calibration.".
Definition optimal_line : string :=
  "The system is performing optimally. Continue with regular preventive maintenance.".
Definition recommendations_heading : report_line :=
  ("h3", "Actionable Recommendations").

Section Models.

(** sklearn's IsolationForest with the hyperparameters of the source:
    fitting may raise (it validates its input), predicting gives 1 for an
    inlier and -1 for an outlier, sample by sample. *)
Variable Forest : Type.
Variable iforest_fit : list feature → option Forest.
Variable iforest_predict : Forest → feature → Z.

(** Prophet with yearly seasonality (the changepoint prior scale 0.05 that
    the long-term forecast passes is the library's default): fitting may
    raise, predicting gives a row per date. *)
Variable Prophet : Type.
Variable prophet_fit : list (date * float) → option Prophet.
Variable prophet_predict : Prophet → date → prediction.

(** Python's fixed-point formatting, [f"{x:.nf}"]. *)
Variable format_f : nat → float → string.

Definition fit_iforest (X : list feature) : M Forest :=
  _ ← emit (IForestFit X);
  match iforest_fit X with
  | Some model => mret model
  | None => raise LibraryError
  end.

Definition fit_prophet (history : list (date * float)) : M Prophet :=
  _ ← emit (ProphetFit history);
  match prophet_fit history with
  | Some model => mret model
  | None => raise LibraryError
  end.

(** *** detect_anomalies_with_ml *)

(** [analysis_df[features].copy().fillna(0)], one row. *)
Definition features (r : analysis_row) : feature :=
  (fillna (Fin 0) (pi_pct r), fillna (Fin 0) (other_losses_kwh r),
   fillna (Fin 0) (irr_index_pct r)).

Definition detect_anomalies_with_ml (analysis_df : list analysis_row)
  : M (list flagged_row) :=
  if decide (analysis_df = [] ∨ (length analysis_df < 3)%nat) then
    mret ((λ r, mk_flagged r 1) <$> analysis_df)
  else
    let data_for_model := features <$> analysis_df in
    model ← fit_iforest data_for_model;
    mret ((λ r, mk_flagged r (iforest_predict model (features r)))
            <$> analysis_df).

(** *** calculate_short_term_forecast *)

Definition calculate_short_term_forecast (analysis_df : list analysis_row)
  : M (option short_forecast) :=
  if decide (analysis_df = [] ∨ (length analysis_df < 6)%nat) then
    mret None
  else
    let recent_df := drop (length analysis_df - 24) analysis_df in
    let pi_df := (λ r, (Date r, pi_pct r)) <$> recent_df in
    model ← fit_prophet pi_df;
    let future := make_future_dataframe (fst <$> pi_df) 1 in
    match last future with
    | Some ds =>
        let next_month_forecast := prophet_predict model ds in
        mret (Some (mk_short_forecast (strftime_B_Y ds)
                      (yhat next_month_forecast)
                      (yhat_lower next_month_forecast)
                      (yhat_upper next_month_forecast)))
    | None => raise LibraryError (* not reached: [future] has a last row *)
    end.

(** *** calculate_long_term_forecast *)

(** Lines 139-151: the yearly sums of the monthly forecast, in MWh. *)
Definition yearly_forecast (model : Prophet)
    (full_years_df : list analysis_row) (pvsyst_df : list Pvsyst.row)
    (forecast_period_years : nat) : list (Z * float) :=
  let future_dates :=
    make_future_dataframe (Date <$> full_years_df)
      (forecast_period_years * 12) in
  let forecast_df :=
    (λ d, (d, clip (Fin 50) (Fin 110) (yhat (prophet_predict model d))))
      <$> future_dates in
  let merged :=
    left_join (λ f : date * float, f.1.2) Pvsyst.Month
      (λ f p, (f, Pvsyst.pvsyst_yield_kwh p)) (λ f, (f, NaN))
      forecast_df pvsyst_df in
  let monthly :=
    (λ fp : date * float * float,
       (fp.1.1.1, (fp.2 * (fp.1.2 / c100))%F)) <$> merged in
  (λ kv, (kv.1, (kv.2 / c1000)%F)) <$> groupby_sum monthly.

(** Lines 153-155: the yearly sums of the actual yield, in MWh. *)
Definition yearly_actuals (full_years_df : list analysis_row)
  : list (Z * float) :=
  (λ kv, (kv.1, (kv.2 / c1000)%F))
    <$> groupby_sum ((λ r, (Year r, actual_yield_kwh r)) <$> full_years_df).

(** Lines 156-158: the left join on the year, and
    [Actual.fillna(Forecasted)]. *)
Definition override_with_actuals (forecast actuals : list (Z * float))
  : list (Z * float) :=
  left_join fst fst
    (λ f a, (f.1, fillna f.2 a.2)) (λ f, (f.1, fillna f.2 NaN))
    forecast actuals.

Definition unavailable : M (option (list LongTerm.row)) :=
  _ ← emit (StWarning
    "Long-term forecast requires at least one full year (12 months) of historical data.");
  mret None.

(** [None] is the empty frame returned after the warning. *)
Definition calculate_long_term_forecast (analysis_df : list analysis_row)
    (pvsyst_df : list Pvsyst.row) (si : system_info)
  : M (option (list LongTerm.row)) :=
  match _get_full_years_df analysis_df with
  | None => unavailable
  | Some full_years_df =>
      if decide (full_years_df = [] ∨ pvsyst_df = []
                 ∨ (length full_years_df < 12)%nat)
      then unavailable
      else
        let pi_df := (λ r, (Date r, pi_pct r)) <$> full_years_df in
        model ← fit_prophet pi_df;
        let forecast_period_years := default 10%nat (forecast_period si) in
        let forecast :=
          yearly_forecast model full_years_df pvsyst_df
            forecast_period_years in
        let years := Year <$> full_years_df in
        let last_full_year := foldr Z.max (default 0 (head years)) years in
        let final_df :=
          override_with_actuals forecast (yearly_actuals full_years_df) in
        commissioning_year ←
          match commissioning_year si with
          | Some y => mret y
          | None => raise (KeyError "commissioning_year")
          end;
        let annual_guarantee_mwh := default (Fin 0) (energy_guarantee si) in
        let theoretical_degradation_rate :=
          (default (Fin (1 # 2)) (degradation_rate si) / c100)%F in
        mret (Some ((λ yf : Z * float,
          LongTerm.mk yf.1 yf.2
            (annual_guarantee_mwh
             * F.pow (Fin 1 - theoretical_degradation_rate)
                 (yf.1 - commissioning_year))%F
            (if decide (yf.1 ≤ last_full_year)
             then "Historical" else "Forecast")) <$> final_df))
  end.

(** *** generate_conclusion_text_phase2 *)

Definition summary_text (insights : insights_dict) : string :=
  let avg_pi := get0 insights "Average PI (%)" in
  let total_actual_yield_mwh := get0 insights "Total Actual Yield (MWh)" in
  "Over the analysis period, your system generated a total of "
  +:+ format_f 2 total_actual_yield_mwh
  +:+ " MWh, with an average Performance Index (PI) of "
  +:+ format_f 2 avg_pi +:+ "%. "
  +:+ (if (avg_pi >=? c100)%F then
         "This indicates excellent system performance."
       else if (avg_pi >=? Fin 97)%F then
         "This indicates good system performance."
       else
         "This suggests some level of underperformance. See anomaly report below for details.").

Definition forecast_text (fc : short_forecast) : string :=
  "For **" +:+ fc_date fc
  +:+ "**, the expected Performance Index (PI) is forecasted to be around **"
  +:+ format_f 1 (fc_pi fc) +:+ "%** (with a likely range of "
  +:+ format_f 1 (fc_pi_lower fc) +:+ "% to "
  +:+ format_f 1 (fc_pi_upper fc) +:+ "%).".

Definition anomaly_bullet (r : flagged_row) : report_line :=
  ("bullet", "**Month: " +:+ strftime_B_Y (Date (row r)) +:+ "** (PI: "
             +:+ format_f 1 (pi_pct (row r)) +:+ "%)").

Definition anomaly_recommendation (r : flagged_row) : string :=
  "Investigate Anomaly in " +:+ strftime_B_Y (Date (row r))
  +:+ ": Review O&M logs and system components.".

(** Lines 231-239, from the recommendations collected in the anomaly loop
    and the insights. *)
Definition recommendations_section (insights : insights_dict)
    (recommendations : list string) : list report_line :=
  match recommendations with
  | [] => [recommendations_heading; ("body", optimal_line)]
  | _ =>
      let recommendations :=
        if (get0 insights "Sensor Alerts Count" >? Fin 0)%F
        then sensor_recommendation :: recommendations
        else recommendations in
      recommendations_heading
        :: ((λ item, ("bullet", item)) <$> sorted_set recommendations)
  end.

Definition generate_conclusion_text_phase2 (insights : insights_dict)
    (analysis_df : list analysis_row) (si : system_info)
  : M (list report_line) :=
  flagged_df ← detect_anomalies_with_ml analysis_df;
  let anomalous_months_df :=
    filter (λ r, is_anomaly r = -1) flagged_df in
  let intro : list report_line :=
    [("h3", "🤖 AI Performance Assistant Insights");
     ("body", "I've analyzed your PV plant's performance data using the Studio OM V2 analysis engine and machine learning to generate key insights and actionable recommendations.");
     ("h4", "Key Performance Insights");
     ("body", summary_text insights)] in
  short_term_forecast_result ←
    calculate_short_term_forecast (row <$> flagged_df);
  let forecast_lines : list report_line :=
    match short_term_forecast_result with
    | Some fc =>
        [("h4", "Next Month Forecast"); ("body", forecast_text fc)]
    | None => []
    end in
  full_years_df_for_trend ←
    match _get_full_years_df (row <$> flagged_df) with
    | Some df => mret df
    | None => raise (KeyError "Year")
    end;
  let trend_lines : list report_line :=
    if decide (1 < length (remove_dups (Year <$> full_years_df_for_trend)))%nat
    then [("h4", "Degradation Trend");
          ("body", "Degradation trend analysis is based on full years of data to ensure accuracy.")]
    else [] in
  let anomaly_lines : list report_line :=
    ("h4", "Machine Learning Anomaly Report")
    :: match anomalous_months_df with
       | [] =>
           [("body", "✅ No significant performance anomalies were detected.")]
       | _ =>
           ("body", "Our ML model has identified the following months with unusual performance patterns:")
           :: (anomaly_bullet <$> anomalous_months_df)
       end in
  let recommendations := anomaly_recommendation <$> anomalous_months_df in
  mret (intro ++ forecast_lines ++ trend_lines ++ anomaly_lines
        ++ recommendations_section insights recommendations).

End Models.

(** ** Predicates of the statements, and small frames *)

(** The numeric inputs that the derived columns read. *)
Definition finite_actual (a : Actual.row) : bool :=
  F.isfinite (Actual.actual_yield_kwh a)
  && F.isfinite (Actual.actual_ghi_kwh_m2 a)
  && F.isfinite (Actual.ambient_temp_c a).

Definition finite_pvsyst (p : Pvsyst.row) : bool :=
  F.isfinite (Pvsyst.pvsyst_yield_kwh p)
  && F.isfinite (Pvsyst.pvsyst_ghi_kwh_m2 p).

Definition finite_config (si : system_info) : bool :=
  F.isfinite (default (Fin 0) (temp_coeff si)).



(** The sum of a column over all its records, none skipped. *)
Definition sum_all (l : list float) : float := foldr F.add (Fin 0) l.

(** A row with finite yields: the expected yield is at least the floor, and
    the index weighted by it is 100 times the actual yield. *)
Definition weighs (r : analysis_row) : Prop :=
  ∃ a e w, actual_yield_kwh r = Fin a ∧ expected_yield_kwh r = Fin e
           ∧ (expected_yield_kwh r * pi_pct r)%F = Fin w
           ∧ (1 # 100 <= e)%Q ∧ (w == 100 * a)%Q.

(** Every month of the actual frame has a baseline row. *)
Definition baseline_covers (pvsyst_df : list Pvsyst.row)
    (actual_df : list Actual.row) : bool :=
  forallb (λ a, existsb (λ p, Pvsyst.Month p =? Actual.Month a) pvsyst_df)
    actual_df.

(** The derived numeric columns of a row of the analysis table. *)
Definition derived_finite (r : analysis_row) : bool :=
  F.isfinite (irr_index_pct r) && F.isfinite (ideal_yield_kwh r)
  && F.isfinite (temp_loss_kwh r) && F.isfinite (expected_yield_kwh r)
  && F.isfinite (pi_pct r) && F.isfinite (other_losses_kwh r)
  && F.isfinite (yield_variance_kwh r) && F.isfinite (yield_variance_pct r).

(** A sum that can be neither negative nor NaN. *)
Definition nonneg (x : float) : Prop :=
  match x with NaN => False | Inf b => b = false | Fin q => (0 <= q)%Q end.

Module Fixtures.

(** No key set: every default of the source applies. *)
Definition si_default : system_info :=
  mk_system_info None None None None None None.


(** A baseline with a January row only. *)
Definition pvsyst_jan : list Pvsyst.row :=
  [Pvsyst.mk 1 (Fin 1000) (Fin 82) (Fin 150)].

(** January 2023 with no measured irradiation. *)
Definition actual_outage : list Actual.row :=
  [Actual.mk (2023, 1) 2023 1 (Fin 900) (Fin 80) (Fin 0) (Fin 30)].

(** January 2023 with a negative irradiation reading. *)
Definition actual_negative_ghi : list Actual.row :=
  [Actual.mk (2023, 1) 2023 1 (Fin 900) (Fin 80) (Fin (-15)) (Fin 25)].

(** February 2023: a month the January-only baseline lacks. *)
Definition actual_feb : list Actual.row :=
  [Actual.mk (2023, 2) 2023 2 (Fin 900) (Fin 80) (Fin 140) (Fin 30)].


(** An ordinary January. *)
Definition actual_jan : list Actual.row :=
  [Actual.mk (2023, 1) 2023 1 (Fin 900) (Fin 80) (Fin 140) (Fin 30)].






(** January and February 2023 of 900 kWh each, at the irradiation of the
    baseline and at 25 degrees: the January-only baseline expects 1000 kWh
    for January and has nothing for February. *)
Definition actual_jan_feb : list Actual.row :=
  [Actual.mk (2023, 1) 2023 1 (Fin 900) (Fin 80) (Fin 150) (Fin 25);
   Actual.mk (2023, 2) 2023 2 (Fin 900) (Fin 80) (Fin 150) (Fin 25)].

(** A baseline whose January has no irradiation and no yield. *)
Definition pvsyst_zero : list Pvsyst.row :=
  [Pvsyst.mk 1 (Fin 0) (Fin 82) (Fin 0)].

(** Two months of equal actual yield against very different baselines. *)
Definition pvsyst_uneven : list Pvsyst.row :=
  [Pvsyst.mk 1 (Fin 100) (Fin 82) (Fin 100);
   Pvsyst.mk 2 (Fin 1000) (Fin 82) (Fin 100)].

Definition actual_even : list Actual.row :=
  [Actual.mk (2023, 1) 2023 1 (Fin 100) (Fin 80) (Fin 100) (Fin 25);
   Actual.mk (2023, 2) 2023 2 (Fin 100) (Fin 80) (Fin 100) (Fin 25)].

(** Stand-ins for the two libraries: an outlier detector that flags every
    sample, a trend model that predicts 100 % everywhere. *)
Definition forest_fit (X : list feature) : option unit := Some tt.
Definition forest_predict (model : unit) (x : feature) : Z := -1.
Definition trend_fit (history : list (date * float)) : option unit :=
  Some tt.
Definition trend_predict (model : unit) (d : date) : prediction :=
  mk_prediction (Fin 100) (Fin 95) (Fin 105).

(** The twelve months of 2022 at 900 kWh each, then a January 2023 of
    1 kWh; a baseline of 1000 kWh for every month. *)
Definition months : list Z := [1; 2; 3; 4; 5; 6; 7; 8; 9; 10; 11; 12].

Definition pvsyst_year : list Pvsyst.row :=
  (λ m, Pvsyst.mk m (Fin 1000) (Fin 82) (Fin 150)) <$> months.

Definition actual_2022_23 : list Actual.row :=
  ((λ m, Actual.mk (2022, m) 2022 m (Fin 900) (Fin 80) (Fin 150) (Fin 25))
     <$> months)
  ++ [Actual.mk (2023, 1) 2023 1 (Fin 1) (Fin 80) (Fin 150) (Fin 25)].

Definition si_2022 : system_info :=
  mk_system_info (Some (Fin (1 # 2))) (Some 2022) (Some (Fin (-38 # 100)))
    (Some (Fin 20)) (Some 1%nat) (Some (Fin 1600)).

Definition table_2022_23 : list analysis_row :=
  (perform_phase2_analysis si_2022 actual_2022_23 pvsyst_year).1.

(** A stand-in for Python's fixed-point formatting: the nearest decimal
    with [n] digits after the point, halves rounded up. *)
Definition format_fixed (n : nat) (x : float) : string :=
  match x with
  | NaN => "nan"
  | Inf s => if s then "-inf" else "inf"
  | Fin q =>
      let unit_ := 10 ^ Z.of_nat n in
      let scaled := Qfloor (q * inject_Z unit_ + (1 # 2))%Q in
      let digits := pretty (Z.abs scaled `mod` unit_) in
      (if scaled <? 0 then "-" else "")
      +:+ pretty (Z.abs scaled `div` unit_) +:+ "."
      +:+ String.concat "" (replicate (n - String.length digits) "0")
      +:+ digits
  end.

(** The first quarter of 2023; in March the irradiation sensor reads a
    third of the baseline. *)
Definition pvsyst_q1 : list Pvsyst.row :=
  [Pvsyst.mk 1 (Fin 1000) (Fin 82) (Fin 150);
   Pvsyst.mk 2 (Fin 1100) (Fin 82) (Fin 160);
   Pvsyst.mk 3 (Fin 1300) (Fin 82) (Fin 180)].

Definition actual_q1 : list Actual.row :=
  [Actual.mk (2023, 1) 2023 1 (Fin 900) (Fin 80) (Fin 140) (Fin 30);
   Actual.mk (2023, 2) 2023 2 (Fin 1000) (Fin 80) (Fin 150) (Fin 31);
   Actual.mk (2023, 3) 2023 3 (Fin 1200) (Fin 80) (Fin 60) (Fin 33)].

(** The analysis of the first quarter, and of the January without measured
    irradiation: one month with a sensor alert. *)
Definition analysis_q1 : list analysis_row * insights_dict :=
  perform_phase2_analysis si_default actual_q1 pvsyst_q1.

Definition analysis_outage : list analysis_row * insights_dict :=
  perform_phase2_analysis si_default actual_outage pvsyst_jan.

(** The narrative of the first quarter when the detector flags every
    month. *)
Definition narrative_q1 : M (list report_line) :=
  generate_conclusion_text_phase2 unit forest_fit forest_predict unit
    trend_fit trend_predict format_fixed analysis_q1.2 analysis_q1.1
    si_default.

Definition lines_of (m : M (list report_line)) : list report_line :=
  match m.2 with inr lines => lines | inl _ => [] end.

(** The long-term forecast of 2022-23 with the trend stand-in, one year
    ahead. *)
Definition forecast_2022_23 : M (option (list LongTerm.row)) :=
  calculate_long_term_forecast unit trend_fit trend_predict table_2022_23
    pvsyst_year si_2022.

(** The analysis table of the ordinary January. *)
Definition table_jan : list analysis_row :=
  (perform_phase2_analysis si_default actual_jan pvsyst_jan).1.

End Fixtures.

(** ** create_yearly_yield_guarantee_data *)

(** The frame returned by create_yearly_yield_guarantee_data. *)
Module Guarantee.
Record row : Type := mk {
  Year : Z;
  Actual_Yearly_Yield_MWh : float;
  Energy_Guarantee_MWh : float;
  Expected_Yearly_Yield_MWh : float;
}.
End Guarantee.

(** [df.groupby('Year')[col].sum() / 1000] with the index reset. *)
Definition yearly_sums (col : analysis_row → float)
    (df : list analysis_row) : list (Z * float) :=
  (λ kv, (kv.1, (kv.2 / c1000)%F))
    <$> groupby_sum ((λ r, (Year r, col r)) <$> df).

(** [Series.min()] and [Series.max()] of a non-empty integer column. *)
Definition series_min (y0 : Z) (ys : list Z) : Z := foldr Z.min y0 ys.
Definition series_max (y0 : Z) (ys : list Z) : Z := foldr Z.max y0 ys.

(** The year range: that of the data or, without data, the commissioning
    year alone. *)
Definition year_bounds (commissioning_year : Z) (years : list Z) : Z * Z :=
  match years with
  | [] => (commissioning_year, commissioning_year)
  | y0 :: ys => (series_min y0 ys, series_max y0 ys)
  end.

Definition create_yearly_yield_guarantee_data (analysis_df : list analysis_row)
    (si : system_info) : exn + list Guarantee.row :=
  match commissioning_year si with
  | None => inl (KeyError "commissioning_year")
  | Some commissioning_year =>
      let annual_guarantee_mwh := default (Fin 0) (energy_guarantee si) in
      let yearly_actual_yields := yearly_sums actual_yield_kwh analysis_df in
      let yearly_expected_yields :=
        yearly_sums expected_yield_kwh analysis_df in
      let bounds := year_bounds commissioning_year yearly_actual_yields.*1 in
      let all_years_df := seqZ bounds.1 (bounds.2 + 1 - bounds.1) in
      let result_df :=
        left_join id fst (λ y (a : Z * float), (y, a.2)) (λ y, (y, NaN))
          all_years_df yearly_actual_yields in
      let result_df :=
        left_join (λ ya : Z * float, ya.1) fst
          (λ ya (e : Z * float), (ya, e.2)) (λ ya, (ya, NaN))
          result_df yearly_expected_yields in
      inr ((λ x : Z * float * float,
              Guarantee.mk x.1.1 x.1.2 annual_guarantee_mwh x.2)
             <$> result_df)
  end.

(** ** validate_pvsyst_baseline *)

(** An entry of the benchmark file; [None] is an absent key. *)
Record benchmark : Type := mk_benchmark {
  avg_annual_ghi : option float;
  avg_specific_yield : option float;
}.

(** Python's [abs] on a float. *)
Definition fabs (x : float) : float :=
  match x with
  | NaN => NaN
  | Inf _ => Inf false
  | Fin q => Fin (Qabs q)
  end.

Definition th_province_path : string := "data/th_province_benchmarks.json".
Definition location_path : string := "data/location_benchmarks.json".

(** [100 - abs(((value - bm) / bm) * 100)] *)
Definition consistency (value bm : float) : float :=
  (c100 - fabs ((value - bm) / bm * c100))%F.

Definition consistency_message (avg_consistency : float)
  : string * string :=
  if (avg_consistency >=? Fin 95)%F then
    ("High Consistency: The baseline aligns well with regional satellite data. Recommended for analysis.",
     "success")
  else if (avg_consistency >=? Fin 90)%F then
    ("Good Consistency: The baseline shows minor deviation but is acceptable for analysis.",
     "warning")
  else
    ("Low Consistency: Significant deviation detected. Results may be unreliable. Please verify the PVsyst report.",
     "error").

Section Validator.

(** The benchmark files: the parsed content of a path, [None] when no such
    file exists. *)
Variable files : string → option (gmap string benchmark).

(** Python's fixed-point formatting, [f"{x:.nf}"]. *)
Variable format_f : nat → float → string.

(** [pvsyst_df] is [None] for Python's [None]; the result is the triple
    (score, message, status). *)
Definition validate_pvsyst_baseline (pvsyst_df : option (list Pvsyst.row))
    (location_key : string) (system_pnom : float)
  : exn + (option string * string * option string) :=
  match pvsyst_df with
  | Some df =>
      if String.prefix "---" location_key then
        inr (None,
             "Please select a project location and upload a PVsyst file.",
             None)
      else
        let benchmark_file_path :=
          match files th_province_path with
          | Some _ => th_province_path
          | None => location_path
          end in
        match files benchmark_file_path with
        | None =>
            inr (None,
                 "Benchmark file '" +:+ benchmark_file_path
                 +:+ "' not found.",
                 Some "error")
        | Some benchmarks =>
            match benchmarks !! location_key with
            | Some (mk_benchmark (Some bm_ghi) bm_yield) =>
                let pvsyst_annual_ghi :=
                  series_sum (Pvsyst.pvsyst_ghi_kwh_m2 <$> df) in
                let pvsyst_annual_yield :=
                  series_sum (Pvsyst.pvsyst_yield_kwh <$> df) in
                if (system_pnom <=? Fin 0)%F then
                  inr (None,
                       "Nominal Power (Pnom) must be greater than zero.",
                       Some "error")
                else
                  let pvsyst_specific_yield :=
                    (pvsyst_annual_yield / system_pnom)%F in
                  let ghi_consistency :=
                    consistency pvsyst_annual_ghi bm_ghi in
                  match bm_yield with
                  | None => inl (KeyError "avg_specific_yield")
                  | Some bm_yield =>
                      let yield_consistency :=
                        consistency pvsyst_specific_yield bm_yield in
                      let avg_consistency :=
                        ((ghi_consistency + yield_consistency) / Fin 2)%F in
                      let ms := consistency_message avg_consistency in
                      inr (Some (format_f 1 avg_consistency +:+ "%"),
                           ms.1, Some ms.2)
                  end
            | _ =>
                inr (None,
                     "Benchmark data not found for '" +:+ location_key
                     +:+ "'.",
                     Some "error")
            end
        end
  | None =>
      inr (None,
           "Please select a project location and upload a PVsyst file.",
           None)
  end.

End Validator.

(** ** Predicates and frames of the further statements *)

(** The columns of the actual frame, read back from a row of the table. *)
Definition actual_of (r : analysis_row) : Actual.row :=
  Actual.mk (Date r) (Year r) (Month r) (actual_yield_kwh r)
    (actual_pr_percent r) (actual_ghi_kwh_m2 r) (ambient_temp_c r).

(** The order of [sort_values(by='Date')] on rows. *)
Definition date_order (r1 r2 : analysis_row) : Prop :=
  date_le (Date r1) (Date r2).

(** The rational value of a finite float. *)
Definition to_Q (x : float) : Q :=
  match x with Fin q => q | _ => 0%Q end.

(** The frame of a long-term forecast that produced one. *)
Definition long_term_frame (m : M (option (list LongTerm.row)))
  : list LongTerm.row :=
  match m.2 with inr (Some df) => df | _ => [] end.

(** The warning of calculate_long_term_forecast. *)
Definition long_term_warning : string :=
  "Long-term forecast requires at least one full year (12 months) of historical data.".

(** The complete year of the 2022-23 table, and its forecast without a
    commissioning year. *)
Definition full_2022 : list analysis_row :=
  default [] (_get_full_years_df Fixtures.table_2022_23).

Definition forecast_missing_year : M (option (list LongTerm.row)) :=
  calculate_long_term_forecast unit Fixtures.trend_fit Fixtures.trend_predict
    Fixtures.table_2022_23 Fixtures.pvsyst_year Fixtures.si_default.

(** The narrative of the ordinary January, one record. *)
Definition narrative_jan : M (list report_line) :=
  generate_conclusion_text_phase2 unit Fixtures.forest_fit
    Fixtures.forest_predict unit Fixtures.trend_fit Fixtures.trend_predict
    Fixtures.format_fixed
    (perform_phase2_analysis Fixtures.si_default Fixtures.actual_jan
       Fixtures.pvsyst_jan).2
    Fixtures.table_jan Fixtures.si_default.

(** The relative deviation of a value from its benchmark, in percent. *)
Definition deviation_pct (value bm : Q) : Q :=
  Qabs ((value - bm) / bm * 100).

(** The yearly total of a finite column. *)
Definition annual_total (col : Pvsyst.row → float) (df : list Pvsyst.row)
  : Q :=
  foldr Qplus 0%Q (to_Q <$> (col <$> df)).

(** A benchmark file with one location, and a baseline that matches it. *)
Definition benchmarks_bangkok : gmap string benchmark :=
  {[ "Bangkok" := mk_benchmark (Some (Fin 1800)) (Some (Fin 1400)) ]}.

Definition files_location (path : string) : option (gmap string benchmark) :=
  if decide (path = location_path) then Some benchmarks_bangkok else None.

Definition benchmarks_zero : gmap string benchmark :=
  {[ "Bangkok" := mk_benchmark (Some (Fin 0)) (Some (Fin 1400)) ]}.

Definition files_zero (path : string) : option (gmap string benchmark) :=
  if decide (path = th_province_path) then Some benchmarks_zero else None.

(** ** Facts about the value model *)

Module FloatFacts.

Lemma same_refl x : (x ~= x)%F.
Proof. destruct x; simpl; [done | done | apply Qeq_refl]. Qed.

Lemma same_sym x y : (x ~= y)%F → (y ~= x)%F.
Proof. destruct x, y; simpl; first [done | apply Qeq_sym]. Qed.

Lemma same_trans x y z : (x ~= y)%F → (y ~= z)%F → (x ~= z)%F.
Proof.
  destruct x, y, z; simpl; first [done | congruence | apply Qeq_trans].
Qed.

Lemma Qzero_false q : ¬ (q == 0)%Q → F.Qzero q = false.
Proof.
  intros Hq. unfold F.Qzero. destruct (Qeq_bool q 0) eqn:E; [| done].
  apply Qeq_bool_iff in E. contradiction.
Qed.

(** Subtraction is antisymmetric as a value, NaN included. *)
Lemma sub_antisym x y : (x - y ~= - (y - x))%F.
Proof.
  destruct x as [|[]|p], y as [|[]|q]; simpl; try done. lra.
Qed.

Lemma eqb_of_same x y : F.isnan x = false → (x ~= y)%F → (x =? y)%F = true.
Proof.
  destruct x as [|a|p], y as [|b|q]; simpl; try done.
  - intros _ ->. unfold F.eqb; simpl. by rewrite eqb_reflx.
  - intros _ H. unfold F.eqb; simpl.
    apply Qeq_alt in H. by rewrite H.
Qed.

Lemma gtb_fin p q : (Fin p >? Fin q)%F = true ↔ (q < p)%Q.
Proof.
  unfold F.gtb; simpl. rewrite Qgt_alt.
  destruct (p ?= q)%Q; split; (done || discriminate).
Qed.

Lemma gtb_fin_false p q : (Fin p >? Fin q)%F = false ↔ (p <= q)%Q.
Proof.
  unfold F.gtb; simpl. rewrite Qle_alt.
  destruct (p ?= q)%Q; split; (done || discriminate || congruence).
Qed.

Lemma geb_fin p q : (Fin p >=? Fin q)%F = true ↔ (q <= p)%Q.
Proof.
  unfold F.geb, F.leb; simpl. rewrite Qle_alt.
  destruct (q ?= p)%Q; split; (done || discriminate || congruence).
Qed.

(** The floor of line 44 on a finite sum. *)
Lemma pymax_floor_fin s :
  ∃ e, pymax (Fin s) expected_floor = Fin e ∧ (1 # 100 <= e)%Q
       ∧ ((1 # 100 <= s)%Q → e = s).
Proof.
  unfold pymax, expected_floor.
  destruct (Fin (1 # 100) >? Fin s)%F eqn:E.
  - apply gtb_fin in E. exists (1 # 100)%Q. split; [done |].
    split; [lra | intros; lra].
  - apply gtb_fin_false in E. exists s. done.
Qed.

(** What the sanitising of a ratio leaves: a finite value. *)
Lemma fillna_replace_inf_finite p q :
  F.isfinite (fillna (Fin 0) (replace_inf (Fin p / Fin q)%F)) = true.
Proof.
  simpl. destruct (F.Qzero q); [destruct (F.Qzero p) |]; done.
Qed.

Lemma fillna_scaled_finite p q :
  F.isfinite (fillna (Fin 0) (replace_inf (Fin p / Fin q) * c100)%F) = true.
Proof.
  simpl. destruct (F.Qzero q); [destruct (F.Qzero p) |]; done.
Qed.

End FloatFacts.

(** ** Left joins *)

(** A row of a left join comes from a left row and either a right row with
    its key or, no right row having its key, the missing columns. *)
Lemma left_join_elem {A B C} (kl : A → Z) (kr : B → Z) (f : A → B → C)
    (g : A → C) (l : list A) (r : list B) (c : C) :
  c ∈ left_join kl kr f g l r →
  ∃ a, a ∈ l
       ∧ ((∃ b, b ∈ r ∧ kr b = kl a ∧ c = f a b)
          ∨ ((∀ b, b ∈ r → kr b ≠ kl a) ∧ c = g a)).
Proof.
  unfold left_join. rewrite list_elem_of_bind.
  intros (a & Hc & Ha). exists a. split; [done |].
  destruct (filter _ r) as [|b0 bs] eqn:E.
  - apply list_elem_of_singleton in Hc as ->. right. split; [| done].
    intros b Hb Heq.
    assert (b ∈ filter (λ b, kr b = kl a) r) as Hin
      by (apply list_elem_of_filter; done).
    rewrite E in Hin. by apply elem_of_nil in Hin.
  - apply list_elem_of_fmap in Hc as (b & -> & Hb). left. exists b.
    rewrite <- E in Hb. apply list_elem_of_filter in Hb as [Hkey Hb]. done.
Qed.

(** ** The yield model (perform_phase2_analysis, lines 23-49) *)

Section YieldModelFacts.

Variable si : system_info.
Implicit Types (m : Merged.row) (r : analysis_row).

(** A property of every enriched row is a property of every row of the
    returned table: sorting permutes the rows. *)
Lemma table_Forall (P : analysis_row → Prop) actual_df pvsyst_df :
  Forall P (enrich_row si <$> merge_left actual_df pvsyst_df) →
  Forall P (perform_phase2_analysis si actual_df pvsyst_df).1.
Proof.
  intros H. simpl. unfold sort_by_date.
  by rewrite merge_sort_Permutation.
Qed.

Lemma table_Forall_all (P : analysis_row → Prop) actual_df pvsyst_df :
  (∀ m, P (enrich_row si m)) →
  Forall P (perform_phase2_analysis si actual_df pvsyst_df).1.
Proof.
  intros H. apply table_Forall, Forall_fmap, Forall_forall.
  intros m _. apply H.
Qed.

(** The rows of the left join: the actual row is one of the input, and the
    baseline columns are those of a baseline row of the same month, or
    all missing when the baseline has no such row. *)
Lemma merge_left_elem actual_df pvsyst_df m :
  m ∈ merge_left actual_df pvsyst_df →
  Merged.actual m ∈ actual_df
  ∧ ((∃ p, p ∈ pvsyst_df
           ∧ Pvsyst.Month p = Actual.Month (Merged.actual m)
           ∧ Merged.pvsyst_yield_kwh m = Pvsyst.pvsyst_yield_kwh p
           ∧ Merged.pvsyst_pr_percent m = Pvsyst.pvsyst_pr_percent p
           ∧ Merged.pvsyst_ghi_kwh_m2 m = Pvsyst.pvsyst_ghi_kwh_m2 p)
     ∨ ((∀ p, p ∈ pvsyst_df →
              Pvsyst.Month p ≠ Actual.Month (Merged.actual m))
        ∧ Merged.pvsyst_yield_kwh m = NaN
        ∧ Merged.pvsyst_pr_percent m = NaN
        ∧ Merged.pvsyst_ghi_kwh_m2 m = NaN)).
Proof.
  unfold merge_left. intros (a & Ha & Hcase)%left_join_elem.
  destruct Hcase as [(p & Hp & Hkey & ->) | (Hnone & ->)]; simpl.
  - split; [done |]. left. by exists p.
  - split; [done |]. by right.
Qed.

End YieldModelFacts.

(** C1, as the code has it.  In every row of the analysis table the expected
    yield is Python's max of ideal yield plus temperature loss and the floor
    0.01, so it is that sum whenever the floor does not exceed it; other
    losses are expected minus actual yield; the yield variance is actual
    minus expected yield, the same value as minus the other losses, and
    equal to it under Python's == whenever it is not NaN. *)
Theorem accounting_identity_floored si actual_df pvsyst_df :
  Forall (λ r,
    expected_yield_kwh r
      = pymax (ideal_yield_kwh r + temp_loss_kwh r)%F expected_floor
    ∧ ((expected_floor >? ideal_yield_kwh r + temp_loss_kwh r)%F = false →
       expected_yield_kwh r = (ideal_yield_kwh r + temp_loss_kwh r)%F)
    ∧ other_losses_kwh r = (expected_yield_kwh r - actual_yield_kwh r)%F
    ∧ yield_variance_kwh r = (actual_yield_kwh r - expected_yield_kwh r)%F
    ∧ (yield_variance_kwh r ~= - other_losses_kwh r)%F
    ∧ (F.isnan (yield_variance_kwh r) = false →
       (yield_variance_kwh r =? - other_losses_kwh r)%F = true))
  (perform_phase2_analysis si actual_df pvsyst_df).1.
Proof.
  apply table_Forall_all. intros m. simpl.
  split; [done |]. split.
  { unfold pymax. by intros ->. }
  split; [done |]. split; [done |].
  split; [apply FloatFacts.sub_antisym |].
  intros Hnan. apply FloatFacts.eqb_of_same; [done |].
  apply FloatFacts.sub_antisym.
Qed.

(** C1 as stated fails: a January with no measured irradiation has ideal
    yield 0 and temperature loss 0, and an expected yield of 0.01; with a
    negative irradiation reading the two sides are 100.01 kWh apart. *)
Lemma accounting_identity_counterexample :
  (∃ r, r ∈ (perform_phase2_analysis Fixtures.si_default
               Fixtures.actual_outage Fixtures.pvsyst_jan).1
        ∧ (ideal_yield_kwh r + temp_loss_kwh r ~= Fin 0)%F
        ∧ (expected_yield_kwh r ~= Fin (1 # 100))%F
        ∧ (expected_yield_kwh r =? ideal_yield_kwh r + temp_loss_kwh r)%F
          = false)
  ∧ (∃ r, r ∈ (perform_phase2_analysis Fixtures.si_default
                 Fixtures.actual_negative_ghi Fixtures.pvsyst_jan).1
          ∧ (ideal_yield_kwh r + temp_loss_kwh r ~= Fin (-100))%F
          ∧ (expected_yield_kwh r ~= Fin (1 # 100))%F).
Proof.
  split; eexists; (split; [apply list_elem_of_here |]); by vm_compute.
Qed.

(** On a sum that is not NaN, Python's max gives the same value whichever
    argument comes first. *)
Lemma pymax_comm_notnan s :
  F.isnan s = false →
  (pymax s expected_floor ~= pymax expected_floor s)%F
  ∧ (pymax s expected_floor >=? expected_floor)%F = true.
Proof.
  destruct s as [|[]|q]; [done | done | done |]. intros _.
  unfold pymax, expected_floor.
  destruct (Fin (1 # 100) >? Fin q)%F eqn:E1;
    destruct (Fin q >? Fin (1 # 100))%F eqn:E2;
    repeat match goal with
      | H : (Fin _ >? Fin _)%F = true |- _ => apply FloatFacts.gtb_fin in H
      | H : (Fin _ >? Fin _)%F = false |- _ =>
          apply FloatFacts.gtb_fin_false in H
      end;
    rewrite FloatFacts.geb_fin; simpl; split; lra.
Qed.

(** C4, as the code has it.  In every row of the analysis table the expected
    yield is Python's max(s, 0.01) of the sum s of ideal yield and
    temperature loss: when s is not NaN it has the value of max(0.01, s) and
    is at least 0.01; when s is NaN (a missing baseline month, a NaN input)
    the expected yield is NaN. *)
Theorem expected_yield_floor si actual_df pvsyst_df :
  Forall (λ r,
    let s := (ideal_yield_kwh r + temp_loss_kwh r)%F in
    expected_yield_kwh r = pymax s expected_floor
    ∧ (F.isnan s = false →
       (expected_yield_kwh r ~= pymax expected_floor s)%F
       ∧ (expected_yield_kwh r >=? expected_floor)%F = true)
    ∧ (F.isnan s = true → expected_yield_kwh r = NaN))
  (perform_phase2_analysis si actual_df pvsyst_df).1.
Proof.
  apply table_Forall_all. intros m. simpl.
  split; [done |]. split; [apply pymax_comm_notnan |].
  intros Hnan. by destruct (_ + _)%F.
Qed.

(** C4 as stated fails: for a month that the baseline lacks, the sum of ideal
    yield and temperature loss is NaN and so is the expected yield; it is not
    at least 0.01, and it is not max(0.01, NaN) = 0.01. *)
Lemma expected_yield_floor_counterexample :
  ∃ r, r ∈ (perform_phase2_analysis Fixtures.si_default
              Fixtures.actual_feb Fixtures.pvsyst_jan).1
       ∧ expected_yield_kwh r = NaN
       ∧ (expected_yield_kwh r >=? expected_floor)%F = false
       ∧ pymax expected_floor (ideal_yield_kwh r + temp_loss_kwh r)%F
         = expected_floor.
Proof.
  eexists. split; [apply list_elem_of_here |]. by vm_compute.
Qed.

Lemma cfg_temp_coeff_finite si :
  finite_config si = true → ∃ c, cfg_temp_coeff si = Fin c.
Proof.
  unfold finite_config, cfg_temp_coeff.
  destruct (temp_coeff si) as [[| |c]|]; simpl; try done; eauto.
Qed.

(** The derived columns of a row whose inputs are finite. *)
Lemma enrich_row_finite si a y pr g :
  finite_config si = true → finite_actual a = true →
  derived_finite (enrich_row si (Merged.mk a (Fin y) pr (Fin g))) = true.
Proof.
  intros [c Hc]%cfg_temp_coeff_finite.
  unfold finite_actual, derived_finite, enrich_row, ghi_ratio.
  rewrite Hc. clear Hc.
  destruct a as [d yr mo ay apr ag at_]. simpl.
  destruct ay as [| |ay]; [done | done |].
  destruct ag as [| |ag]; [done | done |].
  destruct at_ as [| |t]; [done | done |]. intros _.
  pose proof (FloatFacts.fillna_scaled_finite ag g) as H1.
  pose proof (FloatFacts.fillna_replace_inf_finite ag g) as H2.
  destruct (fillna (Fin 0) (replace_inf (Fin ag / Fin g) * c100)%F)
    as [| |irr]; [done | done |].
  destruct (fillna (Fin 0) (replace_inf (Fin ag / Fin g))%F)
    as [| |ratio]; [done | done |].
  simpl.
  match goal with
  | |- context [pymax (Fin ?s) expected_floor] =>
      destruct (FloatFacts.pymax_floor_fin s) as (e & -> & He & _)
  end.
  simpl. rewrite !FloatFacts.Qzero_false by lra. by simpl.
Qed.

Lemma forallb_elem_of {A} (f : A → bool) (l : list A) x :
  forallb f l = true → x ∈ l → f x = true.
Proof.
  intros H Hx. rewrite forallb_forall in H. by apply H, list_elem_of_In.
Qed.







(** ** The left join never raises (line 23) *)

Lemma left_join_app {A B C} (kl : A → Z) (kr : B → Z) (f : A → B → C)
    (g : A → C) (l1 l2 : list A) (r : list B) :
  left_join kl kr f g (l1 ++ l2) r
  = left_join kl kr f g l1 r ++ left_join kl kr f g l2 r.
Proof. unfold left_join. apply bind_app. Qed.

Lemma left_join_unmatched {A B C} (kl : A → Z) (kr : B → Z) (f : A → B → C)
    (g : A → C) (a : A) (r : list B) :
  Forall (λ b, kr b ≠ kl a) r → left_join kl kr f g [a] r = [g a].
Proof.
  intros H. unfold left_join. simpl.
  replace (filter (λ b, kr b = kl a) r) with (@nil B); [done |].
  symmetry. induction H as [|b r Hb _ IH]; [done |].
  by rewrite filter_cons_False.
Qed.

(** C3, as the code has it.  The join is a left join and does not fail: an
    actual record whose month has no baseline entry yields, at its place,
    one joined record with its own fields and missing (NaN) baseline
    fields, and that record is enriched into a row of the analysis table. *)
Theorem join_keeps_unmatched_month si l1 a l2 pvsyst_df :
  Forall (λ p, Pvsyst.Month p ≠ Actual.Month a) pvsyst_df →
  merge_left (l1 ++ a :: l2) pvsyst_df
  = merge_left l1 pvsyst_df ++ Merged.mk a NaN NaN NaN
      :: merge_left l2 pvsyst_df
  ∧ enrich_row si (Merged.mk a NaN NaN NaN)
    ∈ (perform_phase2_analysis si (l1 ++ a :: l2) pvsyst_df).1.
Proof.
  intros H.
  assert (merge_left (l1 ++ a :: l2) pvsyst_df
          = merge_left l1 pvsyst_df ++ Merged.mk a NaN NaN NaN
              :: merge_left l2 pvsyst_df) as E.
  { unfold merge_left. rewrite (left_join_app _ _ _ _ l1 (a :: l2)).
    change (a :: l2) with ([a] ++ l2). rewrite left_join_app.
    by rewrite left_join_unmatched. }
  split; [done |]. simpl. unfold sort_by_date.
  rewrite merge_sort_Permutation, E, fmap_app, fmap_cons.
  apply elem_of_app. right. apply list_elem_of_here.
Qed.

Lemma join_keeps_unmatched_month_witness :
  merge_left ([] ++ Actual.mk (2023, 2) 2023 2 (Fin 900) (Fin 80) (Fin 140)
                      (Fin 30) :: []) Fixtures.pvsyst_jan
  = merge_left [] Fixtures.pvsyst_jan
    ++ Merged.mk (Actual.mk (2023, 2) 2023 2 (Fin 900) (Fin 80) (Fin 140)
                    (Fin 30)) NaN NaN NaN
       :: merge_left [] Fixtures.pvsyst_jan
  ∧ enrich_row Fixtures.si_default
      (Merged.mk (Actual.mk (2023, 2) 2023 2 (Fin 900) (Fin 80) (Fin 140)
                    (Fin 30)) NaN NaN NaN)
    ∈ (perform_phase2_analysis Fixtures.si_default
         ([] ++ Actual.mk (2023, 2) 2023 2 (Fin 900) (Fin 80) (Fin 140)
                  (Fin 30) :: []) Fixtures.pvsyst_jan).1.
Proof.
  apply (join_keeps_unmatched_month Fixtures.si_default []
           (Actual.mk (2023, 2) 2023 2 (Fin 900) (Fin 80) (Fin 140) (Fin 30))
           [] Fixtures.pvsyst_jan).
  repeat constructor. simpl. lia.
Defined.

(** C3 as stated fails: February has no entry in a January-only baseline,
    and the join returns a joined record for it; the analysis returns a
    table with that month. *)
Lemma join_missing_month_counterexample :
  merge_left Fixtures.actual_feb Fixtures.pvsyst_jan
  = [Merged.mk (Actual.mk (2023, 2) 2023 2 (Fin 900) (Fin 80) (Fin 140)
                  (Fin 30)) NaN NaN NaN]
  ∧ length (perform_phase2_analysis Fixtures.si_default Fixtures.actual_feb
              Fixtures.pvsyst_jan).1 = 1%nat
  ∧ Month <$> (perform_phase2_analysis Fixtures.si_default
                 Fixtures.actual_feb Fixtures.pvsyst_jan).1 = [2].
Proof. by vm_compute. Qed.

(** ** Sums of columns *)

Module SumFacts.
Import FloatFacts.

Global Instance same_equivalence : Equivalence F.same.
Proof.
  split; [intros x; apply same_refl | intros x y; apply same_sym
         | intros x y z; apply same_trans].
Qed.

Lemma Qzero_proper p q : (p == q)%Q → F.Qzero p = F.Qzero q.
Proof.
  intros H. unfold F.Qzero.
  destruct (Qeq_bool p 0) eqn:E1, (Qeq_bool q 0) eqn:E2; try done.
  - apply Qeq_bool_iff in E1. apply Qeq_bool_neq in E2. lra.
  - apply Qeq_bool_iff in E2. apply Qeq_bool_neq in E1. lra.
Qed.

Lemma Qneg_proper p q : (p == q)%Q → F.Qneg p = F.Qneg q.
Proof.
  intros H. unfold F.Qneg. f_equal.
  destruct (Qle_bool 0 p) eqn:E1, (Qle_bool 0 q) eqn:E2; try done.
  - apply Qle_bool_iff in E1.
    assert (¬ (0 <= q)%Q) by (rewrite <- Qle_bool_iff; congruence). lra.
  - apply Qle_bool_iff in E2.
    assert (¬ (0 <= p)%Q) by (rewrite <- Qle_bool_iff; congruence). lra.
Qed.

Global Instance add_proper : Proper (F.same ==> F.same ==> F.same) F.add.
Proof.
  intros [|a|p] [|a'|p'] H1 [|b|q] [|b'|q'] H2; simpl in *;
    try done; subst; try done. lra.
Qed.

Global Instance neg_proper : Proper (F.same ==> F.same) F.neg.
Proof.
  intros [|a|p] [|a'|p'] H1; simpl in *; try done; subst; try done. lra.
Qed.

Global Instance mul_proper : Proper (F.same ==> F.same ==> F.same) F.mul.
Proof.
  intros [|a|p] [|a'|p'] H1 [|b|q] [|b'|q'] H2; simpl in *;
    try done; subst; try done.
  - rewrite (Qzero_proper q q'), (Qneg_proper q q') by done.
    by destruct (F.Qzero q').
  - rewrite (Qzero_proper p p'), (Qneg_proper p p') by done.
    by destruct (F.Qzero p').
  - by rewrite H1, H2.
Qed.

Global Instance div_proper : Proper (F.same ==> F.same ==> F.same) F.div.
Proof.
  intros [|a|p] [|a'|p'] H1 [|b|q] [|b'|q'] H2; simpl in *;
    try done; subst; try done.
  - by rewrite (Qneg_proper q q').
  - rewrite (Qzero_proper q q'), (Qzero_proper p p'),
      (Qneg_proper p p') by done.
    destruct (F.Qzero q') eqn:E; [by destruct (F.Qzero p') |].
    simpl. rewrite H1, H2. reflexivity.
Qed.

Lemma compare_proper x x' y y' :
  (x ~= x')%F → (y ~= y')%F → F.compare x y = F.compare x' y'.
Proof.
  destruct x as [|a|p], x' as [|a'|p'], y as [|b|q], y' as [|b'|q'];
    simpl; try done; intros H1 H2; subst; try done.
  by rewrite H1, H2.
Qed.

Global Instance add_comm : Comm F.same F.add.
Proof.
  intros [|[]|p] [|[]|q]; simpl; try done. lra.
Qed.

Global Instance add_assoc : Assoc F.same F.add.
Proof.
  intros [|[]|p] [|[]|q] [|[]|r]; simpl; try done. lra.
Qed.

Lemma mul_comm x y : (x * y ~= y * x)%F.
Proof.
  destruct x as [|[]|p], y as [|[]|q]; simpl; try done;
    try (destruct (F.Qzero _); [done | by destruct (F.Qneg _)]).
  apply Qmult_comm.
Qed.

(** A column and a reordering of it have the same sum. *)
Lemma series_sum_Permutation l1 l2 :
  l1 ≡ₚ l2 → (series_sum l1 ~= series_sum l2)%F.
Proof.
  intros H. unfold series_sum.
  apply (foldr_permutation_proper' F.same F.add (Fin 0)).
  by apply filter_Permutation.
Qed.

Lemma series_sum_nonneg l :
  Forall (λ x, F.isnan x = false → nonneg x) l → nonneg (series_sum l).
Proof.
  unfold series_sum. induction 1 as [|x l Hx _ IH]; simpl; [lra |].
  rewrite filter_cons. destruct (decide (F.isnan x = false)) as [Hn|Hn].
  - specialize (Hx Hn). simpl.
    destruct x as [|[]|p], (foldr F.add (Fin 0) _) as [|[]|q];
      simpl in *; try done. lra.
  - done.
Qed.

Lemma nonneg_gtb0 x :
  nonneg x → (x >? Fin 0)%F = negb (x =? Fin 0)%F.
Proof.
  destruct x as [|[]|q]; simpl; try done. intros H.
  unfold F.gtb, F.eqb. simpl.
  destruct (q ?= 0)%Q eqn:E; try done.
  apply Qlt_alt in E. lra.
Qed.

Lemma eqb_proper x x' y y' :
  (x ~= x')%F → (y ~= y')%F → (x =? y)%F = (x' =? y')%F.
Proof.
  intros H1 H2. unfold F.eqb. by rewrite (compare_proper x x' y y').
Qed.

End SumFacts.

(** ** The insights dictionary (lines 51-64) *)

Section Insights.
Import FloatFacts SumFacts.

Variable si : system_info.

(** An expected yield is NaN, +inf or at least the floor. *)
Lemma expected_nonneg m :
  F.isnan (expected_yield_kwh (enrich_row si m)) = false →
  nonneg (expected_yield_kwh (enrich_row si m)).
Proof.
  simpl. remember (_ + _)%F as s eqn:Hs. clear Hs.
  destruct s as [|[]|q]; unfold pymax, expected_floor; try done.
  intros _. destruct (Fin (1 # 100) >? Fin q)%F eqn:E; simpl.
  - by vm_compute.
  - apply gtb_fin_false in E. lra.
Qed.

Lemma sum_expected_nonneg ms :
  nonneg (series_sum (expected_yield_kwh <$> (enrich_row si <$> ms))).
Proof.
  apply series_sum_nonneg, Forall_fmap, Forall_fmap, Forall_forall.
  intros m _ H. by apply expected_nonneg.
Qed.

Lemma table_column_sum (col : analysis_row → float) actual_df pvsyst_df :
  (series_sum (col <$> (perform_phase2_analysis si actual_df pvsyst_df).1)
   ~= series_sum (col <$> (enrich_row si <$> merge_left actual_df pvsyst_df)))%F.
Proof.
  apply series_sum_Permutation, fmap_Permutation.
  simpl. unfold sort_by_date. apply merge_sort_Permutation.
Qed.

End Insights.

(** Two months of equal actual yield, expected yields of 100 and 1000 kWh:
    the average index of the insights is 200/11 %, the mean of the monthly
    indices is 55 %. *)
Lemma weighted_pi_is_not_the_mean :
  let ex := perform_phase2_analysis Fixtures.si_default
              Fixtures.actual_even Fixtures.pvsyst_uneven in
  ∃ v, ex.2 !! "Average PI (%)" = Some v
       ∧ (v ~= Fin (200 # 11))%F
       ∧ (series_mean (pi_pct <$> ex.1) ~= Fin 55)%F.
Proof.
  intros ex. eexists. split; [vm_compute; reflexivity |].
  vm_compute. done.
Qed.

(** A NaN-skipping sum is the sum over all records when none is NaN. *)
Lemma series_sum_all (l : list float) :
  Forall (λ x, F.isnan x = false) l → series_sum l = sum_all l.
Proof.
  intros H. unfold series_sum, sum_all. f_equal.
  induction H as [|x l Hx _ IH]; [done |].
  by rewrite filter_cons_True, IH.
Qed.

Lemma row_weighted_index si m :
  F.isfinite (actual_yield_kwh (enrich_row si m)) = true
  ∧ F.isfinite (expected_yield_kwh (enrich_row si m)) = true →
  weighs (enrich_row si m).
Proof.
  intros [Ha He]. unfold weighs.
  change (pi_pct (enrich_row si m))
    with (actual_yield_kwh (enrich_row si m)
          / expected_yield_kwh (enrich_row si m) * c100)%F.
  assert (∀ e, expected_yield_kwh (enrich_row si m) = Fin e →
               (1 # 100 <= e)%Q) as Hfloor.
  { intros e. simpl. remember (_ + _)%F as s eqn:Hs. clear Hs.
    unfold pymax, expected_floor.
    destruct s as [|[]|q]; simpl; try done.
    - intros [= <-]. lra.
    - destruct (Fin (1 # 100) >? Fin q)%F eqn:E; intros [= <-]; [lra |].
      by apply FloatFacts.gtb_fin_false in E. }
  destruct (actual_yield_kwh (enrich_row si m)) as [| |a]; [done | done |].
  destruct (expected_yield_kwh (enrich_row si m)) as [| |e]; [done | done |].
  specialize (Hfloor e eq_refl).
  exists a, e, (e * (a / e * 100))%Q. split; [done |]. split; [done |].
  split.
  - simpl. rewrite FloatFacts.Qzero_false by lra. reflexivity.
  - split; [done |]. field. lra.
Qed.

Lemma weighted_sums (l : list analysis_row) :
  Forall weighs l →
  ∃ A E W,
    sum_all (actual_yield_kwh <$> l) = Fin A
    ∧ sum_all (expected_yield_kwh <$> l) = Fin E
    ∧ sum_all ((λ r, expected_yield_kwh r * pi_pct r)%F <$> l) = Fin W
    ∧ (W == 100 * A)%Q ∧ (0 <= E)%Q ∧ (l ≠ [] → 0 < E)%Q.
Proof.
  induction 1 as [|r l (a & e & w & Ha & He & Hw & Hfloor & Hwa) _
                    (A & E & W & HA & HE & HW & HWA & HE0 & _)].
  - exists 0%Q, 0%Q, 0%Q. repeat split; try done; lra.
  - exists (a + A)%Q, (e + E)%Q, (w + W)%Q. unfold sum_all in *.
    rewrite !fmap_cons. cbn [foldr]. rewrite Hw, Ha, He, HA, HE, HW.
    split; [done |]. split; [done |]. split; [done |].
    split; [lra |]. split; [lra |]. intros _. lra.
Qed.

(** C5, as the code has it.  The insights of an analysis run hold, for the
    total actual yield, the NaN-skipping sum of the actual yields of the
    returned table divided by 1000, and for the average performance index
    100 times the NaN-skipping sum of the actual yields over the
    NaN-skipping sum of the expected yields, 0 when that denominator is 0.
    When no actual and no expected yield of the table is NaN, both are sums
    over all records; when they are finite, the index is the average of the
    monthly indices weighted by the expected yields.  It is not the mean of
    the monthly indices: on two months of equal actual yield and expected
    yields of 100 and 1000 kWh the two differ. *)
Theorem insights_totals_and_weighted_pi si actual_df pvsyst_df :
  let res := perform_phase2_analysis si actual_df pvsyst_df in
  let actual := actual_yield_kwh <$> res.1 in
  let expected := expected_yield_kwh <$> res.1 in
  (∃ v, res.2 !! "Total Actual Yield (MWh)" = Some v
        ∧ (v ~= series_sum actual / c1000)%F)
  ∧ (∃ v, res.2 !! "Average PI (%)" = Some v
          ∧ (v ~= if (series_sum expected =? Fin 0)%F then Fin 0
                  else c100 * (series_sum actual / series_sum expected))%F)
  ∧ (Forall (λ r, F.isnan (actual_yield_kwh r) = false
                  ∧ F.isnan (expected_yield_kwh r) = false) res.1 →
     (∃ v, res.2 !! "Total Actual Yield (MWh)" = Some v
           ∧ (v ~= sum_all actual / c1000)%F)
     ∧ (∃ v, res.2 !! "Average PI (%)" = Some v
             ∧ (v ~= if (sum_all expected =? Fin 0)%F then Fin 0
                     else c100 * (sum_all actual / sum_all expected))%F))
  ∧ (Forall (λ r, F.isfinite (actual_yield_kwh r) = true
                  ∧ F.isfinite (expected_yield_kwh r) = true) res.1 →
     res.1 ≠ [] →
     ∃ v, res.2 !! "Average PI (%)" = Some v
          ∧ (v ~= sum_all ((λ r, expected_yield_kwh r * pi_pct r)%F <$> res.1)
                  / sum_all expected)%F)
  ∧ (let ex := perform_phase2_analysis Fixtures.si_default
                 Fixtures.actual_even Fixtures.pvsyst_uneven in
     ∃ v, ex.2 !! "Average PI (%)" = Some v
          ∧ (v ~= Fin (200 # 11))%F
          ∧ (series_mean (pi_pct <$> ex.1) ~= Fin 55)%F).
Proof.
  intros res actual expected.
  pose proof (table_column_sum si actual_yield_kwh actual_df pvsyst_df) as Ha.
  pose proof (table_column_sum si expected_yield_kwh actual_df pvsyst_df)
    as He.
  fold res in Ha, He. fold actual in Ha. fold expected in He.
  assert (∃ v, res.2 !! "Total Actual Yield (MWh)" = Some v
               ∧ (v ~= series_sum actual / c1000)%F) as Htotal.
  { eexists. split.
    - simpl. unfold summarize.
      rewrite !lookup_insert_ne by done. apply lookup_insert_eq.
    - apply SumFacts.div_proper; [by symmetry | reflexivity]. }
  assert (∃ v, res.2 !! "Average PI (%)" = Some v
               ∧ (v ~= if (series_sum expected =? Fin 0)%F then Fin 0
                       else c100 * (series_sum actual / series_sum expected))%F)
    as Hpi.
  { eexists. split.
    - simpl. unfold summarize.
      rewrite !lookup_insert_ne by done. apply lookup_insert_eq.
    - pose proof (sum_expected_nonneg si (merge_left actual_df pvsyst_df))
        as Hnn.
      rewrite (SumFacts.nonneg_gtb0 _ Hnn).
      rewrite (SumFacts.eqb_proper _ (series_sum expected) _ (Fin 0))
        by (by symmetry || reflexivity).
      destruct (series_sum expected =? Fin 0)%F; simpl negb; cbv iota;
        [reflexivity |].
      etransitivity; [apply SumFacts.mul_comm |].
      apply SumFacts.mul_proper; [reflexivity |].
      apply SumFacts.div_proper; by symmetry. }
  assert (Forall (λ r, F.isnan (actual_yield_kwh r) = false
                       ∧ F.isnan (expected_yield_kwh r) = false) res.1 →
          series_sum actual = sum_all actual
          ∧ series_sum expected = sum_all expected) as Hall.
  { intros Hnan. split; apply series_sum_all, Forall_fmap;
      (eapply Forall_impl; [exact Hnan |]); by intros r [? ?]. }
  split; [exact Htotal |]. split; [exact Hpi |].
  split; [| split; [| apply weighted_pi_is_not_the_mean]].
  - intros [<- <-]%Hall. done.
  - intros Hfin Hne.
    destruct Hall as [Hsa Hse].
    { eapply Forall_impl; [exact Hfin |]. intros r [? ?].
      by destruct (actual_yield_kwh r), (expected_yield_kwh r). }
    assert (Forall weighs res.1) as Hw.
    { assert (Forall (λ r, F.isfinite (actual_yield_kwh r) = true
                           ∧ F.isfinite (expected_yield_kwh r) = true
                           → weighs r) res.1) as Himp.
      { apply table_Forall_all. intros m. apply row_weighted_index. }
      rewrite Forall_forall in Himp, Hfin. apply Forall_forall.
      intros r Hr. by apply Himp, Hfin. }
    destruct (weighted_sums _ Hw) as (A & E & W & HA & HE & HW & HWA & _ & HE0).
    specialize (HE0 Hne).
    destruct Hpi as (v & Hv & Hval). exists v. split; [done |].
    rewrite Hsa, Hse in Hval. fold actual expected in HA, HE.
    rewrite HA, HE in Hval. rewrite HW, HE.
    assert ((Fin E =? Fin 0)%F = false) as Hnz.
    { unfold F.eqb. simpl. destruct (E ?= 0)%Q eqn:Ecmp; [| done | done].
      apply Qeq_alt in Ecmp. lra. }
    rewrite Hnz in Hval.
    etransitivity; [exact Hval |]. simpl.
    rewrite !FloatFacts.Qzero_false by lra. simpl. rewrite HWA. field. lra.
Qed.

(** The statement applies to the two months of equal yield: the yields of
    their table are finite, the sums run over both records, and the index
    is the weighted average of the two monthly indices. *)
Lemma insights_totals_and_weighted_pi_witness :
  let ex := perform_phase2_analysis Fixtures.si_default
              Fixtures.actual_even Fixtures.pvsyst_uneven in
  let actual := actual_yield_kwh <$> ex.1 in
  let expected := expected_yield_kwh <$> ex.1 in
  ((∃ v, ex.2 !! "Total Actual Yield (MWh)" = Some v
         ∧ (v ~= sum_all actual / c1000)%F)
   ∧ (∃ v, ex.2 !! "Average PI (%)" = Some v
           ∧ (v ~= if (sum_all expected =? Fin 0)%F then Fin 0
                   else c100 * (sum_all actual / sum_all expected))%F))
  ∧ (∃ v, ex.2 !! "Average PI (%)" = Some v
          ∧ (v ~= sum_all ((λ r, expected_yield_kwh r * pi_pct r)%F <$> ex.1)
                  / sum_all expected)%F).
Proof.
  destruct (insights_totals_and_weighted_pi Fixtures.si_default
              Fixtures.actual_even Fixtures.pvsyst_uneven)
    as (_ & _ & Hall & Hweighted & _).
  split.
  - apply Hall. apply (bool_decide_unpack _). vm_compute. reflexivity.
  - apply Hweighted.
    + apply (bool_decide_unpack _). vm_compute. reflexivity.
    + intros H. vm_compute in H. discriminate.
Defined.

(** C5 as stated fails.  January and February of 900 kWh each against a
    baseline with a January row only: the expected yield of February is
    NaN, so the sum of the expected yields over all records is NaN, and so
    is the ratio of the sums over all records.  The insights skip the NaN
    in the denominator and count February in the numerator: the average
    index is 180 %, twice the 90 % of the only month that has an index. *)
Lemma insights_weighted_pi_counterexample :
  let ex := perform_phase2_analysis Fixtures.si_default
              Fixtures.actual_jan_feb Fixtures.pvsyst_jan in
  let actual := actual_yield_kwh <$> ex.1 in
  let expected := expected_yield_kwh <$> ex.1 in
  length ex.1 = 2%nat
  ∧ sum_all expected = NaN
  ∧ (c100 * (sum_all actual / sum_all expected))%F = NaN
  ∧ (series_sum actual ~= Fin 1800)%F
  ∧ (series_sum expected ~= Fin 1000)%F
  ∧ (∃ v, ex.2 !! "Average PI (%)" = Some v ∧ (v ~= Fin 180)%F)
  ∧ (∃ jan feb, ex.1 = [jan; feb]
                ∧ (pi_pct jan ~= Fin 90)%F ∧ pi_pct feb = NaN).
Proof.
  intros ex actual expected.
  split; [by vm_compute |]. split; [by vm_compute |].
  split; [by vm_compute |]. split; [by vm_compute |].
  split; [by vm_compute |]. split.
  - eexists. split; [vm_compute; reflexivity |]. by vm_compute.
  - eexists _, _. split; [vm_compute; reflexivity |]. by vm_compute.
Qed.

(** ** get_loss_breakdown_data *)

(** C9.  On an empty analysis table the loss breakdown is returned, never an
    exception, whatever the period and with or without insights: the four
    quantities are 0 and the period label is "no data". *)
Theorem loss_breakdown_empty (insights : option insights_dict)
    (period : string) :
  get_loss_breakdown_data [] insights period
  = inr (mk_breakdown (Fin 0) (Fin 0) (Fin 0) (Fin 0) "no data").
Proof. reflexivity. Qed.

(** On a table with rows the period is checked: an unknown period raises. *)
Lemma loss_breakdown_invalid_period (df : list analysis_row) insights period :
  df ≠ [] → period ≠ "overall" → period ≠ "latest_month" →
  get_loss_breakdown_data df insights period
  = inl (ValueError "Invalid period. Must be 'overall' or 'latest_month'.").
Proof.
  intros Hdf H1 H2. unfold get_loss_breakdown_data.
  destruct (last df) as [latest_row|] eqn:E.
  - by rewrite !decide_False.
  - by apply last_None in E.
Qed.

(** ** detect_anomalies_with_ml *)

Section AnomalyFacts.

Context {Forest : Type}.
Variable iforest_fit : list feature → option Forest.
Variable iforest_predict : Forest → feature → Z.

#[local] Abbreviation detect :=
  (detect_anomalies_with_ml Forest iforest_fit iforest_predict).

Lemma detect_small (df : list analysis_row) :
  (length df < 3)%nat →
  detect df = ([], inr ((λ r, mk_flagged r 1) <$> df)).
Proof.
  intros H. unfold detect_anomalies_with_ml.
  destruct (decide _) as [_|Hn]; [done |]. exfalso. apply Hn. by right.
Qed.

Lemma detect_large (df : list analysis_row) :
  (3 ≤ length df)%nat →
  detect df
  = ([IForestFit (features <$> df)],
     match iforest_fit (features <$> df) with
     | Some model =>
         inr ((λ r, mk_flagged r (iforest_predict model (features r)))
                <$> df)
     | None => inl LibraryError
     end).
Proof.
  intros H. unfold detect_anomalies_with_ml.
  destruct (decide _) as [[->|Hn]|_]; [simpl in H; lia | lia |].
  unfold fit_iforest. destruct (iforest_fit _); reflexivity.
Qed.

Lemma fmap_row_flagged (f : analysis_row → Z) (df : list analysis_row) :
  row <$> ((λ r, mk_flagged r (f r)) <$> df) = df.
Proof. rewrite <- list_fmap_compose. apply list_fmap_id. Qed.

End AnomalyFacts.

(** C8.  On fewer than three records the detector is not fitted (no effect
    is performed) and the frame comes back with the flag 1, the value of a
    normal month, on every record: none is selected as anomalous. *)
Theorem detect_fewer_than_three {Forest : Type}
    (iforest_fit : list feature → option Forest)
    (iforest_predict : Forest → feature → Z) (df : list analysis_row) :
  (length df < 3)%nat →
  detect_anomalies_with_ml Forest iforest_fit iforest_predict df
  = ([], inr ((λ r, mk_flagged r 1) <$> df))
  ∧ filter (λ r, is_anomaly r = -1) ((λ r, mk_flagged r 1) <$> df) = [].
Proof.
  intros H. split; [by apply detect_small |].
  induction df as [|r df IH]; [done |].
  rewrite fmap_cons, filter_cons_False by done.
  destruct df as [|r2 df2]; [done |]. apply IH. simpl in *. lia.
Qed.

Lemma detect_fewer_than_three_witness :
  detect_anomalies_with_ml unit Fixtures.forest_fit Fixtures.forest_predict
    Fixtures.table_jan
  = ([], inr ((λ r, mk_flagged r 1) <$> Fixtures.table_jan))
  ∧ filter (λ r, is_anomaly r = -1)
      ((λ r, mk_flagged r 1) <$> Fixtures.table_jan) = [].
Proof.
  apply (detect_fewer_than_three Fixtures.forest_fit Fixtures.forest_predict
           Fixtures.table_jan).
  vm_compute. lia.
Defined.

(** C10.  Whatever the frame, the detector either returns it with the flag
    column added, the records and their columns as they were and in the same
    order, or, on three records or more, the fitting of the library model
    raised. *)
Theorem detect_preserves_records {Forest : Type}
    (iforest_fit : list feature → option Forest)
    (iforest_predict : Forest → feature → Z) (df : list analysis_row) :
  match (detect_anomalies_with_ml Forest iforest_fit iforest_predict df).2
  with
  | inr flagged_df =>
      row <$> flagged_df = df ∧ length flagged_df = length df
  | inl e =>
      e = LibraryError ∧ (3 ≤ length df)%nat
      ∧ iforest_fit (features <$> df) = None
  end.
Proof.
  destruct (decide (length df < 3)%nat) as [H|H].
  - rewrite detect_small by done. simpl.
    by rewrite fmap_row_flagged, length_fmap.
  - rewrite detect_large by lia. simpl.
    destruct (iforest_fit _) as [model|] eqn:E.
    + by rewrite fmap_row_flagged, length_fmap.
    + split; [done |]. split; [lia | done].
Qed.

(** ** The order of strings and [sorted(set(...))] *)

Module StringOrder.

Lemma string_le_iff s t :
  string_le s t ↔ OrderedTypeEx.String_as_OT.lt s t ∨ s = t.
Proof.
  unfold string_le, String.leb.
  destruct (String.compare s t) eqn:E.
  - apply String.compare_eq_iff in E. naive_solver.
  - apply OrderedTypeEx.String_as_OT.cmp_lt in E. naive_solver.
  - split; [done |]. intros [H | ->].
    + apply OrderedTypeEx.String_as_OT.cmp_lt in H.
      unfold OrderedTypeEx.String_as_OT.cmp in H. congruence.
    + assert (String.compare t t = Eq) as H
        by by apply OrderedTypeEx.String_as_OT.cmp_eq.
      congruence.
Qed.

Global Instance string_le_trans : Transitive string_le.
Proof.
  intros s t u. rewrite !string_le_iff.
  intros [H1 | ->] [H2 | ->]; eauto.
  left. by eapply OrderedTypeEx.String_as_OT.lt_trans.
Qed.

Global Instance string_le_total : Total string_le.
Proof. intros s t. apply String.leb_total. Qed.

Global Instance string_le_antisym : AntiSymm eq string_le.
Proof. intros s t. apply String.leb_antisym. Qed.

Lemma sorted_set_sorted l : StronglySorted string_le (sorted_set l).
Proof. apply StronglySorted_merge_sort; apply _. Qed.

Lemma sorted_set_Permutation l : sorted_set l ≡ₚ remove_dups l.
Proof. apply merge_sort_Permutation. Qed.

Lemma sorted_set_NoDup l : NoDup (sorted_set l).
Proof. rewrite sorted_set_Permutation. apply NoDup_remove_dups. Qed.

Lemma elem_of_sorted_set l s : s ∈ sorted_set l ↔ s ∈ l.
Proof. rewrite sorted_set_Permutation. apply elem_of_remove_dups. Qed.

(** The first item of the sorted set is a member that precedes every
    member. *)
Lemma sorted_set_head l s :
  s ∈ l → (∀ t, t ∈ l → string_le s t) → head (sorted_set l) = Some s.
Proof.
  intros Hs Hmin.
  pose proof (sorted_set_sorted l) as Hsorted.
  apply elem_of_sorted_set in Hs.
  destruct (sorted_set l) as [|b bs] eqn:E; [by apply elem_of_nil in Hs |].
  simpl. f_equal.
  apply StronglySorted_inv in Hsorted as [_ Hb].
  assert (b ∈ l) as Hbl.
  { apply elem_of_sorted_set. rewrite E. apply list_elem_of_here. }
  apply elem_of_cons in Hs as [-> | Hs]; [done |].
  apply (anti_symm string_le); [| by apply Hmin].
  rewrite Forall_forall in Hb. by apply Hb.
Qed.

End StringOrder.

(** ** Outcomes of effectful computations *)

Lemma bind_outcome {A B : Type} (m : M A) (k : A → M B) :
  (m ≫= k).2 = match m.2 with inl e => inl e | inr a => (k a).2 end.
Proof. by destruct m as [evs [e|a]]. Qed.

Lemma fit_prophet_outcome {Prophet : Type}
    (prophet_fit : list (date * float) → option Prophet) history :
  (fit_prophet Prophet prophet_fit history).2
  = match prophet_fit history with
    | Some model => inr model
    | None => inl LibraryError
    end.
Proof. unfold fit_prophet. by destruct (prophet_fit history). Qed.

(** The detector returns the frame with its flag column, or the library
    raised. *)
Lemma detect_cases {Forest : Type}
    (iforest_fit : list feature → option Forest)
    (iforest_predict : Forest → feature → Z) (df : list analysis_row) :
  (∃ flagged_df,
      (detect_anomalies_with_ml Forest iforest_fit iforest_predict df).2
      = inr flagged_df
      ∧ row <$> flagged_df = df)
  ∨ (detect_anomalies_with_ml Forest iforest_fit iforest_predict df).2
    = inl LibraryError.
Proof.
  destruct (decide (length df < 3)%nat) as [H|H].
  - left. rewrite detect_small by done. eexists. split; [done |].
    apply fmap_row_flagged.
  - rewrite detect_large by lia. simpl.
    destruct (iforest_fit _) as [model|]; [left | by right].
    eexists. split; [done |]. apply fmap_row_flagged.
Qed.

(** The short-term forecast returns a result or none, or the library
    raised. *)
Lemma short_term_cases {Prophet : Type}
    (prophet_fit : list (date * float) → option Prophet)
    (prophet_predict : Prophet → date → prediction)
    (df : list analysis_row) :
  (∃ fc, (calculate_short_term_forecast Prophet prophet_fit prophet_predict
            df).2 = inr fc)
  ∨ (calculate_short_term_forecast Prophet prophet_fit prophet_predict df).2
    = inl LibraryError.
Proof.
  unfold calculate_short_term_forecast.
  destruct (decide _) as [_|_]; [left; by eexists |].
  rewrite bind_outcome, fit_prophet_outcome.
  destruct (prophet_fit _) as [model|]; [| by right].
  destruct (last _); [left; by eexists | by right].
Qed.

(** ** generate_conclusion_text_phase2 *)

Section NarrativeFacts.
Import StringOrder.

(** The sensor item precedes every anomaly item: "Ins" sorts before
    "Inv". *)
Lemma sensor_before_anomaly r :
  string_le sensor_recommendation (anomaly_recommendation r).
Proof. reflexivity. Qed.

Variable insights : insights_dict.

#[local] Abbreviation alerts :=
  (get0 insights "Sensor Alerts Count" >? Fin 0)%F (only parsing).

Lemma recommendations_section_empty :
  recommendations_section insights []
  = [recommendations_heading; ("body", optimal_line)].
Proof. reflexivity. Qed.

Lemma recommendations_section_items (anomalous : list flagged_row) :
  anomalous ≠ [] →
  let recs := anomaly_recommendation <$> anomalous in
  ∃ bullets,
    recommendations_section insights recs
    = recommendations_heading :: ((λ s, ("bullet", s)) <$> bullets)
    ∧ StronglySorted string_le bullets ∧ NoDup bullets
    ∧ (∀ s, s ∈ bullets ↔
            s ∈ recs ∨ (s = sensor_recommendation ∧ alerts = true))
    ∧ (alerts = true → head bullets = Some sensor_recommendation).
Proof.
  intros Hne recs. unfold recommendations_section.
  destruct recs as [|r0 rs] eqn:E.
  { destruct anomalous; [done | discriminate]. }
  rewrite <- E. fold alerts. clear E r0 rs.
  eexists. split; [reflexivity |].
  split; [apply sorted_set_sorted |]. split; [apply sorted_set_NoDup |].
  split.
  - intros s. rewrite elem_of_sorted_set.
    destruct alerts; [rewrite elem_of_cons |]; intuition congruence.
  - intros Ha. rewrite Ha. apply sorted_set_head.
    + apply list_elem_of_here.
    + intros t [-> | Ht]%elem_of_cons.
      * apply string_le_iff. by right.
      * apply list_elem_of_fmap in Ht as (r & -> & _).
        apply sensor_before_anomaly.
Qed.

End NarrativeFacts.

(** C7, as the code has it.  The narrative is produced unless a library
    model raised or the analysis table is empty, and it ends with the
    recommendations heading and its items.  With no anomalous month the only
    item is the default "performing optimally" line, whatever the sensor
    alert count.  With an anomalous month the items are bullets, sorted and
    without duplicates: one per distinct anomaly recommendation, and the
    sensor-check recommendation exactly when the sensor alert count is
    positive; it is then the first bullet. *)
Theorem narrative_recommendations {Forest Prophet : Type}
    (iforest_fit : list feature → option Forest)
    (iforest_predict : Forest → feature → Z)
    (prophet_fit : list (date * float) → option Prophet)
    (prophet_predict : Prophet → date → prediction)
    (format_f : nat → float → string)
    (insights : insights_dict) (analysis_df : list analysis_row)
    (si : system_info) :
  match (generate_conclusion_text_phase2 Forest iforest_fit iforest_predict
           Prophet prophet_fit prophet_predict format_f insights analysis_df
           si).2
  with
  | inr lines =>
      ∃ flagged_df before items,
        (detect_anomalies_with_ml Forest iforest_fit iforest_predict
           analysis_df).2 = inr flagged_df
        ∧ lines = before ++ recommendations_heading :: items
        ∧ let recs :=
            anomaly_recommendation
              <$> filter (λ r, is_anomaly r = -1) flagged_df in
          let alerts := (get0 insights "Sensor Alerts Count" >? Fin 0)%F in
          (recs = [] → items = [("body", optimal_line)])
          ∧ (recs ≠ [] →
             ∃ bullets,
               items = (λ s, ("bullet", s)) <$> bullets
               ∧ StronglySorted string_le bullets ∧ NoDup bullets
               ∧ (∀ s, s ∈ bullets ↔
                       s ∈ recs
                       ∨ (s = sensor_recommendation ∧ alerts = true))
               ∧ (alerts = true →
                  head bullets = Some sensor_recommendation))
  | inl e => e = LibraryError ∨ (e = KeyError "Year" ∧ analysis_df = [])
  end.
Proof.
  unfold generate_conclusion_text_phase2. rewrite bind_outcome.
  destruct (detect_cases iforest_fit iforest_predict analysis_df)
    as [(flagged_df & Hd & Hrow) | Hd]; rewrite Hd; [| by left].
  rewrite bind_outcome.
  destruct (short_term_cases prophet_fit prophet_predict (row <$> flagged_df))
    as [(fc & Hs) | Hs]; rewrite Hs; [| by left].
  rewrite bind_outcome, Hrow.
  destruct (_get_full_years_df analysis_df) as [full|] eqn:Efull;
    lazy beta iota zeta delta [snd mret M_ret raise].
  2: { right. split; [done |]. by destruct analysis_df. }
  exists flagged_df.
  destruct (filter (λ r, is_anomaly r = -1) flagged_df) as [|r0 rs] eqn:E.
  - rewrite fmap_nil, recommendations_section_empty.
    eexists _, _. split; [done |]. split.
    + rewrite !app_assoc. reflexivity.
    + split; [done |]. by intros Hne.
  - destruct (recommendations_section_items insights (r0 :: rs))
      as (bullets & Hsec & Hsorted & Hnodup & Hmem & Hhead); [done |].
    rewrite Hsec.
    eexists _, _. split; [done |]. split.
    + rewrite !app_assoc. reflexivity.
    + split; [done |]. intros _. by exists bullets.
Qed.

(** What the narrative of the first quarter of 2023 ends with when the
    detector flags every month. *)
Example narrative_q1_items :
  ∃ before,
    Fixtures.narrative_q1.1
    = [IForestFit (features <$> Fixtures.analysis_q1.1)]
    ∧ Fixtures.lines_of Fixtures.narrative_q1
      = before
        ++ [recommendations_heading;
            ("bullet", sensor_recommendation);
            ("bullet", "Investigate Anomaly in February 2023: Review O&M logs and system components.");
            ("bullet", "Investigate Anomaly in January 2023: Review O&M logs and system components.");
            ("bullet", "Investigate Anomaly in March 2023: Review O&M logs and system components.")].
Proof.
  eexists (take 9 (Fixtures.lines_of Fixtures.narrative_q1)).
  by vm_compute.
Qed.

(** C7 as stated fails.  The January without measured irradiation has one
    sensor alert and, being a single record, no anomalous month: whatever
    the library models and the number formatting, the narrative ends with
    the default line and has no sensor-check recommendation. *)
Lemma narrative_sensor_alert_counterexample :
  (get0 Fixtures.analysis_outage.2 "Sensor Alerts Count" >? Fin 0)%F = true
  ∧ ∀ (Forest Prophet : Type)
      (iforest_fit : list feature → option Forest)
      (iforest_predict : Forest → feature → Z)
      (prophet_fit : list (date * float) → option Prophet)
      (prophet_predict : Prophet → date → prediction)
      (format_f : nat → float → string),
    let lines :=
      [("h3", "🤖 AI Performance Assistant Insights");
       ("body", "I've analyzed your PV plant's performance data using the Studio OM V2 analysis engine and machine learning to generate key insights and actionable recommendations.");
       ("h4", "Key Performance Insights");
       ("body", summary_text format_f Fixtures.analysis_outage.2);
       ("h4", "Machine Learning Anomaly Report");
       ("body", "✅ No significant performance anomalies were detected.");
       recommendations_heading;
       ("body", optimal_line)] in
    generate_conclusion_text_phase2 Forest iforest_fit iforest_predict
      Prophet prophet_fit prophet_predict format_f
      Fixtures.analysis_outage.2 Fixtures.analysis_outage.1
      Fixtures.si_default
    = ([], inr lines)
    ∧ ("bullet", sensor_recommendation) ∉ lines.
Proof.
  split; [vm_compute; reflexivity |].
  intros. split; [reflexivity |].
  subst lines. rewrite !not_elem_of_cons. repeat split; try discriminate.
  apply not_elem_of_nil.
Qed.

(** ** calculate_long_term_forecast *)

Lemma groupby_sum_elem (rows : list (Z * float)) k v :
  (k, v) ∈ groupby_sum rows ↔
  k ∈ rows.*1 ∧ v = series_sum (snd <$> filter (λ kv, kv.1 = k) rows).
Proof.
  unfold groupby_sum. rewrite list_elem_of_fmap. split.
  - intros (k' & [= -> ->] & Hk). split; [| done].
    rewrite merge_sort_Permutation in Hk. by apply elem_of_remove_dups.
  - intros [Hk ->]. exists k. split; [done |].
    rewrite merge_sort_Permutation. by apply elem_of_remove_dups.
Qed.

(** The full years of a frame: the years of its rows that have twelve
    distinct months, with all their rows. *)
Lemma full_years_spec (df full : list analysis_row) :
  _get_full_years_df df = Some full →
  (∀ y, y ∈ Year <$> full ↔
        y ∈ Year <$> df ∧ month_count df y = 12%nat)
  ∧ (∀ y, y ∈ Year <$> full →
          filter (λ r, Year r = y) full = filter (λ r, Year r = y) df).
Proof.
  unfold _get_full_years_df. intros H.
  assert (full = filter (λ r, month_count df (Year r) = 12%nat) df) as ->
    by (destruct df; [done | by injection H]).
  clear H. split.
  - intros y. rewrite !list_elem_of_fmap. split.
    + intros (r & -> & [H12 Hr]%list_elem_of_filter). eauto.
    + intros [(r & -> & Hr) H12]. exists r. split; [done |].
      by apply list_elem_of_filter.
  - intros y (r & -> & [H12 Hr]%list_elem_of_filter)%list_elem_of_fmap.
    rewrite list_filter_filter. apply list_filter_iff.
    intros r'. split; [by intros [? ?] |]. intros Hy. split; [done |].
    by rewrite Hy.
Qed.

Lemma filter_year_pairs (full : list analysis_row) k :
  snd <$> filter (λ kv : Z * float, kv.1 = k)
            ((λ r, (Year r, actual_yield_kwh r)) <$> full)
  = actual_yield_kwh <$> filter (λ r, Year r = k) full.
Proof.
  induction full as [|r full IH]; [done |].
  rewrite fmap_cons, !filter_cons. simpl.
  destruct (decide (Year r = k)); [rewrite !fmap_cons; simpl |];
    by rewrite IH.
Qed.

Lemma yearly_actuals_elem (full : list analysis_row) y v :
  (y, v) ∈ yearly_actuals full ↔
  y ∈ Year <$> full
  ∧ v = (series_sum (actual_yield_kwh <$> filter (λ r, Year r = y) full)
         / c1000)%F.
Proof.
  unfold yearly_actuals. rewrite list_elem_of_fmap. split.
  - intros ([k s] & [= -> ->] & [Hk ->]%groupby_sum_elem). simpl.
    rewrite <- list_fmap_compose in Hk. split; [done |].
    by rewrite filter_year_pairs.
  - intros [Hy ->]. eexists (y, _). split; [reflexivity |].
    apply groupby_sum_elem. rewrite <- list_fmap_compose. split; [done |].
    by rewrite filter_year_pairs.
Qed.

(** The yearly figures after the override: the prediction of the year,
    replaced by the actual yearly yield when the year is one of the actual
    frame and that yield is not NaN. *)
Lemma override_with_actuals_elem (forecast : list (Z * float))
    (full : list analysis_row) y v :
  (y, v) ∈ override_with_actuals forecast (yearly_actuals full) →
  ∃ predicted,
    (y, predicted) ∈ forecast
    ∧ v = if decide (y ∈ Year <$> full)
          then fillna predicted
                 (series_sum
                    (actual_yield_kwh <$> filter (λ r, Year r = y) full)
                  / c1000)%F
          else predicted.
Proof.
  unfold override_with_actuals.
  intros ([y' p] & Hf & Hcase)%left_join_elem. simpl in Hcase.
  destruct Hcase as [([k a] & Ha & Hkey & [= -> ->]) | (Hnone & [= -> ->])];
    exists p; (split; [done |]).
  - simpl in Hkey. subst k. apply yearly_actuals_elem in Ha as [Hy ->].
    by rewrite decide_True.
  - rewrite decide_False; [done |]. intros Hy.
    eapply (Hnone (y', _)); [| done]. by apply yearly_actuals_elem.
Qed.

Lemma unavailable_outcome : unavailable.2 = inr None.
Proof. reflexivity. Qed.

(** A left join keeps every row of its left frame. *)
Lemma left_join_covers {A B C} (kl : A → Z) (kr : B → Z) (f : A → B → C)
    (g : A → C) (l : list A) (r : list B) (a : A) :
  a ∈ l →
  ∃ c, c ∈ left_join kl kr f g l r
       ∧ ((∃ b, b ∈ r ∧ kr b = kl a ∧ c = f a b) ∨ c = g a).
Proof.
  intros Ha. unfold left_join.
  destruct (filter (λ b, kr b = kl a) r) as [|b bs] eqn:E.
  - exists (g a). split; [| by right].
    apply list_elem_of_bind. exists a. split; [| done].
    rewrite E. apply list_elem_of_here.
  - assert (b ∈ filter (λ b, kr b = kl a) r) as [Hkey Hb]%list_elem_of_filter
      by (rewrite E; apply list_elem_of_here).
    exists (f a b). split; [| left; by exists b].
    apply list_elem_of_bind. exists a. split; [| done].
    rewrite E. apply list_elem_of_fmap_2, list_elem_of_here.
Qed.

(** The future frame of the library starts with the dates of the history. *)
Lemma make_future_history (history : list date) (periods : nat) d :
  d ∈ history → d ∈ make_future_dataframe history periods.
Proof.
  intros Hd. unfold make_future_dataframe.
  assert (d ∈ merge_sort date_le (remove_dups history)) as Hin
    by (rewrite merge_sort_Permutation; by apply elem_of_remove_dups).
  destruct (max_date history); [apply elem_of_app; by left | done].
Qed.

(** The yearly forecast has a row for the year of every date of the
    history. *)
Lemma yearly_forecast_has_year {Prophet : Type}
    (prophet_predict : Prophet → date → prediction) (model : Prophet)
    (full : list analysis_row) (pvsyst_df : list Pvsyst.row) (period : nat)
    (r : analysis_row) :
  r ∈ full →
  ∃ v, ((Date r).1, v)
       ∈ yearly_forecast Prophet prophet_predict model full pvsyst_df period.
Proof.
  intros Hr. unfold yearly_forecast.
  set (forecast_df :=
         (λ d, (d, clip (Fin 50) (Fin 110) (yhat (prophet_predict model d))))
           <$> make_future_dataframe (Date <$> full) (period * 12)).
  assert ((Date r, clip (Fin 50) (Fin 110)
                     (yhat (prophet_predict model (Date r))))
          ∈ forecast_df) as Hf.
  { apply (list_elem_of_fmap_2
             (λ d, (d, clip (Fin 50) (Fin 110)
                         (yhat (prophet_predict model d))))).
    apply make_future_history. by apply list_elem_of_fmap_2. }
  destruct (left_join_covers (λ f : date * float, f.1.2) Pvsyst.Month
              (λ f p, (f, Pvsyst.pvsyst_yield_kwh p)) (λ f, (f, NaN))
              forecast_df pvsyst_df _ Hf) as (c & Hc & Hshape).
  assert (c.1.1.1 = (Date r).1) as Hyear
    by (destruct Hshape as [(p & _ & _ & ->) | ->]; done).
  eexists. apply list_elem_of_fmap. eexists ((Date r).1, _).
  split; [reflexivity |]. apply groupby_sum_elem. split; [| reflexivity].
  apply list_elem_of_fmap. eexists (_, _). split; [reflexivity |].
  apply list_elem_of_fmap. exists c. by rewrite Hyear.
Qed.

(** The override keeps every year of the forecast. *)
Lemma override_covers (forecast actuals : list (Z * float)) y p :
  (y, p) ∈ forecast →
  ∃ v, (y, v) ∈ override_with_actuals forecast actuals.
Proof.
  intros Hf. unfold override_with_actuals.
  destruct (left_join_covers fst fst (λ f a, (f.1, fillna f.2 a.2))
              (λ f, (f.1, fillna f.2 NaN)) forecast actuals _ Hf)
    as (c & Hc & [(b & _ & _ & ->) | ->]); eauto.
Qed.

(** The analysis passes the Date and Year columns through: a frame whose
    Year is the year of its Date gives a table with the same property. *)
Lemma analysis_keeps_year_of_date si actual_df pvsyst_df :
  Forall (λ a, Actual.Year a = (Actual.Date a).1) actual_df →
  Forall (λ r, Year r = (Date r).1)
    (perform_phase2_analysis si actual_df pvsyst_df).1.
Proof.
  intros H. apply table_Forall, Forall_fmap, Forall_forall. intros m Hm.
  apply merge_left_elem in Hm as [Hin _]. simpl.
  by apply (proj1 (Forall_forall _ _) H).
Qed.

(** C6, as the code has it.  The long-term forecast is produced unless the
    library raised or the commissioning year is not configured, and is
    declared unavailable only without a full year of history or without a
    baseline.  Each year of the forecast carries the prediction of the model
    for that year, except the full years of the actual data (twelve distinct
    months): those carry their actual yearly yield (unless that sum is
    NaN).  A year with actual data for some months only is not overridden.
    When the Year column of the records is the year of their Date, every
    full year has a row in the forecast, with its actual yearly yield. *)
Theorem forecast_reports_actual_of_full_years {Prophet : Type}
    (prophet_fit : list (date * float) → option Prophet)
    (prophet_predict : Prophet → date → prediction)
    (analysis_df : list analysis_row) (pvsyst_df : list Pvsyst.row)
    (si : system_info) :
  match (calculate_long_term_forecast Prophet prophet_fit prophet_predict
           analysis_df pvsyst_df si).2
  with
  | inr (Some table) =>
      (∃ full_years_df model,
         _get_full_years_df analysis_df = Some full_years_df
         ∧ prophet_fit ((λ r, (Date r, pi_pct r)) <$> full_years_df)
           = Some model
         ∧ Forall (λ r : LongTerm.row,
             let y := LongTerm.Year r in
             ∃ predicted,
               (y, predicted)
               ∈ yearly_forecast Prophet prophet_predict model full_years_df
                   pvsyst_df (default 10%nat (forecast_period si))
               ∧ LongTerm.Forecasted_Yield_MWh r
                 = if decide (y ∈ Year <$> analysis_df
                              ∧ month_count analysis_df y = 12%nat)
                   then fillna predicted
                          (series_sum
                             (actual_yield_kwh
                                <$> filter (λ a, Year a = y) analysis_df)
                           / c1000)%F
                   else predicted) table)
      ∧ (Forall (λ a, Year a = (Date a).1) analysis_df →
         ∀ y, y ∈ Year <$> analysis_df →
              month_count analysis_df y = 12%nat →
              let actual_mwh :=
                (series_sum
                   (actual_yield_kwh <$> filter (λ a, Year a = y) analysis_df)
                 / c1000)%F in
              ∃ r, r ∈ table ∧ LongTerm.Year r = y
                   ∧ (F.isnan actual_mwh = false →
                      LongTerm.Forecasted_Yield_MWh r = actual_mwh))
  | inr None =>
      ∀ full_years_df,
        _get_full_years_df analysis_df = Some full_years_df →
        full_years_df = [] ∨ pvsyst_df = []
        ∨ (length full_years_df < 12)%nat
  | inl e =>
      e = LibraryError
      ∨ (e = KeyError "commissioning_year" ∧ commissioning_year si = None)
  end.
Proof.
  unfold calculate_long_term_forecast.
  destruct (_get_full_years_df analysis_df) as [full|] eqn:Efull;
    [| by rewrite unavailable_outcome].
  destruct (decide _) as [Hun|_].
  { rewrite unavailable_outcome. by intros ? [= <-]. }
  rewrite bind_outcome, fit_prophet_outcome.
  destruct (prophet_fit _) as [model|] eqn:Hfit; [| by left].
  rewrite bind_outcome.
  destruct (commissioning_year si) as [cy|] eqn:Hcy;
    lazy beta iota zeta delta [snd mret M_ret raise]; [| by right].
  destruct (full_years_spec _ _ Efull) as [Hyears Hfilter].
  assert (∀ y v,
    (y, v) ∈ override_with_actuals
               (yearly_forecast Prophet prophet_predict model full pvsyst_df
                  (default 10%nat (forecast_period si)))
               (yearly_actuals full) →
    ∃ predicted,
      (y, predicted)
      ∈ yearly_forecast Prophet prophet_predict model full pvsyst_df
          (default 10%nat (forecast_period si))
      ∧ v = if decide (y ∈ Year <$> analysis_df
                       ∧ month_count analysis_df y = 12%nat)
            then fillna predicted
                   (series_sum
                      (actual_yield_kwh
                         <$> filter (λ a, Year a = y) analysis_df)
                    / c1000)%F
            else predicted) as Hrow.
  { intros y v Hyv.
    apply override_with_actuals_elem in Hyv as (predicted & Hp & ->).
    exists predicted. split; [done |].
    destruct (decide (y ∈ Year <$> full)) as [Hin|Hnin].
    - rewrite decide_True by (by apply Hyears). by rewrite Hfilter.
    - rewrite decide_False by (by rewrite <- Hyears). done. }
  split.
  - exists full, model. split; [done |]. split; [done |].
    apply Forall_fmap, Forall_forall. intros [y v] Hyv. simpl.
    by apply Hrow.
  - intros Hdate y Hy H12.
    assert (y ∈ Year <$> full) as Hfull by (by apply Hyears).
    apply list_elem_of_fmap in Hfull as (a & -> & Ha).
    assert (a ∈ analysis_df) as Hin.
    { destruct analysis_df as [|a0 rest]; [done |].
      injection Efull as <-. by apply list_elem_of_filter in Ha as [_ ?]. }
    pose proof (proj1 (Forall_forall _ _) Hdate a Hin) as Hya.
    destruct (yearly_forecast_has_year prophet_predict model full pvsyst_df
                (default 10%nat (forecast_period si)) a Ha) as (p & Hp).
    rewrite <- Hya in Hp.
    destruct (override_covers _ (yearly_actuals full) _ _ Hp) as (v & Hv).
    destruct (Hrow _ _ Hv) as (predicted & _ & Hval).
    rewrite decide_True in Hval by done.
    eexists. split; [apply list_elem_of_fmap_2, Hv |]. simpl.
    split; [done |]. intros Hnan. rewrite Hval.
    by destruct (series_sum _ / c1000)%F.
Qed.

(** The statement applies to the 2022-23 table: 2022 is a full year, and
    its row of the forecast reports its actual yearly yield. *)
Lemma forecast_reports_actual_of_full_years_witness :
  let actual_mwh :=
    (series_sum
       (actual_yield_kwh
          <$> filter (λ a, Year a = 2022) Fixtures.table_2022_23)
     / c1000)%F in
  ∃ r, r ∈ long_term_frame Fixtures.forecast_2022_23
       ∧ LongTerm.Year r = 2022
       ∧ (F.isnan actual_mwh = false →
          LongTerm.Forecasted_Yield_MWh r = actual_mwh).
Proof.
  pose proof (forecast_reports_actual_of_full_years Fixtures.trend_fit
                Fixtures.trend_predict Fixtures.table_2022_23
                Fixtures.pvsyst_year Fixtures.si_2022) as H.
  unfold long_term_frame, Fixtures.forecast_2022_23.
  destruct (calculate_long_term_forecast _ _ _ _ _ _).2
    as [e | [table |]] eqn:E;
    [vm_compute in E; discriminate | | vm_compute in E; discriminate].
  destruct H as [_ H]. apply H.
  - apply (bool_decide_unpack _). vm_compute. reflexivity.
  - apply (bool_decide_unpack _). vm_compute. reflexivity.
  - vm_compute. reflexivity.
Defined.

(** C6 as stated fails.  2023 has actual data, a January of 1 kWh, and is
    a year of the forecast; its row reports the 12 MWh that the model
    predicts, not the 0.001 MWh of its actual yield.  The full year 2022
    reports its actual 10.8 MWh. *)
Lemma forecast_partial_year_counterexample :
  ∃ r2022 r2023,
    Fixtures.forecast_2022_23.2 = inr (Some [r2022; r2023])
    ∧ LongTerm.Year r2022 = 2022 ∧ LongTerm.Year r2023 = 2023
    ∧ (LongTerm.Forecasted_Yield_MWh r2022 ~= Fin (108 # 10))%F
    ∧ 2023 ∈ Year <$> Fixtures.table_2022_23
    ∧ (series_sum
         (actual_yield_kwh
            <$> filter (λ a, Year a = 2023) Fixtures.table_2022_23)
       / c1000 ~= Fin (1 # 1000))%F
    ∧ (LongTerm.Forecasted_Yield_MWh r2023 ~= Fin 12)%F
    ∧ LongTerm.Type_ r2023 = "Forecast".
Proof.
  eexists _, _. split; [vm_compute; reflexivity |].
  split; [done |]. split; [done |]. split; [by vm_compute |].
  split; [| by vm_compute].
  apply list_elem_of_fmap. eexists. split; [| apply list_elem_of_lookup].
  2: { exists 12%nat. vm_compute. reflexivity. }
  reflexivity.
Qed.

(** * Further properties of the module *)

(** ** Left joins on a right frame with one row per key *)

Lemma filter_all_False {A} (P : A → Prop) `{!∀ x, Decision (P x)}
    (l : list A) :
  Forall (λ x, ¬ P x) l → filter P l = [].
Proof.
  induction 1 as [|x l Hx _ IH]; [done |]. by rewrite filter_cons_False.
Qed.

Lemma filter_key_NoDup {B} (kr : B → Z) (r : list B) (k : Z) :
  NoDup (kr <$> r) → (length (filter (λ b, kr b = k) r) ≤ 1)%nat.
Proof.
  induction r as [|b r IH]; [simpl; lia |].
  rewrite fmap_cons, NoDup_cons. intros [Hb Hr].
  rewrite filter_cons. destruct (decide (kr b = k)) as [<-|Hne]; [| auto].
  simpl. rewrite filter_all_False; [simpl; lia |].
  apply Forall_forall. intros b' Hb' Heq.
  apply Hb. rewrite <- Heq. by apply list_elem_of_fmap_2.
Qed.

(** With distinct right keys a left join has one row per left row. *)
Lemma left_join_unique {A B C} (kl : A → Z) (kr : B → Z) (f : A → B → C)
    (g : A → C) (l : list A) (r : list B) :
  NoDup (kr <$> r) →
  left_join kl kr f g l r
  = (λ a, match filter (λ b, kr b = kl a) r with
          | [] => g a
          | b :: _ => f a b
          end) <$> l.
Proof.
  intros Hr. unfold left_join. induction l as [|a l IH]; [done |].
  rewrite bind_cons, fmap_cons, IH.
  pose proof (filter_key_NoDup kr r (kl a) Hr) as Hlen.
  destruct (filter _ r) as [|b [|b2 bs]]; simpl in *; [done | done | lia].
Qed.

(** ** The analysis table (perform_phase2_analysis) *)

Global Instance date_order_trans : Transitive date_order.
Proof. intros r1 r2 r3. unfold date_order, date_le. lia. Qed.

Global Instance date_order_total : Total date_order.
Proof. intros r1 r2. unfold date_order, date_le. lia. Qed.

Lemma analysis_table_rows si actual_df pvsyst_df :
  let table := (perform_phase2_analysis si actual_df pvsyst_df).1 in
  StronglySorted date_order table
  ∧ table ≡ₚ enrich_row si <$> merge_left actual_df pvsyst_df.
Proof.
  simpl. unfold sort_by_date. split.
  - apply (StronglySorted_merge_sort date_order); apply _.
  - apply merge_sort_Permutation.
Qed.

(** X1.  The analysis table is ordered by date, ascending, and holds
    exactly the enriched rows of the left join, each as often as the join
    has it. *)
Theorem analysis_table_sorted si actual_df pvsyst_df :
  let table := (perform_phase2_analysis si actual_df pvsyst_df).1 in
  StronglySorted date_order table
  ∧ table ≡ₚ enrich_row si <$> merge_left actual_df pvsyst_df.
Proof. apply analysis_table_rows. Qed.

Lemma actual_of_enrich_row si m :
  actual_of (enrich_row si m) = Merged.actual m.
Proof. by destruct m as [[]]. Qed.

(** X2.  When the baseline has at most one row per month, the analysis
    table has exactly one row per actual record, and the columns of the
    actual frame pass through unchanged: read back from the table they are
    the actual records, up to the order. *)
Theorem analysis_table_one_row_per_record si actual_df pvsyst_df :
  NoDup (Pvsyst.Month <$> pvsyst_df) →
  let table := (perform_phase2_analysis si actual_df pvsyst_df).1 in
  actual_of <$> table ≡ₚ actual_df ∧ length table = length actual_df.
Proof.
  intros Hp table.
  assert (actual_of <$> table ≡ₚ actual_df) as Hperm.
  { subst table. simpl. unfold sort_by_date.
    rewrite merge_sort_Permutation. unfold merge_left.
    rewrite left_join_unique by done.
    rewrite <- !list_fmap_compose.
    rewrite <- (list_fmap_id actual_df) at 2.
    erewrite list_fmap_ext; [reflexivity |]. intros i a _. simpl.
    rewrite actual_of_enrich_row. by destruct (filter _ pvsyst_df). }
  split; [done |].
  rewrite <- (length_fmap actual_of). by rewrite Hperm.
Qed.

Lemma analysis_table_one_row_per_record_witness :
  let table := (perform_phase2_analysis Fixtures.si_default
                  Fixtures.actual_q1 Fixtures.pvsyst_q1).1 in
  actual_of <$> table ≡ₚ Fixtures.actual_q1
  ∧ length table = length Fixtures.actual_q1.
Proof.
  apply (analysis_table_one_row_per_record Fixtures.si_default
           Fixtures.actual_q1 Fixtures.pvsyst_q1).
  apply (bool_decide_unpack _). by vm_compute.
Defined.

(** ** The insights of an analysis run *)

Lemma summarize_sensor_alerts df :
  summarize df !! "Sensor Alerts Count"
  = Some (F.of_Z (Z.of_nat (length (filter (λ r, irr_alert r ≠ alert_ok) df)))).
Proof. unfold summarize. apply lookup_insert_eq. Qed.

Lemma summarize_total_actual df :
  summarize df !! "Total Actual Yield (MWh)"
  = Some (series_sum (actual_yield_kwh <$> df) / c1000)%F.
Proof.
  unfold summarize. rewrite !lookup_insert_ne by done.
  apply lookup_insert_eq.
Qed.

Lemma summarize_total_expected df :
  summarize df !! "Total Expected Yield (MWh)"
  = Some (series_sum (expected_yield_kwh <$> df) / c1000)%F.
Proof.
  unfold summarize. rewrite !lookup_insert_ne by done.
  apply lookup_insert_eq.
Qed.

Lemma summarize_total_other df :
  summarize df !! "Total Other Losses (MWh)"
  = Some (series_sum (other_losses_kwh <$> df) / c1000)%F.
Proof.
  unfold summarize. rewrite !lookup_insert_ne by done.
  apply lookup_insert_eq.
Qed.

Lemma summarize_overall_variance df :
  summarize df !! "Overall Yield Variance (MWh)"
  = Some (series_sum (actual_yield_kwh <$> df) / c1000
          - series_sum (expected_yield_kwh <$> df) / c1000)%F.
Proof.
  unfold summarize. rewrite !lookup_insert_ne by done.
  apply lookup_insert_eq.
Qed.

(** The alert of a row is one of the two labels, and the alert label exactly
    when the index is outside the band around 100. *)
Lemma irr_alert_cases si m :
  let r := enrich_row si m in
  (irr_alert r = alert_check ∨ irr_alert r = alert_ok)
  ∧ (irr_alert r = alert_check ↔
     (irr_index_pct r >? c100 + cfg_threshold si)%F
     || (irr_index_pct r <? c100 - cfg_threshold si)%F = true).
Proof.
  simpl. destruct (_ || _); split; auto; split; done.
Qed.

Lemma alert_filters si (l : list Merged.row) :
  filter (λ r, irr_alert r ≠ alert_ok) (enrich_row si <$> l)
  = filter (λ r, irr_alert r = alert_check) (enrich_row si <$> l).
Proof.
  induction l as [|m l IH]; [done |].
  rewrite fmap_cons, !filter_cons, IH.
  destruct (irr_alert_cases si m) as [[Hc | Ho] _].
  - rewrite decide_True by (by rewrite Hc). by rewrite decide_True.
  - rewrite decide_False by (by rewrite Ho; intros H; apply H).
    by rewrite decide_False by (by rewrite Ho).
Qed.

(** X3.  The sensor alert count of the insights is the number of rows of the
    returned table that carry the "Check Sensor" label, and a row carries it
    exactly when its irradiance index is above 100 + threshold or below
    100 - threshold (threshold 20 by default); a NaN threshold alerts on no
    row. *)
Theorem sensor_alert_count_counts_alerts si actual_df pvsyst_df :
  let res := perform_phase2_analysis si actual_df pvsyst_df in
  res.2 !! "Sensor Alerts Count"
  = Some (F.of_Z (Z.of_nat
            (length (filter (λ r, irr_alert r = alert_check) res.1))))
  ∧ Forall (λ r,
      irr_alert r = alert_check ↔
      (irr_index_pct r >? c100 + default (Fin 20) (irr_alert_threshold si))%F
      || (irr_index_pct r <? c100 - default (Fin 20) (irr_alert_threshold si))%F
      = true) res.1
  ∧ (irr_alert_threshold si = Some NaN →
     res.2 !! "Sensor Alerts Count" = Some (Fin 0)).
Proof.
  intros res.
  assert (res.2 !! "Sensor Alerts Count"
          = Some (F.of_Z (Z.of_nat
              (length (filter (λ r, irr_alert r = alert_check) res.1)))))
    as Hcount.
  { subst res. cbn [fst snd perform_phase2_analysis].
    rewrite summarize_sensor_alerts, alert_filters. do 3 f_equal.
    apply Permutation_length, filter_Permutation. symmetry.
    apply merge_sort_Permutation. }
  assert (Forall (λ r,
      irr_alert r = alert_check ↔
      (irr_index_pct r >? c100 + default (Fin 20) (irr_alert_threshold si))%F
      || (irr_index_pct r <? c100 - default (Fin 20) (irr_alert_threshold si))%F
      = true) res.1) as Hall.
  { apply table_Forall_all. intros m. apply irr_alert_cases. }
  split; [done |]. split; [done |].
  intros Hnan. rewrite Hcount. do 3 f_equal.
  rewrite filter_all_False; [done |].
  eapply Forall_impl; [exact Hall |]. intros r Hr Hcheck.
  apply Hr in Hcheck. rewrite Hnan in Hcheck. simpl in Hcheck.
  by destruct (irr_index_pct r).
Qed.

(** The sum of a column of finite values is finite: the sum of the values. *)
Lemma series_sum_finite (l : list float) :
  Forall (λ x, F.isfinite x = true) l →
  series_sum l = Fin (foldr Qplus 0%Q (to_Q <$> l)).
Proof.
  unfold series_sum. induction 1 as [|x l Hx _ IH]; [done |].
  destruct x as [| |q]; [done | done |].
  rewrite filter_cons_True by done. simpl. by rewrite IH.
Qed.

(** The enriched rows of finite, matched inputs are finite. *)
Lemma enriched_rows_finite si actual_df pvsyst_df :
  finite_config si = true →
  forallb finite_actual actual_df = true →
  forallb finite_pvsyst pvsyst_df = true →
  baseline_covers pvsyst_df actual_df = true →
  Forall (λ r, derived_finite r = true
               ∧ F.isfinite (actual_yield_kwh r) = true)
    (enrich_row si <$> merge_left actual_df pvsyst_df).
Proof.
  intros Hc Ha Hp Hcov. apply Forall_fmap, Forall_forall. intros m Hm.
  apply merge_left_elem in Hm as [Hin Hcase].
  pose proof (forallb_elem_of _ _ _ Ha Hin) as Hfa.
  destruct Hcase as [(p & Hp_in & Hmonth & Hy & _ & Hg) | (Hnone & _)].
  - pose proof (forallb_elem_of _ _ _ Hp Hp_in) as Hfp.
    unfold finite_pvsyst in Hfp. apply andb_true_iff in Hfp as [Hfy Hfg].
    destruct m as [a y pr g]. simpl in *. subst y g.
    destruct (Pvsyst.pvsyst_yield_kwh p) as [| |y]; [done | done |].
    destruct (Pvsyst.pvsyst_ghi_kwh_m2 p) as [| |g]; [done | done |].
    split; [by apply enrich_row_finite |].
    unfold finite_actual in Hfa. by destruct (Actual.actual_yield_kwh a).
  - exfalso. unfold baseline_covers in Hcov.
    pose proof (forallb_elem_of _ _ _ Hcov Hin) as Hex. simpl in Hex.
    apply existsb_exists in Hex as (p & Hp_in & Heq).
    apply (Hnone p); [by apply list_elem_of_In | by apply Z.eqb_eq].
Qed.

Lemma derived_finite_columns r :
  derived_finite r = true →
  F.isfinite (expected_yield_kwh r) = true
  ∧ F.isfinite (other_losses_kwh r) = true
  ∧ F.isfinite (ideal_yield_kwh r) = true
  ∧ F.isfinite (temp_loss_kwh r) = true.
Proof. unfold derived_finite. rewrite !andb_true_iff. tauto. Qed.

(** On finite rows the other losses add up to the expected minus the actual
    yields. *)
Lemma other_losses_sum si (ms : list Merged.row) :
  Forall (λ r, derived_finite r = true
               ∧ F.isfinite (actual_yield_kwh r) = true)
    (enrich_row si <$> ms) →
  (foldr Qplus 0 (to_Q <$> (other_losses_kwh <$> (enrich_row si <$> ms)))
   == foldr Qplus 0 (to_Q <$> (expected_yield_kwh <$> (enrich_row si <$> ms)))
      - foldr Qplus 0 (to_Q <$> (actual_yield_kwh <$> (enrich_row si <$> ms))))%Q.
Proof.
  induction ms as [|m ms IH]; [intros _; simpl; lra |].
  rewrite !fmap_cons, Forall_cons. intros [[Hd Ha] Hrest].
  specialize (IH Hrest). apply derived_finite_columns in Hd as (He & _).
  cbn [foldr]. rewrite IH. clear IH Hrest.
  change (other_losses_kwh (enrich_row si m))
    with (expected_yield_kwh (enrich_row si m)
          - actual_yield_kwh (enrich_row si m))%F.
  destruct (expected_yield_kwh (enrich_row si m)) as [| |e]; [done | done |].
  destruct (actual_yield_kwh (enrich_row si m)) as [| |a]; [done | done |].
  simpl. lra.
Qed.

(** X4.  On finite, matched inputs the totals of the insights balance: the
    total of the other losses is the total expected yield minus the total
    actual yield, and the overall yield variance is its opposite. *)
Theorem total_other_losses_balance si actual_df pvsyst_df :
  finite_config si = true →
  forallb finite_actual actual_df = true →
  forallb finite_pvsyst pvsyst_df = true →
  baseline_covers pvsyst_df actual_df = true →
  let ins := (perform_phase2_analysis si actual_df pvsyst_df).2 in
  (get0 ins "Total Other Losses (MWh)"
   ~= get0 ins "Total Expected Yield (MWh)"
      - get0 ins "Total Actual Yield (MWh)")%F
  ∧ (get0 ins "Overall Yield Variance (MWh)"
     ~= - get0 ins "Total Other Losses (MWh)")%F.
Proof.
  intros Hc Ha Hp Hcov ins. subst ins.
  cbn [snd perform_phase2_analysis]. unfold get0.
  rewrite summarize_total_other, summarize_total_expected,
    summarize_total_actual, summarize_overall_variance.
  cbn [default].
  pose proof (enriched_rows_finite si actual_df pvsyst_df Hc Ha Hp Hcov)
    as Hfin.
  pose proof (other_losses_sum si _ Hfin) as Hsum.
  rewrite !series_sum_finite.
  - simpl. rewrite Hsum. split; field.
  - apply Forall_fmap. eapply Forall_impl; [exact Hfin |]. by intros r [_ ?].
  - apply Forall_fmap. eapply Forall_impl; [exact Hfin |].
    by intros r [(? & _)%derived_finite_columns _].
  - apply Forall_fmap. eapply Forall_impl; [exact Hfin |].
    by intros r [(_ & ? & _)%derived_finite_columns _].
Qed.

Lemma total_other_losses_balance_witness :
  let ins := (perform_phase2_analysis Fixtures.si_default Fixtures.actual_q1
                Fixtures.pvsyst_q1).2 in
  (get0 ins "Total Other Losses (MWh)"
   ~= get0 ins "Total Expected Yield (MWh)"
      - get0 ins "Total Actual Yield (MWh)")%F
  ∧ (get0 ins "Overall Yield Variance (MWh)"
     ~= - get0 ins "Total Other Losses (MWh)")%F.
Proof.
  apply (total_other_losses_balance Fixtures.si_default Fixtures.actual_q1
           Fixtures.pvsyst_q1); reflexivity.
Defined.

(** X5.  An empty actual frame is analysed without error: the table is
    empty, the totals, the average performance index and the alert count
    are 0, and the average performance ratio, a mean over no value, is NaN. *)
Theorem analysis_of_empty_frame si pvsyst_df :
  let res := perform_phase2_analysis si [] pvsyst_df in
  res.1 = []
  ∧ (get0 res.2 "Total Actual Yield (MWh)" ~= Fin 0)%F
  ∧ (get0 res.2 "Total Expected Yield (MWh)" ~= Fin 0)%F
  ∧ res.2 !! "Average PI (%)" = Some (Fin 0)
  ∧ res.2 !! "Overall Yield Variance (%)" = Some (Fin 0)
  ∧ res.2 !! "Sensor Alerts Count" = Some (Fin 0)
  ∧ res.2 !! "Average PR (%)" = Some NaN.
Proof.
  intros res. subst res. cbn [fst snd perform_phase2_analysis].
  change (merge_left [] pvsyst_df) with (@nil Merged.row).
  by vm_compute.
Qed.

(** ** _get_full_years_df *)

Lemma length_remove_dups `{EqDecision A} (l : list A) :
  (length (remove_dups l) ≤ length l)%nat.
Proof.
  induction l as [|x l IH]; [done |]. simpl.
  destruct (decide_rel _ x l); simpl; lia.
Qed.

Lemma filter_all_True {A} (P : A → Prop) `{!∀ x, Decision (P x)}
    (l : list A) :
  Forall P l → filter P l = l.
Proof.
  induction 1 as [|x l Hx _ IH]; [done |].
  by rewrite filter_cons_True, IH.
Qed.

Lemma full_years_facts (df : list analysis_row) :
  match _get_full_years_df df with
  | None => df = []
  | Some full =>
      full `sublist_of` df
      ∧ (∀ r, r ∈ full ↔ r ∈ df ∧ month_count df (Year r) = 12%nat)
      ∧ (full ≠ [] →
         (12 ≤ length full)%nat ∧ _get_full_years_df full = Some full)
  end.
Proof.
  destruct (_get_full_years_df df) as [full|] eqn:E;
    [| by destruct df].
  destruct (full_years_spec df full E) as [Hyears Hfilter].
  assert (full = filter (λ r, month_count df (Year r) = 12%nat) df) as Hfull
    by (destruct df; [done | by injection E]).
  split; [rewrite Hfull; apply sublist_filter |].
  split.
  { intros r. rewrite Hfull, list_elem_of_filter. tauto. }
  intros Hne.
  assert (∀ r, r ∈ full → month_count full (Year r) = 12%nat) as Hcount.
  { intros r Hr. unfold month_count.
    rewrite Hfilter by (by apply list_elem_of_fmap_2).
    rewrite Hfull in Hr. by apply list_elem_of_filter in Hr as [? _]. }
  split.
  - destruct full as [|r rest] eqn:Efull; [done |]. rewrite <- Efull in *.
    assert (r ∈ full) as Hr by (rewrite Efull; apply list_elem_of_here).
    specialize (Hcount r Hr). unfold month_count in Hcount.
    pose proof (length_remove_dups
                  (Month <$> filter (λ r0, Year r0 = Year r) full)) as H1.
    rewrite length_fmap in H1.
    pose proof (length_filter (λ r0, Year r0 = Year r) full) as H2. lia.
  - unfold _get_full_years_df. destruct full as [|r rest] eqn:Efull; [done |].
    rewrite <- Efull in *. f_equal. apply filter_all_True, Forall_forall.
    exact Hcount.
Qed.

(** The rows of one year in the full-years frame: all the rows of the year,
    repeated rows included, or none. *)
Lemma full_years_rows_of_year (df full : list analysis_row) y :
  _get_full_years_df df = Some full →
  filter (λ r, Year r = y) full
  = if decide (month_count df y = 12%nat)
    then filter (λ r, Year r = y) df else [].
Proof.
  intros E.
  assert (full = filter (λ r, month_count df (Year r) = 12%nat) df) as ->
    by (destruct df; [done | by injection E]).
  rewrite list_filter_filter.
  destruct (decide (month_count df y = 12%nat)) as [H12 | H12].
  - apply list_filter_iff. intros r. split; [by intros [? ?] |].
    intros Hy. split; [done |]. by rewrite Hy.
  - apply filter_all_False, Forall_forall. intros r _ [Hy Hr].
    apply H12. by rewrite <- Hy.
Qed.

(** X6.  The full-years filter returns the column-less frame on an empty
    frame only; otherwise it keeps, in order and with their repetitions,
    exactly the rows of the years that have twelve distinct months (a
    repeated month counts once): it is the frame filtered by that test, with
    all the rows of such a year and none of any other.  A non-empty result
    has at least twelve rows, and filtering it again changes nothing. *)
Theorem full_years_filter (df : list analysis_row) :
  match _get_full_years_df df with
  | None => df = []
  | Some full =>
      full = filter (λ r, month_count df (Year r) = 12%nat) df
      ∧ full `sublist_of` df
      ∧ (∀ r, r ∈ full ↔ r ∈ df ∧ month_count df (Year r) = 12%nat)
      ∧ (∀ y, filter (λ r, Year r = y) full
              = if decide (month_count df y = 12%nat)
                then filter (λ r, Year r = y) df else [])
      ∧ (full ≠ [] →
         (12 ≤ length full)%nat ∧ _get_full_years_df full = Some full)
  end.
Proof.
  pose proof (full_years_facts df) as Hfacts.
  destruct (_get_full_years_df df) as [full|] eqn:E; [| done].
  destruct Hfacts as (Hsub & Hmem & Hne).
  split; [destruct df; [done | by injection E] |].
  split; [done |]. split; [done |]. split; [| done].
  intros y. by apply full_years_rows_of_year.
Qed.

(** ** get_loss_breakdown_data *)

(** The last row of a sorted list is above every row. *)
Lemma sorted_last_max (l : list analysis_row) r :
  StronglySorted date_order l → last l = Some r →
  ∀ r', r' ∈ l → date_order r' r.
Proof.
  intros Hs [l' ->]%last_Some r' [Hr' | ->%list_elem_of_singleton]%elem_of_app.
  - apply (StronglySorted_app_1_elem_of _ _ _ _ _ Hs Hr').
    apply list_elem_of_here.
  - unfold date_order, date_le. lia.
Qed.

(** X7.  The latest-month breakdown of an analysis run never raises, and on
    a non-empty run it is the breakdown of a row of the latest date of the
    table: the table is sorted by date before it is returned. *)
Theorem latest_month_of_analysis si actual_df pvsyst_df :
  let table := (perform_phase2_analysis si actual_df pvsyst_df).1 in
  match get_loss_breakdown_data table None "latest_month" with
  | inl _ => False
  | inr b =>
      (actual_df = []
       ∧ b = mk_breakdown (Fin 0) (Fin 0) (Fin 0) (Fin 0) "no data")
      ∨ ∃ r, r ∈ table
             ∧ (∀ r', r' ∈ table → date_le (Date r') (Date r))
             ∧ b = mk_breakdown (ideal_yield_kwh r / c1000)%F
                     (temp_loss_kwh r / c1000)%F
                     (other_losses_kwh r / c1000)%F
                     (actual_yield_kwh r / c1000)%F
                     (strftime_B_Y (Date r))
  end.
Proof.
  intros table.
  destruct (analysis_table_rows si actual_df pvsyst_df) as [Hsorted Hperm].
  fold table in Hsorted, Hperm.
  unfold get_loss_breakdown_data.
  destruct (last table) as [r|] eqn:E.
  - cbn. right. exists r. split; [by eapply last_Some_elem_of |].
    split; [| done]. by apply sorted_last_max.
  - left. split; [| done]. apply last_None in E. rewrite E in Hperm.
    apply Permutation_nil_l in Hperm. symmetry in Hperm.
    apply fmap_nil_inv in Hperm.
    unfold merge_left, left_join in Hperm.
    destruct actual_df as [|a rest]; [done |]. exfalso.
    rewrite bind_cons in Hperm. apply app_eq_nil in Hperm as [Hperm _].
    by destruct (filter _ pvsyst_df).
Qed.

(** ** calculate_short_term_forecast *)

Lemma max_date_cons (d : date) (ds : list date) :
  max_date (d :: ds)
  = match max_date ds with
    | None => Some d
    | Some m => Some (if decide (date_le d m) then m else d)
    end.
Proof. reflexivity. Qed.

Lemma max_date_None (ds : list date) : max_date ds = None ↔ ds = [].
Proof.
  split; [| by intros ->]. destruct ds as [|d ds]; [done |].
  rewrite max_date_cons. by destruct (max_date ds).
Qed.

Lemma date_le_refl (d : date) : date_le d d.
Proof. unfold date_le. lia. Qed.

Lemma date_le_trans (d1 d2 d3 : date) :
  date_le d1 d2 → date_le d2 d3 → date_le d1 d3.
Proof. unfold date_le. lia. Qed.

Lemma date_le_total (d1 d2 : date) : date_le d1 d2 ∨ date_le d2 d1.
Proof. unfold date_le. lia. Qed.

(** [max_date] is a date of the column and is above every date of it. *)
Lemma max_date_upper (ds : list date) d :
  max_date ds = Some d → ∀ d', d' ∈ ds → date_le d' d.
Proof.
  revert d. induction ds as [|d0 ds IH]; intros d Hmax d' Hd'.
  { by apply elem_of_nil in Hd'. }
  rewrite max_date_cons in Hmax. destruct (max_date ds) as [m|] eqn:E.
  - specialize (IH m eq_refl).
    destruct (decide (date_le d0 m)) as [Hle|Hnle];
      injection Hmax as <-;
      apply elem_of_cons in Hd' as [-> | Hd']; auto using date_le_refl.
    + eapply date_le_trans; [by apply IH |].
      by destruct (date_le_total d0 m).
  - injection Hmax as <-. apply max_date_None in E. subst ds.
    apply list_elem_of_singleton in Hd' as ->. apply date_le_refl.
Qed.

(** One period ahead: the future frame ends with the month after the latest
    date of the history. *)
Lemma make_future_one_last (ds : list date) d :
  max_date ds = Some d →
  last (make_future_dataframe ds 1) = Some (next_month d).
Proof.
  intros H. unfold make_future_dataframe. rewrite H. simpl.
  apply last_snoc.
Qed.

(** X8.  With six records or more the short-term model is fitted once, on
    the dates and performance indices of the last 24 rows of the table (all
    rows when there are fewer).  If the fit raises, so does the forecast;
    otherwise the forecast is the prediction, with its bounds, for the month
    after the latest date of that window. *)
Theorem short_term_uses_recent_window {Prophet : Type}
    (prophet_fit : list (date * float) → option Prophet)
    (prophet_predict : Prophet → date → prediction)
    (df : list analysis_row) :
  (6 ≤ length df)%nat →
  let window := drop (length df - 24) df in
  let history := (λ r, (Date r, pi_pct r)) <$> window in
  let out := calculate_short_term_forecast Prophet prophet_fit
               prophet_predict df in
  length window = Nat.min (length df) 24
  ∧ out.1 = [ProphetFit history]
  ∧ match prophet_fit history with
    | None => out.2 = inl LibraryError
    | Some model =>
        ∃ d, max_date (Date <$> window) = Some d
             ∧ (∀ r, r ∈ window → date_le (Date r) d)
             ∧ out.2
               = inr (Some
                   (mk_short_forecast (strftime_B_Y (next_month d))
                      (yhat (prophet_predict model (next_month d)))
                      (yhat_lower (prophet_predict model (next_month d)))
                      (yhat_upper (prophet_predict model (next_month d)))))
    end.
Proof.
  intros Hlen window history out.
  split; [subst window; rewrite length_drop; lia |].
  subst out. unfold calculate_short_term_forecast.
  destruct (decide _) as [[-> | Hlt]|_]; [simpl in Hlen; lia | lia |].
  fold window. fold history.
  unfold fit_prophet.
  assert (fst <$> history = Date <$> window) as Hdates
    by (subst history; by rewrite <- list_fmap_compose).
  rewrite Hdates.
  destruct (prophet_fit history) as [model|] eqn:Hfit; [| done].
  destruct (max_date (Date <$> window)) as [d|] eqn:Hmax.
  2: { apply max_date_None, fmap_nil_inv in Hmax.
       assert (length window = 0%nat) as H0 by by rewrite Hmax.
       subst window. rewrite length_drop in H0. lia. }
  split; [by rewrite (make_future_one_last _ d Hmax) |].
  exists d. split; [done |]. split.
  - intros r Hr. apply (max_date_upper (Date <$> window)); [done |].
    by apply list_elem_of_fmap_2.
  - by rewrite (make_future_one_last _ d Hmax).
Qed.

Lemma short_term_uses_recent_window_witness :
  let df := Fixtures.table_2022_23 in
  let window := drop (length df - 24) df in
  let history := (λ r, (Date r, pi_pct r)) <$> window in
  let out := calculate_short_term_forecast unit Fixtures.trend_fit
               Fixtures.trend_predict df in
  length window = Nat.min (length df) 24
  ∧ out.1 = [ProphetFit history]
  ∧ match Fixtures.trend_fit history with
    | None => out.2 = inl LibraryError
    | Some model =>
        ∃ d, max_date (Date <$> window) = Some d
             ∧ (∀ r, r ∈ window → date_le (Date r) d)
             ∧ out.2
               = inr (Some
                   (mk_short_forecast (strftime_B_Y (next_month d))
                      (yhat (Fixtures.trend_predict model (next_month d)))
                      (yhat_lower
                         (Fixtures.trend_predict model (next_month d)))
                      (yhat_upper
                         (Fixtures.trend_predict model (next_month d)))))
    end.
Proof.
  apply (short_term_uses_recent_window Fixtures.trend_fit
           Fixtures.trend_predict Fixtures.table_2022_23).
  vm_compute. lia.
Defined.

(** ** calculate_long_term_forecast *)

Section LongTermFacts.

Context {Prophet : Type}.
Variable prophet_fit : list (date * float) → option Prophet.
Variable prophet_predict : Prophet → date → prediction.

#[local] Abbreviation forecast :=
  (calculate_long_term_forecast Prophet prophet_fit prophet_predict).

(** The largest year of a non-empty column. *)
Lemma last_full_year_max (years : list Z) :
  years ≠ [] →
  let m := foldr Z.max (default 0 (head years)) years in
  m ∈ years ∧ ∀ y, y ∈ years → y ≤ m.
Proof.
  destruct years as [|y0 ys]; [done |]. intros _. simpl.
  assert (∀ a l, let m := foldr Z.max a l in
                 (m = a ∨ m ∈ l) ∧ a ≤ m ∧ ∀ y, y ∈ l → y ≤ m) as Hfold.
  { intros a l. induction l as [|x l IH]; simpl.
    - split; [by left |]. split; [lia |]. intros y Hy.
      by apply elem_of_nil in Hy.
    - destruct IH as ([Hm | Hm] & Ha & Hall).
      + split; [| split; [lia |]].
        * destruct (Z.max_spec x (foldr Z.max a l)) as [[_ ->] | [_ ->]];
            [by left | right; apply list_elem_of_here].
        * intros y [-> | Hy]%elem_of_cons; [lia |]. specialize (Hall y Hy).
          lia.
      + split; [| split; [lia |]].
        * right.
          destruct (Z.max_spec x (foldr Z.max a l)) as [[_ ->] | [_ ->]];
            [by apply list_elem_of_further | apply list_elem_of_here].
        * intros y [-> | Hy]%elem_of_cons; [lia |]. specialize (Hall y Hy).
          lia. }
  destruct (Hfold y0 ys) as ([Hm | Hm] & Ha & Hall).
  - split.
    + destruct (Z.max_spec y0 (foldr Z.max y0 ys)) as [[_ ->] | [_ ->]];
        [rewrite Hm |]; apply list_elem_of_here.
    + intros y [-> | Hy]%elem_of_cons; [lia |]. specialize (Hall y Hy). lia.
  - split.
    + destruct (Z.max_spec y0 (foldr Z.max y0 ys)) as [[_ ->] | [_ ->]];
        [by apply list_elem_of_further | apply list_elem_of_here].
    + intros y [-> | Hy]%elem_of_cons; [lia |]. specialize (Hall y Hy). lia.
Qed.

(** The shape of a forecast that produced a table. *)
Lemma long_term_table_shape analysis_df pvsyst_df si table :
  (forecast analysis_df pvsyst_df si).2 = inr (Some table) →
  ∃ full model cy,
    _get_full_years_df analysis_df = Some full
    ∧ full ≠ [] ∧ pvsyst_df ≠ []
    ∧ prophet_fit ((λ r, (Date r, pi_pct r)) <$> full) = Some model
    ∧ commissioning_year si = Some cy
    ∧ table
      = (λ yf : Z * float,
           LongTerm.mk yf.1 yf.2
             (default (Fin 0) (energy_guarantee si)
              * F.pow (Fin 1
                       - default (Fin (1 # 2)) (degradation_rate si) / c100)
                  (yf.1 - cy))%F
             (if decide (yf.1 ≤ foldr Z.max (default 0 (head (Year <$> full)))
                                  (Year <$> full))
              then "Historical" else "Forecast"))
        <$> override_with_actuals
              (yearly_forecast Prophet prophet_predict model full pvsyst_df
                 (default 10%nat (forecast_period si)))
              (yearly_actuals full).
Proof.
  unfold calculate_long_term_forecast.
  destruct (_get_full_years_df analysis_df) as [full|] eqn:Efull;
    [| by rewrite unavailable_outcome].
  destruct (decide _) as [Hun|Hav]; [by rewrite unavailable_outcome |].
  rewrite bind_outcome, fit_prophet_outcome.
  destruct (prophet_fit _) as [model|] eqn:Hfit; [| done].
  rewrite bind_outcome.
  destruct (commissioning_year si) as [cy|] eqn:Hcy;
    lazy beta iota zeta delta [snd mret M_ret raise]; [| done].
  intros [= <-]. exists full, model, cy.
  repeat split; try done; intros ->; apply Hav; auto.
Qed.

(** X9.  The long-term forecast is "unavailable" exactly when no year of
    the table has twelve distinct months or the baseline is empty; it then
    shows its warning and fits no model. *)
Theorem long_term_unavailable analysis_df pvsyst_df si :
  let out := forecast analysis_df pvsyst_df si in
  (out.2 = inr None ↔
   (∀ r, r ∈ analysis_df → month_count analysis_df (Year r) ≠ 12%nat)
   ∨ pvsyst_df = [])
  ∧ (out.2 = inr None → out.1 = [StWarning long_term_warning]).
Proof.
  intros out. subst out. unfold calculate_long_term_forecast.
  pose proof (full_years_facts analysis_df) as Hfacts.
  destruct (_get_full_years_df analysis_df) as [full|] eqn:Efull.
  2: { subst analysis_df. split; [| done]. split; [| done].
       intros _. left. intros r Hr. by apply elem_of_nil in Hr. }
  destruct Hfacts as (_ & Hmem & Hlen).
  assert (full = [] ↔
          ∀ r, r ∈ analysis_df → month_count analysis_df (Year r) ≠ 12%nat)
    as Hnone.
  { split.
    - intros -> r Hr H12.
      assert (r ∈ @nil analysis_row) as Hin by by apply Hmem.
      by apply elem_of_nil in Hin.
    - intros Hall. destruct full as [|r rest]; [done |]. exfalso.
      destruct (Hmem r) as [Hr _]. destruct Hr as [Hr H12].
      { apply list_elem_of_here. }
      by apply (Hall r). }
  destruct (decide _) as [Hun|Hav].
  - split; [| done]. split; [| done]. intros _.
    destruct Hun as [Hf | [Hp | Hlt]]; [left; by apply Hnone | by right |].
    left. apply Hnone. destruct full as [|r rest]; [done |].
    destruct Hlen as [Hlen _]; [done |]. lia.
  - match goal with
    | |- (?m.2 = _ ↔ _) ∧ _ => assert (m.2 ≠ inr None) as Hne
    end.
    { rewrite bind_outcome, fit_prophet_outcome.
      destruct (prophet_fit _); [| done]. rewrite bind_outcome.
      by destruct (commissioning_year si). }
    split; [| intros H; by apply Hne in H].
    split; [intros H; by apply Hne in H |].
    intros [Hall | Hp]; exfalso; apply Hav; [left; by apply Hnone | auto].
Qed.

(** X10.  Only the long-term forecast requires the commissioning year: with
    a complete year of history, a baseline and a fitted model, a missing
    [commissioning_year] makes it raise KeyError after the model has been
    fitted, where the monthly analysis assumes 2020. *)
Theorem long_term_missing_commissioning_year analysis_df pvsyst_df si
    full model :
  commissioning_year si = None →
  _get_full_years_df analysis_df = Some full →
  (12 ≤ length full)%nat →
  pvsyst_df ≠ [] →
  prophet_fit ((λ r, (Date r, pi_pct r)) <$> full) = Some model →
  forecast analysis_df pvsyst_df si
  = ([ProphetFit ((λ r, (Date r, pi_pct r)) <$> full)],
     inl (KeyError "commissioning_year"))
  ∧ cfg_commissioning_year si = 2020.
Proof.
  intros Hcy Hfull Hlen Hp Hfit. split.
  - unfold calculate_long_term_forecast. rewrite Hfull.
    destruct (decide _) as [[-> | [-> | Hlt]] | _];
      [simpl in Hlen; lia | done | lia |].
    unfold fit_prophet. rewrite Hfit, Hcy. reflexivity.
  - unfold cfg_commissioning_year. by rewrite Hcy.
Qed.

End LongTermFacts.

Lemma long_term_missing_commissioning_year_witness :
  forecast_missing_year
  = ([ProphetFit ((λ r, (Date r, pi_pct r)) <$> full_2022)],
     inl (KeyError "commissioning_year"))
  ∧ cfg_commissioning_year Fixtures.si_default = 2020.
Proof.
  apply (long_term_missing_commissioning_year Fixtures.trend_fit
           Fixtures.trend_predict Fixtures.table_2022_23
           Fixtures.pvsyst_year Fixtures.si_default full_2022 tt).
  - reflexivity.
  - vm_compute. reflexivity.
  - vm_compute. lia.
  - discriminate.
  - reflexivity.
Defined.

Lemma sorted_NoDup_strict (l : list Z) :
  StronglySorted Z.le l → NoDup l → StronglySorted Z.lt l.
Proof.
  induction 1 as [|x l Hs IH Hx]; intros Hnd; constructor.
  - apply IH. by apply NoDup_cons in Hnd as [_ ?].
  - apply NoDup_cons in Hnd as [Hnotin _].
    apply Forall_forall. intros y Hy.
    assert (x ≤ y) by (by apply (proj1 (Forall_forall _ _) Hx)).
    assert (x ≠ y) by (intros ->; done). lia.
Qed.

Lemma groupby_sum_keys (rows : list (Z * float)) :
  (groupby_sum rows).*1 = merge_sort Z.le (remove_dups rows.*1).
Proof.
  unfold groupby_sum. rewrite <- list_fmap_compose.
  erewrite list_fmap_ext; [apply list_fmap_id |]. by intros.
Qed.

Lemma groupby_sum_keys_strict (rows : list (Z * float)) :
  StronglySorted Z.lt (groupby_sum rows).*1.
Proof.
  rewrite groupby_sum_keys. apply sorted_NoDup_strict.
  - apply (StronglySorted_merge_sort _).
  - rewrite merge_sort_Permutation. apply NoDup_remove_dups.
Qed.

Lemma fmap_keep_key (h : Z * float → float) (l : list (Z * float)) :
  ((λ kv, (kv.1, h kv)) <$> l).*1 = l.*1.
Proof. rewrite <- list_fmap_compose. apply list_fmap_ext. by intros. Qed.

(** The override keeps the years of the forecast. *)
Lemma override_keys (forecast actuals : list (Z * float)) :
  NoDup actuals.*1 →
  (override_with_actuals forecast actuals).*1 = forecast.*1.
Proof.
  intros Hnd. unfold override_with_actuals.
  rewrite left_join_unique by done. rewrite <- list_fmap_compose.
  apply list_fmap_ext. intros i x _. simpl. by destruct (filter _ actuals).
Qed.

Lemma strict_sorted_NoDup (l : list Z) : StronglySorted Z.lt l → NoDup l.
Proof.
  induction 1 as [|x l Hs IH Hx]; constructor; [| done].
  intros Hin. pose proof (proj1 (Forall_forall _ _) Hx x Hin). lia.
Qed.

Lemma clip_percent x :
  match clip (Fin 50) (Fin 110) x with
  | NaN => True
  | Inf _ => False
  | Fin q => (50 <= q <= 110)%Q
  end.
Proof.
  unfold clip, F.ltb, F.gtb.
  destruct x as [|[]|q]; simpl; try done; try lra.
  destruct (q ?= 50)%Q eqn:E1; simpl;
    try (destruct (q ?= 110)%Q eqn:E2; simpl); try lra.
  all: try apply Qeq_alt in E1; try apply Qgt_alt in E1;
    try apply Qeq_alt in E2; try apply Qlt_alt in E2; try lra.
Qed.

Lemma nonneg_div_c1000 x : nonneg x → nonneg (x / c1000)%F.
Proof.
  destruct x as [|[]|q]; simpl; try done. intros H.
  apply Qle_shift_div_l; lra.
Qed.

Lemma leb_Fin (a b : Q) : (a <= b)%Q → (Fin a <=? Fin b)%F = true.
Proof.
  intros H. unfold F.leb. simpl. by destruct (a ?= b)%Q eqn:E.
Qed.

(** Powers of a factor between 0 and 1: finite, at most 1, and not
    increasing with the exponent. *)
Lemma pow_decay (q : Q) (n : Z) :
  (0 <= q <= 1)%Q → 0 ≤ n →
  ∃ p, F.pow (Fin q) n = Fin p ∧ (0 <= p <= 1)%Q
       ∧ ∀ m, n ≤ m → ∃ p', F.pow (Fin q) m = Fin p' ∧ (0 <= p' <= p)%Q.
Proof.
  intros Hq Hn.
  assert (∀ k, ∃ p, Nat.iter k (F.mul (Fin q)) (Fin 1) = Fin p
                    ∧ (0 <= p <= 1)%Q) as Hiter.
  { induction k as [|k (p & E & Hp)]; [exists 1%Q; split; [done | lra] |].
    exists (q * p)%Q. simpl. rewrite E. split; [done | nra]. }
  assert (∀ j k p, Nat.iter k (F.mul (Fin q)) (Fin 1) = Fin p →
                   (0 <= p)%Q →
                   ∃ p', Nat.iter (j + k) (F.mul (Fin q)) (Fin 1) = Fin p'
                         ∧ (0 <= p' <= p)%Q) as Hmono.
  { induction j as [|j IH]; intros k p E Hp; [exists p; split; [done | lra] |].
    destruct (IH k p E Hp) as (p' & E' & Hp'). exists (q * p')%Q.
    simpl. rewrite E'. split; [done | nra]. }
  unfold F.pow. destruct (Z.ltb_spec n 0) as [? | _]; [lia |].
  destruct (Hiter (Z.abs_nat n)) as (p & E & Hp). exists p.
  split; [done |]. split; [done |]. intros m Hm.
  destruct (Z.ltb_spec m 0) as [? | _]; [lia |].
  destruct (Hmono (Z.abs_nat m - Z.abs_nat n)%nat (Z.abs_nat n) p E)
    as (p' & E' & Hp'); [lra |].
  exists p'. split; [| done]. rewrite <- E'. f_equal. lia.
Qed.

Section LongTermTable.

Context {Prophet : Type}.
Variable prophet_fit : list (date * float) → option Prophet.
Variable prophet_predict : Prophet → date → prediction.

#[local] Abbreviation forecast :=
  (calculate_long_term_forecast Prophet prophet_fit prophet_predict).

(** A yearly prediction is a sum of non-negative monthly products; the
    months without a prediction or without a baseline row are skipped. *)
Lemma yearly_forecast_nonneg model full pvsyst_df period :
  Forall (λ p, nonneg (Pvsyst.pvsyst_yield_kwh p)) pvsyst_df →
  Forall (λ yf : Z * float, nonneg yf.2)
    (yearly_forecast Prophet prophet_predict model full pvsyst_df period).
Proof.
  intros Hp. apply Forall_forall. intros [y v].
  unfold yearly_forecast. rewrite list_elem_of_fmap.
  intros ([k s] & [= -> ->] & [_ ->]%groupby_sum_elem). simpl.
  apply nonneg_div_c1000, SumFacts.series_sum_nonneg, Forall_forall.
  intros x. rewrite list_elem_of_fmap.
  intros ([k' x'] & -> & [_ Hx]%list_elem_of_filter). simpl.
  apply list_elem_of_fmap in Hx as ([[d c] b] & [= -> ->] & Hm).
  apply left_join_elem in Hm as ([d' c'] & Hf & Hcase).
  apply list_elem_of_fmap in Hf as (d0 & [= -> ->] & _).
  simpl in Hcase. pose proof (clip_percent (yhat (prophet_predict model d0)))
    as Hclip.
  destruct Hcase as [(p & Hin & _ & [= -> -> ->]) | (_ & [= -> -> ->])];
    [| done].
  pose proof (proj1 (Forall_forall _ _) Hp p Hin) as Hy. simpl in Hy.
  destruct (clip _ _ _) as [|[]|q]; [| done | done |].
  { by destruct (Pvsyst.pvsyst_yield_kwh p). }
  intros _. change (Fin q / c100)%F with (Fin (q / 100)).
  destruct (Pvsyst.pvsyst_yield_kwh p) as [|[]|y0]; simpl in *; try done.
  - assert (q / 100 == q * (1 # 100))%Q as E by (field).
    assert (F.Qzero (q / 100) = false) as ->.
    { unfold F.Qzero. destruct (Qeq_bool (q / 100) 0) eqn:E0; [| done].
      apply Qeq_bool_eq in E0. lra. }
    assert (F.Qneg (q / 100) = false) as ->; [| done].
    unfold F.Qneg. apply negb_false_iff, Qle_bool_iff. lra.
  - assert (q / 100 == q * (1 # 100))%Q as E by (field).
    rewrite E. apply Qmult_le_0_compat; lra.
Qed.

(** X11.  The table of the long-term forecast has one row per year, by
    ascending year, and the rows up to the last complete year of the history
    are tagged "Historical", the later ones "Forecast". *)
Theorem long_term_years_and_types analysis_df pvsyst_df si table :
  (forecast analysis_df pvsyst_df si).2 = inr (Some table) →
  StronglySorted Z.lt (LongTerm.Year <$> table)
  ∧ ∃ full last_full_year,
      _get_full_years_df analysis_df = Some full
      ∧ last_full_year ∈ Year <$> full
      ∧ (∀ y, y ∈ Year <$> full → y ≤ last_full_year)
      ∧ Forall (λ r, LongTerm.Type_ r
                     = if decide (LongTerm.Year r ≤ last_full_year)
                       then "Historical" else "Forecast") table.
Proof.
  intros (full & model & cy & Hfull & Hne & _ & _ & _ & ->)
    %long_term_table_shape.
  split.
  - rewrite <- list_fmap_compose.
    change (LongTerm.Year ∘ _) with (@fst Z float).
    rewrite override_keys.
    + unfold yearly_forecast. rewrite fmap_keep_key.
      apply groupby_sum_keys_strict.
    + apply strict_sorted_NoDup. unfold yearly_actuals.
      rewrite fmap_keep_key. apply groupby_sum_keys_strict.
  - assert (Year <$> full ≠ []) as Hyears by (by destruct full).
    destruct (last_full_year_max (Year <$> full) Hyears) as [Hin Hmax].
    exists full, (foldr Z.max (default 0 (head (Year <$> full)))
                    (Year <$> full)).
    repeat split; try done.
    apply Forall_forall. intros r (yf & -> & _)%list_elem_of_fmap. done.
Qed.

(** X12.  With a finite non-negative guarantee and a degradation rate
    between 0 and 100 %, the degraded guarantee of the forecast table is the
    full guarantee in the commissioning year and never increases from one
    year to a later one after it. *)
Theorem degraded_guarantee_declines analysis_df pvsyst_df si table cy G R :
  (calculate_long_term_forecast Prophet prophet_fit prophet_predict
     analysis_df pvsyst_df si).2 = inr (Some table) →
  commissioning_year si = Some cy →
  default (Fin 0) (energy_guarantee si) = Fin G →
  (0 <= G)%Q →
  default (Fin (1 # 2)) (degradation_rate si) = Fin R →
  (0 <= R <= 100)%Q →
  (∀ r, r ∈ table → LongTerm.Year r = cy →
        (LongTerm.Degraded_Guarantee_MWh r ~= Fin G)%F)
  ∧ (∀ r1 r2, r1 ∈ table → r2 ∈ table →
        cy ≤ LongTerm.Year r1 ≤ LongTerm.Year r2 →
        (LongTerm.Degraded_Guarantee_MWh r2
         <=? LongTerm.Degraded_Guarantee_MWh r1)%F = true
        ∧ (LongTerm.Degraded_Guarantee_MWh r1 <=? Fin G)%F = true).
Proof.
  intros (full & model & cy' & _ & _ & _ & _ & Hcy' & ->)
    %long_term_table_shape Hcy HG HG0 HR HR0.
  rewrite Hcy in Hcy'. injection Hcy' as <-. rewrite HG, HR.
  change (Fin 1 - Fin R / c100)%F with (Fin (1 + - (R / 100))).
  assert (R / 100 == R * (1 # 100))%Q as ER by field.
  assert (0 <= 1 + - (R / 100) <= 1)%Q as Hq by lra.
  split.
  - intros r (yf & -> & _)%list_elem_of_fmap. simpl. intros ->.
    rewrite Z.sub_diag. simpl. lra.
  - intros r1 r2 (yf1 & -> & _)%list_elem_of_fmap
      (yf2 & -> & _)%list_elem_of_fmap. simpl. intros [H1 H2].
    destruct (pow_decay (1 + - (R / 100)) (yf1.1 - cy) Hq)
      as (p1 & -> & Hp1 & Hlater); [lia |].
    destruct (Hlater (yf2.1 - cy)) as (p2 & -> & Hp2); [lia |].
    simpl. split; apply leb_Fin; nra.
Qed.

(** X13.  When the baseline yields are not negative, no "Forecast" row of
    the long-term table carries a missing or negative yield: the clipped
    prediction is between 50 % and 110 % of the baseline, and months without
    a prediction or without a baseline row count for nothing. *)
Theorem long_term_forecast_nonneg analysis_df pvsyst_df si table :
  (forecast analysis_df pvsyst_df si).2 = inr (Some table) →
  Forall (λ p, nonneg (Pvsyst.pvsyst_yield_kwh p)) pvsyst_df →
  Forall (λ r, LongTerm.Type_ r = "Forecast" →
               nonneg (LongTerm.Forecasted_Yield_MWh r)) table.
Proof.
  intros (full & model & cy & _ & Hne & _ & _ & _ & ->)
    %long_term_table_shape Hp.
  assert (Year <$> full ≠ []) as Hyears by (by destruct full).
  destruct (last_full_year_max (Year <$> full) Hyears) as [_ Hmax].
  apply Forall_forall. intros r ([y v] & -> & Hin)%list_elem_of_fmap.
  simpl. destruct (decide _) as [? | Hlater]; [done |]. intros _.
  apply override_with_actuals_elem in Hin as (predicted & Hpred & ->).
  destruct (decide (y ∈ Year <$> full)) as [Hy | _].
  { exfalso. apply Hlater, Hmax, Hy. }
  pose proof (yearly_forecast_nonneg model full pvsyst_df
                (default 10%nat (forecast_period si)) Hp) as Hall.
  by apply (proj1 (Forall_forall _ _) Hall (y, predicted)).
Qed.

End LongTermTable.

Lemma long_term_years_and_types_witness :
  StronglySorted Z.lt
    (LongTerm.Year <$> long_term_frame Fixtures.forecast_2022_23)
  ∧ ∃ full last_full_year,
      _get_full_years_df Fixtures.table_2022_23 = Some full
      ∧ last_full_year ∈ Year <$> full
      ∧ (∀ y, y ∈ Year <$> full → y ≤ last_full_year)
      ∧ Forall (λ r, LongTerm.Type_ r
                     = if decide (LongTerm.Year r ≤ last_full_year)
                       then "Historical" else "Forecast")
          (long_term_frame Fixtures.forecast_2022_23).
Proof.
  apply (long_term_years_and_types Fixtures.trend_fit Fixtures.trend_predict
           Fixtures.table_2022_23 Fixtures.pvsyst_year Fixtures.si_2022).
  vm_compute. reflexivity.
Defined.

Lemma degraded_guarantee_declines_witness :
  (∀ r, r ∈ long_term_frame Fixtures.forecast_2022_23 →
        LongTerm.Year r = 2022 →
        (LongTerm.Degraded_Guarantee_MWh r ~= Fin 1600)%F)
  ∧ (∀ r1 r2, r1 ∈ long_term_frame Fixtures.forecast_2022_23 →
        r2 ∈ long_term_frame Fixtures.forecast_2022_23 →
        2022 ≤ LongTerm.Year r1 ≤ LongTerm.Year r2 →
        (LongTerm.Degraded_Guarantee_MWh r2
         <=? LongTerm.Degraded_Guarantee_MWh r1)%F = true
        ∧ (LongTerm.Degraded_Guarantee_MWh r1 <=? Fin 1600)%F = true).
Proof.
  apply (degraded_guarantee_declines Fixtures.trend_fit
           Fixtures.trend_predict Fixtures.table_2022_23 Fixtures.pvsyst_year
           Fixtures.si_2022 _ 2022 1600 (1 # 2)).
  - vm_compute. reflexivity.
  - reflexivity.
  - reflexivity.
  - lra.
  - reflexivity.
  - lra.
Defined.

Lemma long_term_forecast_nonneg_witness :
  Forall (λ r, LongTerm.Type_ r = "Forecast" →
               nonneg (LongTerm.Forecasted_Yield_MWh r))
    (long_term_frame Fixtures.forecast_2022_23).
Proof.
  apply (long_term_forecast_nonneg Fixtures.trend_fit Fixtures.trend_predict
           Fixtures.table_2022_23 Fixtures.pvsyst_year Fixtures.si_2022).
  - vm_compute. reflexivity.
  - apply Forall_forall. intros p (m & -> & _)%list_elem_of_fmap.
    simpl. lra.
Defined.

(** ** detect_anomalies_with_ml and generate_conclusion_text_phase2 *)

Lemma M_bind_pure {A B : Type} (a : A) (k : A → M B) :
  (([], inr a) : M A) ≫= k = k a.
Proof. unfold mbind, M_bind. simpl. by destruct (k a). Qed.

Lemma filter_flagged (f : analysis_row → Z) (df : list analysis_row) :
  filter (λ r, is_anomaly r = -1) ((λ r, mk_flagged r (f r)) <$> df)
  = (λ r, mk_flagged r (-1)) <$> filter (λ r, f r = -1) df.
Proof.
  induction df as [|r df IH]; [done |].
  rewrite fmap_cons, !filter_cons. simpl.
  destruct (decide (f r = -1)) as [E|E]; [| done].
  by rewrite fmap_cons, IH, E.
Qed.

Lemma fillna_notnan d x : F.isnan d = false → F.isnan (fillna d x) = false.
Proof. by destruct x. Qed.

Lemma two_distinct (l : list Z) :
  (1 < length (remove_dups l))%nat ↔ ∃ a b, a ∈ l ∧ b ∈ l ∧ a ≠ b.
Proof.
  split.
  - destruct (remove_dups l) as [|a [|b rest]] eqn:E; simpl; [lia | lia |].
    intros _. exists a, b.
    assert (NoDup (a :: b :: rest)) as Hnd
      by (rewrite <- E; apply NoDup_remove_dups).
    split; [| split].
    + apply elem_of_remove_dups. rewrite E. apply list_elem_of_here.
    + apply elem_of_remove_dups. rewrite E.
      apply list_elem_of_further, list_elem_of_here.
    + intros ->. apply NoDup_cons in Hnd as [Hnotin _]. apply Hnotin.
      apply list_elem_of_here.
  - intros (a & b & Ha & Hb & Hab).
    apply elem_of_remove_dups in Ha, Hb.
    destruct (remove_dups l) as [|x [|y rest]]; simpl; [| | lia].
    + by apply elem_of_nil in Ha.
    + apply list_elem_of_singleton in Ha, Hb. congruence.
Qed.

Lemma month_count_present (df : list analysis_row) y :
  month_count df y = 12%nat → y ∈ Year <$> df.
Proof.
  unfold month_count. intros H.
  destruct (filter (λ r, Year r = y) df) as [|r rest] eqn:E; [done |].
  assert (r ∈ filter (λ r, Year r = y) df) as Hr
    by (rewrite E; apply list_elem_of_here).
  apply list_elem_of_filter in Hr as [<- Hr]. by apply list_elem_of_fmap_2.
Qed.

Section NarrativeCases.

Context {Forest Prophet : Type}.
Variable iforest_fit : list feature → option Forest.
Variable iforest_predict : Forest → feature → Z.
Variable prophet_fit : list (date * float) → option Prophet.
Variable prophet_predict : Prophet → date → prediction.
Variable format_f : nat → float → string.

#[local] Abbreviation detect :=
  (detect_anomalies_with_ml Forest iforest_fit iforest_predict).
#[local] Abbreviation narrative :=
  (generate_conclusion_text_phase2 Forest iforest_fit iforest_predict
     Prophet prophet_fit prophet_predict format_f).

(** X14.  On three or more records the detector is fitted once, on one
    feature row per record in which every missing value has been replaced
    by 0; when the fit succeeds the anomalous months are exactly the records
    that the model predicts as -1, in table order. *)
Theorem detect_on_three_or_more (df : list analysis_row) :
  (3 ≤ length df)%nat →
  let out := detect df in
  let X := features <$> df in
  out.1 = [IForestFit X]
  ∧ length X = length df
  ∧ Forall (λ x : feature,
      F.isnan x.1.1 = false ∧ F.isnan x.1.2 = false ∧ F.isnan x.2 = false) X
  ∧ match iforest_fit X with
    | None => out.2 = inl LibraryError
    | Some model =>
        ∃ flagged_df,
          out.2 = inr flagged_df
          ∧ filter (λ r, is_anomaly r = -1) flagged_df
            = (λ r, mk_flagged r (-1))
                <$> filter (λ r, iforest_predict model (features r) = -1) df
    end.
Proof.
  intros Hlen out X. subst out X. rewrite detect_large by done. simpl.
  split; [done |]. split; [apply length_fmap |]. split.
  - apply Forall_forall. intros x (r & -> & _)%list_elem_of_fmap.
    unfold features. simpl. by rewrite !fillna_notnan.
  - destruct (iforest_fit _) as [model|]; [| done].
    eexists. split; [done |]. apply filter_flagged.
Qed.

(** X15.  On fewer than three records the narrative fits no model.  An
    empty table makes it raise KeyError 'Year'; one or two records give the
    fixed report: the introduction, the summary, "no anomalies" and the
    line on optimal performance, whatever the sensor alerts. *)
Theorem narrative_small_table insights (df : list analysis_row)
    (si : system_info) :
  (length df < 3)%nat →
  narrative insights df si
  = ([],
     match df with
     | [] => inl (KeyError "Year")
     | _ =>
         inr [("h3", "🤖 AI Performance Assistant Insights");
              ("body", "I've analyzed your PV plant's performance data using the Studio OM V2 analysis engine and machine learning to generate key insights and actionable recommendations.");
              ("h4", "Key Performance Insights");
              ("body", summary_text format_f insights);
              ("h4", "Machine Learning Anomaly Report");
              ("body", "✅ No significant performance anomalies were detected.");
              recommendations_heading;
              ("body", optimal_line)]
     end).
Proof.
  intros Hlen. unfold generate_conclusion_text_phase2.
  rewrite detect_small by done. rewrite M_bind_pure.
  rewrite fmap_row_flagged.
  assert (calculate_short_term_forecast Prophet prophet_fit prophet_predict
            df = ([], inr None)) as ->.
  { unfold calculate_short_term_forecast.
    destruct (decide _) as [_ | Hn]; [done |]. exfalso. apply Hn. right.
    lia. }
  rewrite M_bind_pure.
  rewrite (filter_flagged (λ _, 1) df).
  rewrite (filter_all_False (λ _ : analysis_row, 1 = -1) df)
    by (apply Forall_forall; intros; lia).
  pose proof (full_years_facts df) as Hfacts.
  destruct (_get_full_years_df df) as [full|] eqn:Efull.
  - destruct Hfacts as (Hsub & _ & Hfull).
    assert (full = []) as ->.
    { destruct full as [|r rest]; [done |]. destruct Hfull as [H12 _];
        [done |]. apply sublist_length in Hsub. lia. }
    destruct df; [done |]. reflexivity.
  - by subst df.
Qed.

(** X16.  The narrative carries its "Degradation Trend" heading exactly
    when two different years of the table have twelve distinct months
    each. *)
Theorem narrative_degradation_trend insights (df : list analysis_row)
    (si : system_info) lines :
  (narrative insights df si).2 = inr lines →
  (("h4", "Degradation Trend") ∈ lines
   ↔ ∃ y1 y2, y1 ≠ y2 ∧ month_count df y1 = 12%nat
              ∧ month_count df y2 = 12%nat).
Proof.
  unfold generate_conclusion_text_phase2. rewrite bind_outcome.
  destruct (detect_cases iforest_fit iforest_predict df)
    as [(flagged_df & Hd & Hrow) | Hd]; rewrite Hd; [| done].
  rewrite bind_outcome.
  destruct (short_term_cases prophet_fit prophet_predict (row <$> flagged_df))
    as [(fc & Hs) | Hs]; rewrite Hs; [| done].
  rewrite bind_outcome, Hrow.
  destruct (_get_full_years_df df) as [full|] eqn:Efull;
    lazy beta iota zeta delta [snd mret M_ret raise]; [| done].
  destruct (full_years_spec df full Efull) as [Hyears _].
  assert ((1 < length (remove_dups (Year <$> full)))%nat
          ↔ ∃ y1 y2, y1 ≠ y2 ∧ month_count df y1 = 12%nat
                     ∧ month_count df y2 = 12%nat) as Htwo.
  { rewrite two_distinct. split.
    - intros (a & b & Ha & Hb & Hab). apply Hyears in Ha, Hb.
      exists a, b. tauto.
    - intros (a & b & Hab & Ha & Hb). exists a, b.
      split; [| split; [| done]]; apply Hyears;
        (split; [by apply month_count_present | done]). }
  intros [= <-]. rewrite <- Htwo. clear Htwo.
  assert (("h4", "Degradation Trend")
          ∉ recommendations_section insights
              (anomaly_recommendation
                 <$> filter (λ r, is_anomaly r = -1) flagged_df)) as Hrec.
  { unfold recommendations_section.
    destruct (anomaly_recommendation <$> _) as [|r0 rs].
    - intros [H | [H | H%elem_of_nil]%elem_of_cons]%elem_of_cons;
        [discriminate | discriminate | done].
    - intros [H | (s & H & _)%list_elem_of_fmap]%elem_of_cons;
        discriminate. }
  assert (("h4", "Degradation Trend")
          ∉ match filter (λ r, is_anomaly r = -1) flagged_df with
            | [] =>
                [("body", "✅ No significant performance anomalies were detected.")]
            | _ =>
                ("body", "Our ML model has identified the following months with unusual performance patterns:")
                :: (anomaly_bullet format_f
                      <$> filter (λ r, is_anomaly r = -1) flagged_df)
            end) as Hanom.
  { destruct (filter _ flagged_df) as [|r0 rs].
    - intros [H | H%elem_of_nil]%elem_of_cons; [discriminate | done].
    - intros [H | (s & H & _)%list_elem_of_fmap]%elem_of_cons;
        discriminate. }
  assert (("h4", "Degradation Trend")
          ∉ match fc with
            | Some fc0 =>
                [("h4", "Next Month Forecast");
                 ("body", forecast_text format_f fc0)]
            | None => []
            end) as Hfc.
  { destruct fc.
    - intros [H | [H | H%elem_of_nil]%elem_of_cons]%elem_of_cons;
        [discriminate | discriminate | done].
    - apply not_elem_of_nil. }
  destruct (decide (1 < length (remove_dups (Year <$> full)))%nat)
    as [Hgt | Hle].
  - split; [done |]. intros _. do 4 apply list_elem_of_further.
    apply elem_of_app. right. apply elem_of_app. left.
    apply list_elem_of_here.
  - split; [| done]. intros H. exfalso.
    do 4 (apply elem_of_cons in H as [H | H]; [discriminate |]).
    apply elem_of_app in H as [H | H]; [by apply Hfc |].
    apply elem_of_app in H as [H | H]; [by apply elem_of_nil in H |].
    apply elem_of_cons in H as [H | H]; [discriminate |].
    apply elem_of_app in H as [H | H]; [by apply Hanom | by apply Hrec].
Qed.

End NarrativeCases.

Lemma detect_on_three_or_more_witness :
  let df := Fixtures.analysis_q1.1 in
  let out :=
    detect_anomalies_with_ml unit Fixtures.forest_fit Fixtures.forest_predict
      df in
  let X := features <$> df in
  out.1 = [IForestFit X]
  ∧ length X = length df
  ∧ Forall (λ x : feature,
      F.isnan x.1.1 = false ∧ F.isnan x.1.2 = false ∧ F.isnan x.2 = false) X
  ∧ match Fixtures.forest_fit X with
    | None => out.2 = inl LibraryError
    | Some model =>
        ∃ flagged_df,
          out.2 = inr flagged_df
          ∧ filter (λ r, is_anomaly r = -1) flagged_df
            = (λ r, mk_flagged r (-1))
                <$> filter
                      (λ r, Fixtures.forest_predict model (features r) = -1)
                      df
    end.
Proof.
  apply (detect_on_three_or_more Fixtures.forest_fit Fixtures.forest_predict
           Fixtures.analysis_q1.1).
  vm_compute. lia.
Defined.

Lemma narrative_small_table_witness :
  narrative_jan
  = ([],
     inr [("h3", "🤖 AI Performance Assistant Insights");
          ("body", "I've analyzed your PV plant's performance data using the Studio OM V2 analysis engine and machine learning to generate key insights and actionable recommendations.");
          ("h4", "Key Performance Insights");
          ("body", summary_text Fixtures.format_fixed
                     (perform_phase2_analysis Fixtures.si_default
                        Fixtures.actual_jan Fixtures.pvsyst_jan).2);
          ("h4", "Machine Learning Anomaly Report");
          ("body", "✅ No significant performance anomalies were detected.");
          recommendations_heading;
          ("body", optimal_line)]).
Proof.
  apply (narrative_small_table Fixtures.forest_fit Fixtures.forest_predict
           Fixtures.trend_fit Fixtures.trend_predict Fixtures.format_fixed
           (perform_phase2_analysis Fixtures.si_default Fixtures.actual_jan
              Fixtures.pvsyst_jan).2
           Fixtures.table_jan Fixtures.si_default).
  vm_compute. lia.
Defined.

Lemma narrative_degradation_trend_witness :
  ("h4", "Degradation Trend") ∈ Fixtures.lines_of Fixtures.narrative_q1
  ↔ ∃ y1 y2, y1 ≠ y2 ∧ month_count Fixtures.analysis_q1.1 y1 = 12%nat
             ∧ month_count Fixtures.analysis_q1.1 y2 = 12%nat.
Proof.
  apply (narrative_degradation_trend Fixtures.forest_fit
           Fixtures.forest_predict Fixtures.trend_fit Fixtures.trend_predict
           Fixtures.format_fixed Fixtures.analysis_q1.2
           Fixtures.analysis_q1.1 Fixtures.si_default).
  vm_compute. reflexivity.
Defined.

(** ** create_yearly_yield_guarantee_data *)

Lemma filter_year_col (col : analysis_row → float)
    (df : list analysis_row) k :
  snd <$> filter (λ kv : Z * float, kv.1 = k)
            ((λ r, (Year r, col r)) <$> df)
  = col <$> filter (λ r, Year r = k) df.
Proof.
  induction df as [|r df IH]; [done |].
  rewrite fmap_cons, !filter_cons. simpl.
  destruct (decide (Year r = k)); [rewrite !fmap_cons; simpl |];
    by rewrite IH.
Qed.

Lemma yearly_sums_elem (col : analysis_row → float)
    (df : list analysis_row) y v :
  (y, v) ∈ yearly_sums col df ↔
  y ∈ Year <$> df
  ∧ v = (series_sum (col <$> filter (λ r, Year r = y) df) / c1000)%F.
Proof.
  unfold yearly_sums. rewrite list_elem_of_fmap. split.
  - intros ([k s] & [= -> ->] & [Hk ->]%groupby_sum_elem). simpl.
    rewrite <- list_fmap_compose in Hk. split; [done |].
    by rewrite filter_year_col.
  - intros [Hy ->]. eexists (y, _). split; [reflexivity |].
    apply groupby_sum_elem. rewrite <- list_fmap_compose. split; [done |].
    by rewrite filter_year_col.
Qed.

Lemma yearly_sums_keys (col : analysis_row → float)
    (df : list analysis_row) :
  StronglySorted Z.lt (yearly_sums col df).*1.
Proof.
  unfold yearly_sums. rewrite fmap_keep_key. apply groupby_sum_keys_strict.
Qed.

(** The row of a year in a frame of yearly sums. *)
Lemma yearly_sums_lookup (col : analysis_row → float)
    (df : list analysis_row) y :
  filter (λ a : Z * float, a.1 = y) (yearly_sums col df)
  = if decide (y ∈ Year <$> df)
    then [(y, (series_sum (col <$> filter (λ r, Year r = y) df)
               / c1000)%F)]
    else [].
Proof.
  pose proof (filter_key_NoDup fst (yearly_sums col df) y
                (strict_sorted_NoDup _ (yearly_sums_keys col df))) as Hlen.
  destruct (decide (y ∈ Year <$> df)) as [Hy | Hy].
  - assert ((y, (series_sum (col <$> filter (λ r, Year r = y) df)
                 / c1000)%F)
            ∈ filter (λ a : Z * float, a.1 = y) (yearly_sums col df)) as Hin.
    { apply list_elem_of_filter. split; [done |].
      by apply yearly_sums_elem. }
    destruct (filter _ (yearly_sums col df)) as [|a [|b rest]];
      simpl in Hlen; [by apply elem_of_nil in Hin | | lia].
    by apply list_elem_of_singleton in Hin as ->.
  - destruct (filter _ (yearly_sums col df)) as [|[k v] rest] eqn:E;
      [done |]. exfalso. apply Hy.
    assert ((k, v) ∈ filter (λ a : Z * float, a.1 = y) (yearly_sums col df))
      as [Hk Hin]%list_elem_of_filter
      by (rewrite E; apply list_elem_of_here).
    simpl in Hk. subst k. by apply yearly_sums_elem in Hin as [? _].
Qed.

Lemma series_min_max (y0 : Z) (ys : list Z) :
  series_min y0 ys ∈ y0 :: ys ∧ series_max y0 ys ∈ y0 :: ys
  ∧ ∀ y, y ∈ y0 :: ys → series_min y0 ys ≤ y ≤ series_max y0 ys.
Proof.
  unfold series_min, series_max.
  induction ys as [|x ys (Hmin & Hmax & Hall)]; simpl.
  - split; [apply list_elem_of_here |]. split; [apply list_elem_of_here |].
    intros y ->%list_elem_of_singleton. lia.
  - pose proof (Hall y0 (list_elem_of_here _ _)) as H0.
    split; [| split].
    + destruct (Z.min_spec x (foldr Z.min y0 ys)) as [[_ ->] | [_ ->]].
      * apply list_elem_of_further, list_elem_of_here.
      * apply elem_of_cons in Hmin as [-> | Hmin];
          [apply list_elem_of_here | by do 2 apply list_elem_of_further].
    + destruct (Z.max_spec x (foldr Z.max y0 ys)) as [[_ ->] | [_ ->]].
      * apply elem_of_cons in Hmax as [-> | Hmax];
          [apply list_elem_of_here | by do 2 apply list_elem_of_further].
      * apply list_elem_of_further, list_elem_of_here.
    + intros y [-> | [-> | Hy]%elem_of_cons]%elem_of_cons.
      * lia.
      * lia.
      * assert (y ∈ y0 :: ys) as Hy' by (by apply list_elem_of_further).
        specialize (Hall y Hy'). lia.
Qed.

(** X17.  The yearly guarantee table needs the commissioning year even when
    it has data (KeyError otherwise).  It then has one row per calendar year
    from the first to the last year of the table (the commissioning year
    alone on an empty table), each with the configured guarantee; a year
    with records carries its yearly sums in MWh, a year without records
    carries NaN. *)
Theorem guarantee_table_rows (analysis_df : list analysis_row)
    (si : system_info) :
  match create_yearly_yield_guarantee_data analysis_df si with
  | inl e => e = KeyError "commissioning_year" ∧ commissioning_year si = None
  | inr table =>
      let years := Year <$> analysis_df in
      ∃ cy lo hi,
        commissioning_year si = Some cy
        ∧ Guarantee.Year <$> table = seqZ lo (hi + 1 - lo)
        ∧ lo ≤ hi
        ∧ (if decide (analysis_df = []) then lo = cy ∧ hi = cy
           else lo ∈ years ∧ hi ∈ years ∧ ∀ y, y ∈ years → lo ≤ y ≤ hi)
        ∧ Forall (λ r,
            Guarantee.Energy_Guarantee_MWh r
            = default (Fin 0) (energy_guarantee si)
            ∧ let rows := filter (λ a, Year a = Guarantee.Year r) analysis_df in
              if decide (Guarantee.Year r ∈ years) then
                Guarantee.Actual_Yearly_Yield_MWh r
                = (series_sum (actual_yield_kwh <$> rows) / c1000)%F
                ∧ Guarantee.Expected_Yearly_Yield_MWh r
                  = (series_sum (expected_yield_kwh <$> rows) / c1000)%F
              else
                Guarantee.Actual_Yearly_Yield_MWh r = NaN
                ∧ Guarantee.Expected_Yearly_Yield_MWh r = NaN) table
  end.
Proof.
  unfold create_yearly_yield_guarantee_data.
  destruct (commissioning_year si) as [cy|]; [| done].
  lazy beta iota zeta. set (years := Year <$> analysis_df).
  set (keys := (yearly_sums actual_yield_kwh analysis_df).*1).
  assert (∀ y, y ∈ keys ↔ y ∈ years) as Hkeys.
  { intros y. unfold keys. rewrite list_elem_of_fmap. split.
    - intros ([k v] & -> & [? _]%yearly_sums_elem). done.
    - intros Hy. eexists (y, _). split; [done |].
      apply yearly_sums_elem. split; [done | reflexivity]. }
  exists cy, (year_bounds cy keys).1, (year_bounds cy keys).2.
  split; [done |].
  split; [| split; [| split]].
  - rewrite !left_join_unique
      by (apply strict_sorted_NoDup, yearly_sums_keys).
    rewrite <- !list_fmap_compose.
    erewrite list_fmap_ext; [apply list_fmap_id |].
    intros i y _. simpl.
    by destruct (filter _ (yearly_sums actual_yield_kwh analysis_df)),
      (filter _ (yearly_sums expected_yield_kwh analysis_df)).
  - destruct keys as [|y0 ys]; simpl; [lia |].
    destruct (series_min_max y0 ys) as (_ & _ & Hall).
    specialize (Hall y0 (list_elem_of_here _ _)). lia.
  - destruct (decide (analysis_df = [])) as [-> | Hne]; [done |].
    destruct keys as [|y0 ys] eqn:E.
    { exfalso. destruct analysis_df as [|r rest]; [done |].
      assert (Year r ∈ @nil Z) as Hin.
      { apply Hkeys. subst years. rewrite fmap_cons.
        apply list_elem_of_here. }
      by apply elem_of_nil in Hin. }
    simpl. destruct (series_min_max y0 ys) as (Hmin & Hmax & Hall).
    split; [by apply Hkeys |]. split; [by apply Hkeys |].
    intros y Hy. by apply Hall, Hkeys.
  - apply Forall_forall. intros r ([[y a] e] & -> & Hx)%list_elem_of_fmap.
    simpl. split; [done |].
    apply left_join_elem in Hx as ([y' a'] & Ha & He).
    apply left_join_elem in Ha as (y0 & _ & Ha). unfold id in Ha.
    simpl in He.
    assert (y' = y ∧ a' = a ∧ y0 = y) as (-> & -> & ->).
    { destruct He as [(b & _ & _ & [= -> -> _]) | (_ & [= -> -> _])];
        destruct Ha as [(b' & _ & _ & [= -> _]) | (_ & [= -> _])]; done. }
    destruct (decide (y ∈ years)) as [Hy | Hy].
    + split.
      * destruct Ha as [([k v] & Hin & Hk & [= ->]) | (Hnone & _)].
        -- simpl in Hk. subst k. by apply yearly_sums_elem in Hin as [_ ->].
        -- exfalso. eapply (Hnone (y, _)); [| done].
           apply yearly_sums_elem. split; [done | reflexivity].
      * destruct He as [([k v] & Hin & Hk & [= ->]) | (Hnone & _)].
        -- simpl in Hk. subst k. by apply yearly_sums_elem in Hin as [_ ->].
        -- exfalso. eapply (Hnone (y, _)); [| done].
           apply yearly_sums_elem. split; [done | reflexivity].
    + split.
      * destruct Ha as [([k v] & Hin & Hk & _) | (_ & [= ->])]; [| done].
        simpl in Hk. subst k. by apply yearly_sums_elem in Hin as [? _].
      * destruct He as [([k v] & Hin & Hk & _) | (_ & [= ->])]; [| done].
        simpl in Hk. subst k. by apply yearly_sums_elem in Hin as [? _].
Qed.

(** ** validate_pvsyst_baseline *)

Lemma consistency_Fin (a b : Q) :
  ¬ (b == 0)%Q →
  consistency (Fin a) (Fin b) = Fin (100 + - deviation_pct a b).
Proof.
  intros Hb. unfold consistency, deviation_pct. simpl.
  assert (F.Qzero b = false) as ->; [| reflexivity].
  unfold F.Qzero. destruct (Qeq_bool b 0) eqn:E; [| done].
  by apply Qeq_bool_eq in E.
Qed.

Lemma consistency_message_Fin (q : Q) :
  ((consistency_message (Fin q)).2 = "success" ↔ (95 <= q)%Q)
  ∧ ((consistency_message (Fin q)).2 = "warning" ↔ (90 <= q < 95)%Q)
  ∧ ((consistency_message (Fin q)).2 = "error" ↔ (q < 90)%Q).
Proof.
  unfold consistency_message, F.geb, F.leb. simpl.
  destruct (95 ?= q)%Q eqn:E1; simpl.
  - apply Qeq_alt in E1. repeat split; intros; try done; lra.
  - apply Qlt_alt in E1. repeat split; intros; try done; lra.
  - apply Qgt_alt in E1. destruct (90 ?= q)%Q eqn:E2; simpl.
    + apply Qeq_alt in E2. repeat split; intros; try done; lra.
    + apply Qlt_alt in E2. repeat split; intros; try done; lra.
    + apply Qgt_alt in E2. repeat split; intros; try done; lra.
Qed.

(** Without a usable score: NaN or minus infinity. *)
Lemma consistency_zero_benchmark (x : float) :
  consistency x (Fin 0) = NaN ∨ consistency x (Fin 0) = Inf true.
Proof.
  unfold consistency. destruct x as [|[]|q]; simpl; auto.
  destruct (F.Qzero _); [by left |]. right.
  by destruct (F.Qneg _).
Qed.

Lemma average_without_score (c1 c2 : float) :
  (c1 = NaN ∨ c1 = Inf true) ∨ (c2 = NaN ∨ c2 = Inf true) →
  let avg := ((c1 + c2) / Fin 2)%F in
  F.isfinite avg = false
  ∧ consistency_message avg
    = ("Low Consistency: Significant deviation detected. Results may be unreliable. Please verify the PVsyst report.",
       "error").
Proof.
  intros [[-> | ->] | [-> | ->]]; destruct c1 as [|[]|q1] || idtac;
    destruct c2 as [|[]|q2] || idtac; simpl; auto.
Qed.

Lemma column_finite (df : list Pvsyst.row) :
  forallb finite_pvsyst df = true →
  Forall (λ x, F.isfinite x = true) (Pvsyst.pvsyst_ghi_kwh_m2 <$> df)
  ∧ Forall (λ x, F.isfinite x = true) (Pvsyst.pvsyst_yield_kwh <$> df).
Proof.
  intros H. split; apply Forall_fmap, Forall_forall; intros p Hp;
    pose proof (forallb_elem_of _ _ p H Hp) as Hfin;
    unfold finite_pvsyst in Hfin;
    apply andb_true_iff in Hfin as [? ?]; done.
Qed.

Section ValidatorFacts.

Variable files : string → option (gmap string benchmark).
Variable format_f : nat → float → string.

#[local] Abbreviation validate := (validate_pvsyst_baseline files format_f).

(** X18.  For a finite baseline, a positive nominal power and non-zero
    benchmarks, the score is 100 minus the mean of the two relative
    deviations (irradiation, specific yield) in percent: never above 100,
    "success" exactly up to a mean deviation of 5 %, "warning" up to 10 %,
    "error" beyond. *)
Theorem validator_score_tiers (df : list Pvsyst.row) (location_key : string)
    (system_pnom : float) (benchmarks : gmap string benchmark)
    (bm_ghi bm_yield pnom : Q) :
  String.prefix "---" location_key = false →
  (files th_province_path = Some benchmarks
   ∨ (files th_province_path = None
      ∧ files location_path = Some benchmarks)) →
  benchmarks !! location_key
  = Some (mk_benchmark (Some (Fin bm_ghi)) (Some (Fin bm_yield))) →
  ¬ (bm_ghi == 0)%Q → ¬ (bm_yield == 0)%Q →
  forallb finite_pvsyst df = true →
  system_pnom = Fin pnom → (0 < pnom)%Q →
  let deviation :=
    ((deviation_pct (annual_total Pvsyst.pvsyst_ghi_kwh_m2 df) bm_ghi
      + deviation_pct (annual_total Pvsyst.pvsyst_yield_kwh df / pnom)
          bm_yield) / 2)%Q in
  ∃ score status,
    validate (Some df) location_key system_pnom
    = inr (Some (format_f 1 (Fin score) +:+ "%"),
           (consistency_message (Fin score)).1, Some status)
    ∧ (score == 100 - deviation)%Q
    ∧ (score <= 100)%Q
    ∧ (status = "success" ↔ (deviation <= 5)%Q)
    ∧ (status = "warning" ↔ (5 < deviation <= 10)%Q)
    ∧ (status = "error" ↔ (10 < deviation)%Q).
Proof.
  intros Hkey Hfile Hentry Hg Hy Hfin -> Hp deviation.
  destruct (column_finite df Hfin) as [Hghi Hyield].
  assert (validate (Some df) location_key (Fin pnom)
          = let avg :=
              ((consistency
                  (series_sum (Pvsyst.pvsyst_ghi_kwh_m2 <$> df)) (Fin bm_ghi)
                + consistency
                    (series_sum (Pvsyst.pvsyst_yield_kwh <$> df) / Fin pnom)
                    (Fin bm_yield)) / Fin 2)%F in
            inr (Some (format_f 1 avg +:+ "%"),
                 (consistency_message avg).1,
                 Some (consistency_message avg).2)) as ->.
  { unfold validate_pvsyst_baseline. rewrite Hkey.
    assert ((Fin pnom <=? Fin 0)%F = false) as Hpos.
    { unfold F.leb. simpl. destruct (pnom ?= 0)%Q eqn:E; [| | done].
      - apply Qeq_alt in E. lra.
      - apply Qlt_alt in E. lra. }
    destruct Hfile as [Hth | [Hth Hloc]].
    - rewrite Hth, Hth, Hentry, Hpos. reflexivity.
    - rewrite Hth, Hloc, Hentry, Hpos. reflexivity. }
  rewrite (series_sum_finite _ Hghi), (series_sum_finite _ Hyield).
  fold (annual_total Pvsyst.pvsyst_ghi_kwh_m2 df).
  fold (annual_total Pvsyst.pvsyst_yield_kwh df).
  assert (F.Qzero pnom = false) as Hnz.
  { unfold F.Qzero. destruct (Qeq_bool pnom 0) eqn:E; [| done].
    apply Qeq_bool_eq in E. lra. }
  assert ((Fin (annual_total Pvsyst.pvsyst_yield_kwh df) / Fin pnom)%F
          = Fin (annual_total Pvsyst.pvsyst_yield_kwh df / pnom)) as ->
    by (simpl; by rewrite Hnz).
  rewrite !consistency_Fin by done. lazy zeta.
  set (dg := deviation_pct (annual_total Pvsyst.pvsyst_ghi_kwh_m2 df) bm_ghi)
    in *.
  set (dy := deviation_pct (annual_total Pvsyst.pvsyst_yield_kwh df / pnom)
               bm_yield) in *.
  change ((Fin (100 + - dg) + Fin (100 + - dy)) / Fin 2)%F
    with (Fin ((100 + - dg + (100 + - dy)) / 2)).
  assert (0 <= dg)%Q as Hdg by apply Qabs_nonneg.
  assert (0 <= dy)%Q as Hdy by apply Qabs_nonneg.
  assert ((100 + - dg + (100 + - dy)) / 2 == 100 - deviation)%Q as Hscore.
  { unfold deviation. field. }
  assert (deviation == (dg + dy) * (1 # 2))%Q as Hdev
    by (unfold deviation; field).
  eexists _, _. split; [reflexivity |]. split; [done |].
  destruct (consistency_message_Fin ((100 + - dg + (100 + - dy)) / 2))
    as (Hs & Hw & He).
  rewrite Hs, Hw, He, Hscore. repeat split; intros; lra.
Qed.

(** X19.  A benchmark of zero (irradiation or specific yield) never makes
    the validation fail: the relative deviation is then infinite or
    undefined, and the verdict is "Low Consistency" with status "error",
    whatever the baseline. *)
Theorem validator_zero_benchmark (df : list Pvsyst.row)
    (location_key : string) (system_pnom : float)
    (benchmarks : gmap string benchmark) (bm_ghi bm_yield : float) :
  String.prefix "---" location_key = false →
  (files th_province_path = Some benchmarks
   ∨ (files th_province_path = None
      ∧ files location_path = Some benchmarks)) →
  benchmarks !! location_key
  = Some (mk_benchmark (Some bm_ghi) (Some bm_yield)) →
  (system_pnom <=? Fin 0)%F = false →
  bm_ghi = Fin 0 ∨ bm_yield = Fin 0 →
  ∃ score,
    validate (Some df) location_key system_pnom
    = inr (Some (format_f 1 score +:+ "%"),
           "Low Consistency: Significant deviation detected. Results may be unreliable. Please verify the PVsyst report.",
           Some "error")
    ∧ F.isfinite score = false.
Proof.
  intros Hkey Hfile Hentry Hpos Hzero.
  assert (validate (Some df) location_key system_pnom
          = let avg :=
              ((consistency
                  (series_sum (Pvsyst.pvsyst_ghi_kwh_m2 <$> df)) bm_ghi
                + consistency
                    (series_sum (Pvsyst.pvsyst_yield_kwh <$> df)
                     / system_pnom) bm_yield) / Fin 2)%F in
            inr (Some (format_f 1 avg +:+ "%"),
                 (consistency_message avg).1,
                 Some (consistency_message avg).2)) as ->.
  { unfold validate_pvsyst_baseline. rewrite Hkey.
    destruct Hfile as [Hth | [Hth Hloc]].
    - rewrite Hth, Hth, Hentry, Hpos. reflexivity.
    - rewrite Hth, Hloc, Hentry, Hpos. reflexivity. }
  lazy zeta.
  match goal with
  | |- context [((?c1 + ?c2) / Fin 2)%F] =>
      destruct (average_without_score c1 c2) as [Hfin Hmsg]
  end.
  { destruct Hzero as [-> | ->]; [left | right];
      apply consistency_zero_benchmark. }
  eexists. split; [| exact Hfin]. by rewrite Hmsg.
Qed.

End ValidatorFacts.

Lemma validator_score_tiers_witness :
  let deviation :=
    ((deviation_pct
        (annual_total Pvsyst.pvsyst_ghi_kwh_m2 Fixtures.pvsyst_year) 1800
      + deviation_pct
          (annual_total Pvsyst.pvsyst_yield_kwh Fixtures.pvsyst_year / 10)
          1400) / 2)%Q in
  ∃ score status,
    validate_pvsyst_baseline files_location Fixtures.format_fixed
      (Some Fixtures.pvsyst_year) "Bangkok" (Fin 10)
    = inr (Some (Fixtures.format_fixed 1 (Fin score) +:+ "%"),
           (consistency_message (Fin score)).1, Some status)
    ∧ (score == 100 - deviation)%Q
    ∧ (score <= 100)%Q
    ∧ (status = "success" ↔ (deviation <= 5)%Q)
    ∧ (status = "warning" ↔ (5 < deviation <= 10)%Q)
    ∧ (status = "error" ↔ (10 < deviation)%Q).
Proof.
  apply (validator_score_tiers files_location Fixtures.format_fixed
           Fixtures.pvsyst_year "Bangkok" (Fin 10) benchmarks_bangkok
           1800 1400 10).
  - reflexivity.
  - right. split; reflexivity.
  - vm_compute. reflexivity.
  - intros H. vm_compute in H. discriminate.
  - intros H. vm_compute in H. discriminate.
  - reflexivity.
  - reflexivity.
  - reflexivity.
Defined.

Lemma validator_zero_benchmark_witness :
  ∃ score,
    validate_pvsyst_baseline files_zero Fixtures.format_fixed
      (Some Fixtures.pvsyst_year) "Bangkok" (Fin 10)
    = inr (Some (Fixtures.format_fixed 1 score +:+ "%"),
           "Low Consistency: Significant deviation detected. Results may be unreliable. Please verify the PVsyst report.",
           Some "error")
    ∧ F.isfinite score = false.
Proof.
  apply (validator_zero_benchmark files_zero Fixtures.format_fixed
           Fixtures.pvsyst_year "Bangkok" (Fin 10) benchmarks_zero
           (Fin 0) (Fin 1400)).
  - reflexivity.
  - left. reflexivity.
  - vm_compute. reflexivity.
  - reflexivity.
  - by left.
Defined.

(** ** The loss waterfall of an analysis run *)

Lemma summarize_total_ideal df :
  summarize df !! "Total Ideal Yield (MWh)"
  = Some (series_sum (ideal_yield_kwh <$> df) / c1000)%F.
Proof. reflexivity. Qed.

Lemma summarize_total_temperature df :
  summarize df !! "Total Temperature Loss (MWh)"
  = Some (series_sum (temp_loss_kwh <$> df) / c1000)%F.
Proof. reflexivity. Qed.

(** A finite row above the floor: the other losses close the waterfall. *)
Lemma row_balance si (m : Merged.row) :
  derived_finite (enrich_row si m) = true →
  F.isfinite (actual_yield_kwh (enrich_row si m)) = true →
  (ideal_yield_kwh (enrich_row si m) + temp_loss_kwh (enrich_row si m)
   >=? expected_floor)%F = true →
  (to_Q (other_losses_kwh (enrich_row si m))
   == to_Q (ideal_yield_kwh (enrich_row si m))
      + to_Q (temp_loss_kwh (enrich_row si m))
      - to_Q (actual_yield_kwh (enrich_row si m)))%Q.
Proof.
  intros (_ & _ & Hi & Ht)%derived_finite_columns Ha Hfloor.
  change (other_losses_kwh (enrich_row si m))
    with (pymax (ideal_yield_kwh (enrich_row si m)
                 + temp_loss_kwh (enrich_row si m)) expected_floor
          - actual_yield_kwh (enrich_row si m))%F.
  destruct (ideal_yield_kwh (enrich_row si m)) as [| |i]; [done | done |].
  destruct (temp_loss_kwh (enrich_row si m)) as [| |t]; [done | done |].
  destruct (actual_yield_kwh (enrich_row si m)) as [| |a]; [done | done |].
  unfold pymax, F.geb, F.leb, F.gtb in *. simpl in *.
  destruct (1 # 100 ?= i + t)%Q; [| | done]; simpl; lra.
Qed.

Lemma waterfall_sum si (ms : list Merged.row) :
  Forall (λ r, derived_finite r = true
               ∧ F.isfinite (actual_yield_kwh r) = true)
    (enrich_row si <$> ms) →
  Forall (λ r, (ideal_yield_kwh r + temp_loss_kwh r >=? expected_floor)%F
               = true) (enrich_row si <$> ms) →
  (foldr Qplus 0 (to_Q <$> (other_losses_kwh <$> (enrich_row si <$> ms)))
   == foldr Qplus 0 (to_Q <$> (ideal_yield_kwh <$> (enrich_row si <$> ms)))
      + foldr Qplus 0 (to_Q <$> (temp_loss_kwh <$> (enrich_row si <$> ms)))
      - foldr Qplus 0 (to_Q <$> (actual_yield_kwh <$> (enrich_row si <$> ms))))%Q.
Proof.
  induction ms as [|m ms IH]; [intros _ _; simpl; lra |].
  rewrite !fmap_cons, !Forall_cons. intros [[Hd Ha] Hrest] [Hfl Hfloor].
  specialize (IH Hrest Hfloor). cbn [foldr].
  rewrite IH, (row_balance si m Hd Ha Hfl). lra.
Qed.

(** X20.  For finite inputs covered by the baseline, when no month falls to
    the floor of the expected yield (ideal yield plus temperature loss at
    least 0.01 kWh), the loss waterfall closes: ideal yield plus temperature
    loss minus other losses is the actual yield, for the whole period and
    for the latest month. *)
Theorem loss_breakdown_balances si actual_df pvsyst_df period b :
  finite_config si = true →
  forallb finite_actual actual_df = true →
  forallb finite_pvsyst pvsyst_df = true →
  baseline_covers pvsyst_df actual_df = true →
  let run := perform_phase2_analysis si actual_df pvsyst_df in
  Forall (λ r, (ideal_yield_kwh r + temp_loss_kwh r >=? expected_floor)%F
               = true) run.1 →
  get_loss_breakdown_data run.1 (Some run.2) period = inr b →
  (ideal b + temp_loss b - other_loss b ~= actual b)%F.
Proof.
  intros Hc Ha Hp Hcov run Hfloor. subst run.
  destruct (analysis_table_rows si actual_df pvsyst_df) as [_ Hperm].
  pose proof (enriched_rows_finite si actual_df pvsyst_df Hc Ha Hp Hcov)
    as Hfin.
  rewrite Hperm in Hfloor.
  unfold get_loss_breakdown_data.
  destruct (last _) as [r|] eqn:E; [| intros [= <-]; simpl; lra].
  destruct (decide (period = "overall")) as [_ | _].
  - intros [= <-]. cbn [ideal temp_loss other_loss actual snd
                         perform_phase2_analysis]. unfold get0.
    rewrite summarize_total_other, summarize_total_ideal,
      summarize_total_temperature, summarize_total_actual.
    cbn [default].
    pose proof (waterfall_sum si _ Hfin Hfloor) as Hsum.
    rewrite !series_sum_finite.
    + simpl. rewrite Hsum. field.
    + apply Forall_fmap. eapply Forall_impl; [exact Hfin |].
      by intros r' [_ ?].
    + apply Forall_fmap. eapply Forall_impl; [exact Hfin |].
      by intros r' [(_ & ? & _)%derived_finite_columns _].
    + apply Forall_fmap. eapply Forall_impl; [exact Hfin |].
      by intros r' [(_ & _ & _ & ?)%derived_finite_columns _].
    + apply Forall_fmap. eapply Forall_impl; [exact Hfin |].
      by intros r' [(_ & _ & ? & _)%derived_finite_columns _].
  - destruct (decide (period = "latest_month")) as [_ | _]; [| done].
    intros [= <-]. cbn [ideal temp_loss other_loss actual].
    apply last_Some_elem_of in E. rewrite Hperm in E.
    apply list_elem_of_fmap in E as (m & -> & Hm).
    assert (enrich_row si m ∈ enrich_row si <$> merge_left actual_df pvsyst_df)
      as Hin by (by apply list_elem_of_fmap_2).
    pose proof (proj1 (Forall_forall _ _) Hfin _ Hin) as [Hd Hact].
    pose proof (proj1 (Forall_forall _ _) Hfloor _ Hin) as Hfl.
    pose proof (row_balance si m Hd Hact Hfl) as Hrow.
    apply derived_finite_columns in Hd as (_ & Ho & Hi & Ht).
    destruct (ideal_yield_kwh (enrich_row si m)) as [| |i]; [done | done |].
    destruct (temp_loss_kwh (enrich_row si m)) as [| |t]; [done | done |].
    destruct (other_losses_kwh (enrich_row si m)) as [| |o]; [done | done |].
    destruct (actual_yield_kwh (enrich_row si m)) as [| |a]; [done | done |].
    simpl in *. rewrite Hrow. field.
Qed.

Lemma loss_breakdown_balances_witness :
  ∃ b,
    get_loss_breakdown_data Fixtures.analysis_q1.1
      (Some Fixtures.analysis_q1.2) "overall" = inr b
    ∧ (ideal b + temp_loss b - other_loss b ~= actual b)%F.
Proof.
  eexists. split; [reflexivity |].
  apply (loss_breakdown_balances Fixtures.si_default Fixtures.actual_q1
           Fixtures.pvsyst_q1 "overall").
  - reflexivity.
  - reflexivity.
  - reflexivity.
  - reflexivity.
  - apply (bool_decide_unpack _). vm_compute. reflexivity.
  - reflexivity.
Defined.

